(** * HealthSecure: identity, access control and medical record registry

    A shallow embedding of the three Solidity contracts
    [contracts/AccessControl.sol], [contracts/MedicalRecordRegistry.sol] and
    [contracts/HealthSecureIdentity.sol] (pragma ^0.8.20), and the
    properties of their state machines.

    Conventions of the embedding:
    - [uint256] and [address] values are binary naturals; arithmetic that
      Solidity 0.8 checks ([block.timestamp + durationSeconds],
      [recordCount++]) goes through [checked_add], which raises
      [Panic 0x11] above [MAX_UINT256];
    - a storage [mapping] is a finite map read with the zero value as
      default; a storage array is a list and [push] appends at the end;
    - a state-changing function is a computation in the monad [M], which
      threads the contract storage and the event log and stops at the first
      failing [require] or panic, keeping the storage reached at that point;
      [transact] is the call as the ledger sees it: a failed call commits
      nothing;
    - a [view] function reads the storage and returns its result. *)

From stdpp Require Import gmap strings list fin_maps sorting.
From Stdlib Require Import NArith Lia.

Local Open Scope N_scope.

(** ** Machine values *)

Definition uint256 : Type := N.
Definition address : Type := N.
Definition bytes32 : Type := N.

Definition MAX_UINT256 : N := 2 ^ 256 - 1.

(** A call fails either on a [require] (with its reason string) or on a
    compiler-inserted check ([Panic], with its code). *)
Inductive Error : Type :=
| Revert (reason : string)
| Panic (code : N).

Definition PANIC_ARITHMETIC : N := 17.   (* 0x11 *)
Definition PANIC_INDEX : N := 50.        (* 0x32 *)

(** ** The identity contract, as seen by its two clients *)

(** Both contracts import [HealthSecureIdentity.sol] and call two of its
    functions, boolean predicates that never fail (they answer false for an
    unknown principal). The two clients are verified for whatever the
    identity contract answers at each call, so they take its current answers
    as a parameter; [identity_view] below gives the answers of the identity
    contract itself. *)
Record Identity : Type := {
  isPatient : address → bool;
  isVerifiedDoctor : address → bool
}.

(** What the runtime supplies to a call: [msg.sender], [block.timestamp] and
    the contract referenced by the [identityContract] storage variable. *)
Record Env : Type := {
  msg_sender : address;
  block_timestamp : uint256;
  identityContract : Identity
}.

(** ** The execution monad *)

Section Exec.
Context {St Ev : Type}.

Inductive Outcome (A : Type) : Type :=
| Done (a : A) (s : St) (log : list Ev)
| Abort (e : Error) (s : St).

Definition M (A : Type) : Type := St → Outcome A.

Definition ret {A} (a : A) : M A := λ s, Done A a s [].

Definition bind {A B} (m : M A) (k : A → M B) : M B :=
  λ s, match m s with
       | Done _ a s1 l1 =>
           match k a s1 with
           | Done _ b s2 l2 => Done B b s2 (l1 ++ l2)
           | Abort _ e s2 => Abort B e s2
           end
       | Abort _ e s1 => Abort B e s1
       end.

Definition get : M St := λ s, Done St s s [].
Definition modify (f : St → St) : M unit := λ s, Done unit tt (f s) [].
Definition emit (e : Ev) : M unit := λ s, Done unit tt s [e].
Definition fail {A} (e : Error) : M A := λ s, Abort A e s.

Definition require (cond : bool) (reason : string) : M unit :=
  if cond then ret tt else fail (Revert reason).

(** [a + b] on [uint256], as compiled by Solidity 0.8. *)
Definition checked_add (a b : uint256) : M uint256 :=
  if a + b <=? MAX_UINT256 then ret (a + b) else fail (Panic PANIC_ARITHMETIC).

(** The result of a transaction. *)
Inductive Receipt (A : Type) : Type :=
| Success (a : A) (log : list Ev)
| Failure (e : Error).

(** A call as a transaction: a failure discards every storage write. *)
Definition transact {A} (m : M A) (s : St) : Receipt A * St :=
  match m s with
  | Done _ a s' l => (Success A a l, s')
  | Abort _ e _ => (Failure A e, s)
  end.

(** The storage a failing call had reached when it stopped. *)
Definition aborted_at {A} (m : M A) (s : St) : option St :=
  match m s with
  | Done _ _ _ _ => None
  | Abort _ _ s' => Some s'
  end.
End Exec.

Arguments Outcome : clear implicits.
Arguments M : clear implicits.
Arguments Receipt : clear implicits.
Arguments Done {St Ev A}.
Arguments Abort {St Ev A}.
Arguments Success {Ev A}.
Arguments Failure {Ev A}.

Declare Scope evm_scope.
Delimit Scope evm_scope with evm.
Notation "'let*' x ':=' m 'in' k" := (bind m (λ x, k))
  (at level 10, x name, m at level 100, k at level 200, only parsing) : evm_scope.
Notation "m '>>' k" := (bind m (λ _, k))
  (at level 100, k at level 200, right associativity, only parsing) : evm_scope.

(** ** AccessControl.sol *)

Module AccessControl.

Record AccessGrant : Type := {
  isGranted : bool;
  grantedAt : uint256;
  expiresAt : uint256;
  exists_ : bool
}.

(** The value of a mapping slot that was never written. *)
Definition zero_grant : AccessGrant :=
  {| isGranted := false; grantedAt := 0; expiresAt := 0; exists_ := false |}.

Record State : Type := {
  accessGrants : gmap (address * address) AccessGrant;
  patientDoctors : gmap address (list address);
  doctorPatients : gmap address (list address)
}.

Definition init : State :=
  {| accessGrants := ∅; patientDoctors := ∅; doctorPatients := ∅ |}.

Inductive Event : Type :=
| AccessGranted (patient doctor : address) (grantedAt expiresAt : uint256)
| AccessRevoked (patient doctor : address) (revokedAt : uint256)
| EmergencyAccessGranted (patient doctor : address) (reason : string)
    (timestamp : uint256).

(** Storage reads. *)
Definition grant_of (s : State) (p d : address) : AccessGrant :=
  default zero_grant (accessGrants s !! (p, d)).
Definition doctors_of (s : State) (p : address) : list address :=
  default [] (patientDoctors s !! p).
Definition patients_of (s : State) (d : address) : list address :=
  default [] (doctorPatients s !! d).

(** Storage writes. *)
Definition set_grant (p d : address) (g : AccessGrant) (s : State) : State :=
  {| accessGrants := <[(p, d) := g]> (accessGrants s);
     patientDoctors := patientDoctors s;
     doctorPatients := doctorPatients s |}.
Definition push_patientDoctors (p d : address) (s : State) : State :=
  {| accessGrants := accessGrants s;
     patientDoctors := <[p := doctors_of s p ++ [d]]> (patientDoctors s);
     doctorPatients := doctorPatients s |}.
Definition push_doctorPatients (d p : address) (s : State) : State :=
  {| accessGrants := accessGrants s;
     patientDoctors := patientDoctors s;
     doctorPatients := <[d := patients_of s d ++ [p]]> (doctorPatients s) |}.
Definition set_isGranted (b : bool) (g : AccessGrant) : AccessGrant :=
  {| isGranted := b; grantedAt := grantedAt g; expiresAt := expiresAt g;
     exists_ := exists_ g |}.

Local Open Scope evm_scope.

Definition grantAccess (env : Env) (doctorAddress : address)
    (durationSeconds : uint256) : M State Event unit :=
  require (isPatient (identityContract env) (msg_sender env))
    "Only patients can grant access" >>
  require (isVerifiedDoctor (identityContract env) doctorAddress)
    "Target is not a verified doctor" >>
  let* expiresAt :=
    (if 0 <? durationSeconds
     then checked_add (block_timestamp env) durationSeconds
     else ret 0) in
  let* s := get in
  let isNewGrant := negb (exists_ (grant_of s (msg_sender env) doctorAddress)) in
  modify (set_grant (msg_sender env) doctorAddress
            {| isGranted := true; grantedAt := block_timestamp env;
               expiresAt := expiresAt; exists_ := true |}) >>
  (if isNewGrant
   then modify (push_patientDoctors (msg_sender env) doctorAddress) >>
        modify (push_doctorPatients doctorAddress (msg_sender env))
   else ret tt) >>
  emit (AccessGranted (msg_sender env) doctorAddress (block_timestamp env)
          expiresAt).

Definition revokeAccess (env : Env) (doctorAddress : address)
    : M State Event unit :=
  require (isPatient (identityContract env) (msg_sender env))
    "Only patients can revoke access" >>
  let* s := get in
  require (exists_ (grant_of s (msg_sender env) doctorAddress))
    "No access grant found" >>
  let* s := get in
  modify (set_grant (msg_sender env) doctorAddress
            (set_isGranted false (grant_of s (msg_sender env) doctorAddress))) >>
  emit (AccessRevoked (msg_sender env) doctorAddress (block_timestamp env)).

(** [view] functions. *)

Definition hasAccess (env : Env) (s : State)
    (patientAddress doctorAddress : address) : bool :=
  let grant := grant_of s patientAddress doctorAddress in
  if negb (exists_ grant) || negb (isGranted grant) then false
  else if (0 <? expiresAt grant) && (expiresAt grant <? block_timestamp env)
  then false
  else true.

Definition getAccessGrant (env : Env) (s : State)
    (patientAddress doctorAddress : address)
    : bool * uint256 * uint256 * bool :=
  let grant := grant_of s patientAddress doctorAddress in
  let expired :=
    (0 <? expiresAt grant) && (expiresAt grant <? block_timestamp env) in
  (isGranted grant && negb expired, grantedAt grant, expiresAt grant, expired).

Definition getPatientDoctors (s : State) (patientAddress : address)
    : list address := doctors_of s patientAddress.

Definition getDoctorPatients (s : State) (doctorAddress : address)
    : list address := patients_of s doctorAddress.

(** The loop body of [getActivePatientCount]; [activeCount] never exceeds
    the number of array elements already visited, itself a [uint256]. *)
Definition count_step (env : Env) (s : State) (doctorAddress : address)
    (activeCount : uint256) (patient : address) : uint256 :=
  let grant := grant_of s patient doctorAddress in
  if isGranted grant then
    if (expiresAt grant =? 0) || (block_timestamp env <=? expiresAt grant)
    then activeCount + 1
    else activeCount
  else activeCount.

Definition getActivePatientCount (env : Env) (s : State)
    (doctorAddress : address) : uint256 :=
  let patients := patients_of s doctorAddress in
  fold_left (count_step env s doctorAddress) patients 0.

End AccessControl.

(** ** MedicalRecordRegistry.sol *)

Module MedicalRecordRegistry.

Inductive RecordType : Type :=
| PRESCRIPTION
| LAB_REPORT
| DIAGNOSIS
| IMAGING
| PROCEDURE
| CONSULTATION
| FOLLOWUP.

Record RecordEntry : Type := {
  recordHash : bytes32;
  ipfsCid : string;
  patient : address;
  doctor : address;
  recordType : RecordType;
  isVisible : bool;
  createdAt : uint256;
  exists_ : bool
}.

(** The value of a mapping slot that was never written. *)
Definition zero_record : RecordEntry :=
  {| recordHash := 0; ipfsCid := String.EmptyString; patient := 0; doctor := 0;
     recordType := PRESCRIPTION; isVisible := false; createdAt := 0;
     exists_ := false |}.

Record State : Type := {
  records : gmap uint256 RecordEntry;
  recordCount : uint256;
  patientRecords : gmap address (list uint256);
  doctorRecords : gmap address (list uint256)
}.

Definition init : State :=
  {| records := ∅; recordCount := 0; patientRecords := ∅; doctorRecords := ∅ |}.

Inductive Event : Type :=
| RecordCreated (recordId : uint256) (patient doctor : address)
    (recordHash : bytes32) (ipfsCid : string) (recordType : RecordType)
    (timestamp : uint256)
| RecordVisibilityChanged (recordId : uint256) (patient : address)
    (isVisible : bool) (timestamp : uint256)
| RecordVerified (recordId : uint256) (verifier : address) (isValid : bool)
    (timestamp : uint256).

(** Storage reads. *)
Definition record_of (s : State) (recordId : uint256) : RecordEntry :=
  default zero_record (records s !! recordId).
Definition records_of_patient (s : State) (p : address) : list uint256 :=
  default [] (patientRecords s !! p).
Definition records_of_doctor (s : State) (d : address) : list uint256 :=
  default [] (doctorRecords s !! d).

(** Storage writes. *)
Definition set_record (recordId : uint256) (r : RecordEntry) (s : State)
    : State :=
  {| records := <[recordId := r]> (records s);
     recordCount := recordCount s;
     patientRecords := patientRecords s;
     doctorRecords := doctorRecords s |}.
Definition push_patientRecords (p : address) (recordId : uint256) (s : State)
    : State :=
  {| records := records s;
     recordCount := recordCount s;
     patientRecords := <[p := records_of_patient s p ++ [recordId]]> (patientRecords s);
     doctorRecords := doctorRecords s |}.
Definition push_doctorRecords (d : address) (recordId : uint256) (s : State)
    : State :=
  {| records := records s;
     recordCount := recordCount s;
     patientRecords := patientRecords s;
     doctorRecords := <[d := records_of_doctor s d ++ [recordId]]> (doctorRecords s) |}.
Definition set_recordCount (n : uint256) (s : State) : State :=
  {| records := records s;
     recordCount := n;
     patientRecords := patientRecords s;
     doctorRecords := doctorRecords s |}.
Definition set_isVisible (b : bool) (r : RecordEntry) : RecordEntry :=
  {| recordHash := recordHash r; ipfsCid := ipfsCid r; patient := patient r;
     doctor := doctor r; recordType := recordType r; isVisible := b;
     createdAt := createdAt r; exists_ := exists_ r |}.

Local Open Scope evm_scope.

Definition createRecord (env : Env) (patientAddress : address)
    (recordHash : bytes32) (ipfsCid : string) (recordType : RecordType)
    : M State Event uint256 :=
  require (isVerifiedDoctor (identityContract env) (msg_sender env))
    "Only verified doctors can create records" >>
  require (isPatient (identityContract env) patientAddress)
    "Patient not registered" >>
  let* s := get in
  let recordId := recordCount s in
  modify (set_record recordId
            {| recordHash := recordHash; ipfsCid := ipfsCid;
               patient := patientAddress; doctor := msg_sender env;
               recordType := recordType; isVisible := true;
               createdAt := block_timestamp env; exists_ := true |}) >>
  modify (push_patientRecords patientAddress recordId) >>
  modify (push_doctorRecords (msg_sender env) recordId) >>
  let* s := get in
  let* next := checked_add (recordCount s) 1 in
  modify (set_recordCount next) >>
  emit (RecordCreated recordId patientAddress (msg_sender env) recordHash
          ipfsCid recordType (block_timestamp env)) >>
  ret recordId.

Definition toggleVisibility (env : Env) (recordId : uint256)
    : M State Event unit :=
  let* s := get in
  require (exists_ (record_of s recordId)) "Record not found" >>
  require (patient (record_of s recordId) =? msg_sender env)
    "Only patient can toggle visibility" >>
  modify (set_record recordId
            (set_isVisible (negb (isVisible (record_of s recordId)))
               (record_of s recordId))) >>
  let* s := get in
  emit (RecordVisibilityChanged recordId (msg_sender env)
          (isVisible (record_of s recordId)) (block_timestamp env)).

(** [view] functions; the ones with a [require] return a [Result]. *)

Inductive Result (A : Type) : Type :=
| Ok (a : A)
| Err (e : Error).
Arguments Ok {A}.
Arguments Err {A}.

Definition verifyRecord (s : State) (recordId : uint256)
    (providedHash : bytes32) : Result bool :=
  if exists_ (record_of s recordId)
  then Ok (recordHash (record_of s recordId) =? providedHash)
  else Err (Revert "Record not found").

(** The tuple returned by [getRecord]. *)
Record RecordView : Type := {
  v_recordHash : bytes32;
  v_ipfsCid : string;
  v_patient : address;
  v_doctor : address;
  v_recordType : RecordType;
  v_isVisible : bool;
  v_createdAt : uint256
}.

Definition getRecord (env : Env) (s : State) (recordId : uint256)
    : Result RecordView :=
  if exists_ (record_of s recordId) then
    let record := record_of s recordId in
    if (patient record =? msg_sender env)
       || (doctor record =? msg_sender env)
       || isVisible record
    then Ok {| v_recordHash := recordHash record;
               v_ipfsCid := ipfsCid record;
               v_patient := patient record;
               v_doctor := doctor record;
               v_recordType := recordType record;
               v_isVisible := isVisible record;
               v_createdAt := createdAt record |}
    else Err (Revert "Access denied")
  else Err (Revert "Record not found").

Definition getPatientRecordIds (s : State) (patientAddress : address)
    : list uint256 := records_of_patient s patientAddress.

Definition getDoctorRecordIds (s : State) (doctorAddress : address)
    : list uint256 := records_of_doctor s doctorAddress.

(** First loop of [getVisiblePatientRecords]: count the visible records. *)
Definition count_visible (s : State) (allRecords : list uint256) : uint256 :=
  fold_left
    (λ visibleCount id,
       if isVisible (record_of s id) then visibleCount + 1 else visibleCount)
    allRecords 0.

(** Second loop: [visibleRecords[index] = allRecords[i]; index++], with
    the bounds check of a memory array write. *)
Definition fill_step (s : State) (acc : Result (list uint256 * uint256))
    (id : uint256) : Result (list uint256 * uint256) :=
  match acc with
  | Err e => Err e
  | Ok (visibleRecords, index) =>
      if isVisible (record_of s id) then
        if index <? N.of_nat (length visibleRecords)
        then Ok (<[N.to_nat index := id]> visibleRecords, index + 1)
        else Err (Panic PANIC_INDEX)
      else Ok (visibleRecords, index)
  end.

Definition getVisiblePatientRecords (s : State) (patientAddress : address)
    : Result (list uint256) :=
  let allRecords := records_of_patient s patientAddress in
  let visibleCount := count_visible s allRecords in
  let visibleRecords := replicate (N.to_nat visibleCount) 0 in
  match fold_left (fill_step s) allRecords (Ok (visibleRecords, 0)) with
  | Ok (visibleRecords, _) => Ok visibleRecords
  | Err e => Err e
  end.

Definition getTotalRecords (s : State) : uint256 := recordCount s.

End MedicalRecordRegistry.

(** ** The two contracts side by side *)

(** The record registry and the access-control contract are deployed next to
    each other and share nothing but the identity contract. [System] puts
    their storages together and dispatches the four state-changing calls. *)
Module System.

Record State : Type := {
  registry : MedicalRecordRegistry.State;
  access : AccessControl.State
}.

Definition init : State :=
  {| registry := MedicalRecordRegistry.init; access := AccessControl.init |}.

Inductive Event : Type :=
| RegistryEvent (e : MedicalRecordRegistry.Event)
| AccessEvent (e : AccessControl.Event).

Inductive Call : Type :=
| CreateRecord (patientAddress : address) (recordHash : bytes32)
    (ipfsCid : string) (recordType : MedicalRecordRegistry.RecordType)
| ToggleVisibility (recordId : uint256)
| GrantAccess (doctorAddress : address) (durationSeconds : uint256)
| RevokeAccess (doctorAddress : address).

(** A call to one contract runs on that contract's storage only. *)
Definition on_registry {A}
    (m : M MedicalRecordRegistry.State MedicalRecordRegistry.Event A)
    : M State Event A :=
  λ s, match m (registry s) with
       | Done a r l =>
           Done a {| registry := r; access := access s |} (RegistryEvent <$> l)
       | Abort e r => Abort e {| registry := r; access := access s |}
       end.

Definition on_access {A}
    (m : M AccessControl.State AccessControl.Event A) : M State Event A :=
  λ s, match m (access s) with
       | Done a c l =>
           Done a {| registry := registry s; access := c |} (AccessEvent <$> l)
       | Abort e c => Abort e {| registry := registry s; access := c |}
       end.

(** The value a call returns: the new id for [createRecord], nothing for
    the other three. *)
Definition dispatch (env : Env) (c : Call) : M State Event (option uint256) :=
  match c with
  | CreateRecord patientAddress recordHash ipfsCid recordType =>
      on_registry
        (bind (MedicalRecordRegistry.createRecord env patientAddress recordHash
                 ipfsCid recordType)
              (λ id, ret (Some id)))
  | ToggleVisibility recordId =>
      on_registry
        (bind (MedicalRecordRegistry.toggleVisibility env recordId)
              (λ _, ret None))
  | GrantAccess doctorAddress durationSeconds =>
      on_access
        (bind (AccessControl.grantAccess env doctorAddress durationSeconds)
              (λ _, ret None))
  | RevokeAccess doctorAddress =>
      on_access
        (bind (AccessControl.revokeAccess env doctorAddress) (λ _, ret None))
  end.

(** The storage after the transaction [c], whether it succeeded or not. *)
Definition step (env : Env) (c : Call) (s : State) : State :=
  snd (transact (dispatch env c) s).

(** The error of the transaction [c], when it fails. *)
Definition failure (env : Env) (c : Call) (s : State) : option Error :=
  match fst (transact (dispatch env c) s) with
  | Success _ _ => None
  | Failure e => Some e
  end.

(** States reachable from deployment by any calls, from any senders, at any
    times, whatever the identity contract answers at each call. *)
Inductive reachable : State → Prop :=
| reachable_init : reachable init
| reachable_step env c s : reachable s → reachable (step env c s).

(** The ids returned by the successful [createRecord] calls of a sequence of
    transactions, in the order of the calls. *)
Fixpoint created_ids (txs : list (Env * Call)) (s : State) : list uint256 :=
  match txs with
  | [] => []
  | (env, c) :: rest =>
      match transact (dispatch env c) s with
      | (Success (Some id) _, s') => id :: created_ids rest s'
      | (_, s') => created_ids rest s'
      end
  end.

Fixpoint run (txs : list (Env * Call)) (s : State) : State :=
  match txs with
  | [] => s
  | (env, c) :: rest => run rest (step env c s)
  end.

End System.

(** ** Statements of the specification *)

(** The derived property [active] of a grant:
    [granted && (expiresAt == 0 || now <= expiresAt)]. *)
Definition active (now : uint256) (g : AccessControl.AccessGrant) : bool :=
  AccessControl.isGranted g
  && ((AccessControl.expiresAt g =? 0) || (now <=? AccessControl.expiresAt g)).

(** The consistency of the access-control storage: the two reverse-index
    lists hold exactly the pairs that have a grant record, each once, and a
    slot holds either nothing or a record whose [exists] flag is set. *)
Record access_consistent (s : AccessControl.State) : Prop := {
  stored_exists : ∀ k g,
    AccessControl.accessGrants s !! k = Some g → AccessControl.exists_ g = true;
  doctors_indexed : ∀ p d,
    d ∈ AccessControl.doctors_of s p ↔
    AccessControl.exists_ (AccessControl.grant_of s p d) = true;
  patients_indexed : ∀ p d,
    p ∈ AccessControl.patients_of s d ↔
    AccessControl.exists_ (AccessControl.grant_of s p d) = true;
  doctors_nodup : ∀ p, NoDup (AccessControl.doctors_of s p);
  patients_nodup : ∀ d, NoDup (AccessControl.patients_of s d)
}.

(** Concrete parties for the examples: patient 1, verified doctors 2 and 3;
    nobody else is registered. *)
Definition demo_identity : Identity :=
  {| isPatient := λ a, a =? 1;
     isVerifiedDoctor := λ a, (a =? 2) || (a =? 3) |}.

Definition demo_env (sender : address) (now : uint256) : Env :=
  {| msg_sender := sender; block_timestamp := now;
     identityContract := demo_identity |}.

(** ** The effect of the access-control calls *)

Module AccessControlEffects.
Import AccessControl.

(** The storage written by a successful [grantAccess]. *)
Definition granted_state (p d : address) (now expires : uint256) (s : State)
    : State :=
  let s1 := set_grant p d
              {| isGranted := true; grantedAt := now; expiresAt := expires;
                 exists_ := true |} s in
  if exists_ (grant_of s p d) then s1
  else push_doctorPatients d p (push_patientDoctors p d s1).

(** The storage written by a successful [revokeAccess]. *)
Definition revoked_state (p d : address) (s : State) : State :=
  set_grant p d (set_isGranted false (grant_of s p d)) s.

End AccessControlEffects.

(** ** The effect of the registry calls *)

Module RegistryEffects.
Import MedicalRecordRegistry.

(** The record stored by [createRecord]. *)
Definition new_record (env : Env) (patientAddress : address)
    (recordHash : bytes32) (ipfsCid : string) (recordType : RecordType)
    : RecordEntry :=
  {| recordHash := recordHash; ipfsCid := ipfsCid; patient := patientAddress;
     doctor := msg_sender env; recordType := recordType; isVisible := true;
     createdAt := block_timestamp env; exists_ := true |}.

(** The storage once [createRecord] has stored the record and pushed its id
    on the two index lists, before it increments [recordCount]. *)
Definition written_state (env : Env) (patientAddress : address)
    (recordHash : bytes32) (ipfsCid : string) (recordType : RecordType)
    (s : State) : State :=
  push_doctorRecords (msg_sender env) (recordCount s)
    (push_patientRecords patientAddress (recordCount s)
       (set_record (recordCount s)
          (new_record env patientAddress recordHash ipfsCid recordType) s)).

(** The storage written by a successful [createRecord]. *)
Definition created_state (env : Env) (patientAddress : address)
    (recordHash : bytes32) (ipfsCid : string) (recordType : RecordType)
    (s : State) : State :=
  set_recordCount (recordCount s + 1)
    (written_state env patientAddress recordHash ipfsCid recordType s).

(** The storage written by a successful [toggleVisibility]. *)
Definition toggled_state (recordId : uint256) (s : State) : State :=
  set_record recordId
    (set_isVisible (negb (isVisible (record_of s recordId)))
       (record_of s recordId)) s.

(** The records that [getVisiblePatientRecords] is specified to return. *)
Definition visible_ids (s : State) (ids : list uint256) : list uint256 :=
  filter (λ id, isVisible (record_of s id) = true) ids.

(** A registry whose counter has reached the largest [uint256]. *)
Definition full_registry : State :=
  {| records := ∅; recordCount := MAX_UINT256; patientRecords := ∅;
     doctorRecords := ∅ |}.

End RegistryEffects.

(** ** HealthSecureIdentity.sol *)

Module HealthSecureIdentity.

Inductive Role : Type :=
| NONE
| PATIENT
| DOCTOR.

#[global] Instance Role_eq_dec : EqDecision Role.
Proof. solve_decision. Defined.

Record Identity : Type := {
  identityHash : bytes32;
  role : Role;
  profileCid : string;
  isVerified : bool;
  registeredAt : uint256;
  exists_ : bool
}.

(** The value of a mapping slot that was never written. *)
Definition zero_identity : Identity :=
  {| identityHash := 0; role := NONE; profileCid := String.EmptyString;
     isVerified := false; registeredAt := 0; exists_ := false |}.

(** [owner] is the storage variable of OpenZeppelin's [Ownable], which the
    contract inherits. *)
Record State : Type := {
  identities : gmap address Identity;
  hashToAddress : gmap bytes32 address;
  healthIdToAddress : gmap string address;
  doctorIdToAddress : gmap string address;
  owner : address
}.

(** [constructor() Ownable(msg.sender)]. *)
Definition init (deployer : address) : State :=
  {| identities := ∅; hashToAddress := ∅; healthIdToAddress := ∅;
     doctorIdToAddress := ∅; owner := deployer |}.

Inductive Event : Type :=
| IdentityRegistered (wallet : address) (identityHash : bytes32) (role : Role)
    (timestamp : uint256)
| ProfileUpdated (wallet : address) (newProfileCid : string)
| DoctorVerified (wallet : address) (timestamp : uint256)
| HealthIdLinked (wallet : address) (healthId : string)
| DoctorIdLinked (wallet : address) (doctorId : string).

(** Storage reads. *)
Definition identity_of (s : State) (wallet : address) : Identity :=
  default zero_identity (identities s !! wallet).
Definition hash_address (s : State) (h : bytes32) : address :=
  default 0 (hashToAddress s !! h).
Definition healthId_address (s : State) (healthId : string) : address :=
  default 0 (healthIdToAddress s !! healthId).
Definition doctorId_address (s : State) (doctorId : string) : address :=
  default 0 (doctorIdToAddress s !! doctorId).

(** Storage writes. *)
Definition set_identity (wallet : address) (i : Identity) (s : State) : State :=
  {| identities := <[wallet := i]> (identities s);
     hashToAddress := hashToAddress s;
     healthIdToAddress := healthIdToAddress s;
     doctorIdToAddress := doctorIdToAddress s;
     owner := owner s |}.
Definition set_hashToAddress (h : bytes32) (wallet : address) (s : State)
    : State :=
  {| identities := identities s;
     hashToAddress := <[h := wallet]> (hashToAddress s);
     healthIdToAddress := healthIdToAddress s;
     doctorIdToAddress := doctorIdToAddress s;
     owner := owner s |}.
Definition set_healthIdToAddress (healthId : string) (wallet : address)
    (s : State) : State :=
  {| identities := identities s;
     hashToAddress := hashToAddress s;
     healthIdToAddress := <[healthId := wallet]> (healthIdToAddress s);
     doctorIdToAddress := doctorIdToAddress s;
     owner := owner s |}.
Definition set_doctorIdToAddress (doctorId : string) (wallet : address)
    (s : State) : State :=
  {| identities := identities s;
     hashToAddress := hashToAddress s;
     healthIdToAddress := healthIdToAddress s;
     doctorIdToAddress := <[doctorId := wallet]> (doctorIdToAddress s);
     owner := owner s |}.
Definition set_owner (newOwner : address) (s : State) : State :=
  {| identities := identities s;
     hashToAddress := hashToAddress s;
     healthIdToAddress := healthIdToAddress s;
     doctorIdToAddress := doctorIdToAddress s;
     owner := newOwner |}.
Definition set_isVerified (b : bool) (i : Identity) : Identity :=
  {| identityHash := identityHash i; role := role i; profileCid := profileCid i;
     isVerified := b; registeredAt := registeredAt i; exists_ := exists_ i |}.
Definition set_profileCid (cid : string) (i : Identity) : Identity :=
  {| identityHash := identityHash i; role := role i; profileCid := cid;
     isVerified := isVerified i; registeredAt := registeredAt i;
     exists_ := exists_ i |}.

(** Modelled from the spec: the modifier [onlyOwner] comes from
    OpenZeppelin's [Ownable], a library that is imported and not part of the
    sources; it lets the call through for the owner alone ("callable only by
    the administrator") and fails for anyone else with the library's custom
    error, written here as a revert carrying the error's name. *)
Definition OWNABLE_UNAUTHORIZED : Error := Revert "OwnableUnauthorizedAccount".

Local Open Scope evm_scope.

Definition onlyOwner (env : Env) : M State Event unit :=
  let* s := get in
  if owner s =? msg_sender env then ret tt else fail OWNABLE_UNAUTHORIZED.

Definition registerPatient (env : Env) (identityHash : bytes32)
    (healthId profileCid : string) : M State Event unit :=
  let* s := get in
  require (negb (exists_ (identity_of s (msg_sender env))))
    "Identity already registered" >>
  require (hash_address s identityHash =? 0) "Identity hash already used" >>
  require (healthId_address s healthId =? 0) "Health ID already used" >>
  modify (set_identity (msg_sender env)
            {| identityHash := identityHash; role := PATIENT;
               profileCid := profileCid; isVerified := true;
               registeredAt := block_timestamp env; exists_ := true |}) >>
  modify (set_hashToAddress identityHash (msg_sender env)) >>
  modify (set_healthIdToAddress healthId (msg_sender env)) >>
  emit (IdentityRegistered (msg_sender env) identityHash PATIENT
          (block_timestamp env)) >>
  emit (HealthIdLinked (msg_sender env) healthId).

Definition registerDoctor (env : Env) (identityHash : bytes32)
    (doctorId profileCid : string) : M State Event unit :=
  let* s := get in
  require (negb (exists_ (identity_of s (msg_sender env))))
    "Identity already registered" >>
  require (hash_address s identityHash =? 0) "Identity hash already used" >>
  require (doctorId_address s doctorId =? 0) "Doctor ID already used" >>
  modify (set_identity (msg_sender env)
            {| identityHash := identityHash; role := DOCTOR;
               profileCid := profileCid; isVerified := false;
               registeredAt := block_timestamp env; exists_ := true |}) >>
  modify (set_hashToAddress identityHash (msg_sender env)) >>
  modify (set_doctorIdToAddress doctorId (msg_sender env)) >>
  emit (IdentityRegistered (msg_sender env) identityHash DOCTOR
          (block_timestamp env)) >>
  emit (DoctorIdLinked (msg_sender env) doctorId).

Definition verifyDoctor (env : Env) (doctorAddress : address)
    : M State Event unit :=
  onlyOwner env >>
  let* s := get in
  require (exists_ (identity_of s doctorAddress)) "Identity not found" >>
  require (bool_decide (role (identity_of s doctorAddress) = DOCTOR))
    "Not a doctor" >>
  require (negb (isVerified (identity_of s doctorAddress)))
    "Already verified" >>
  modify (set_identity doctorAddress
            (set_isVerified true (identity_of s doctorAddress))) >>
  emit (DoctorVerified doctorAddress (block_timestamp env)).

Definition updateProfile (env : Env) (newProfileCid : string)
    : M State Event unit :=
  let* s := get in
  require (exists_ (identity_of s (msg_sender env)))
    "Identity not registered" >>
  modify (set_identity (msg_sender env)
            (set_profileCid newProfileCid (identity_of s (msg_sender env)))) >>
  emit (ProfileUpdated (msg_sender env) newProfileCid).

(** [view] functions. *)

Inductive Result (A : Type) : Type :=
| Ok (a : A)
| Err (e : Error).
Arguments Ok {A}.
Arguments Err {A}.

(** The tuple returned by [getIdentity]. *)
Record IdentityView : Type := {
  v_identityHash : bytes32;
  v_role : Role;
  v_profileCid : string;
  v_isVerified : bool;
  v_registeredAt : uint256
}.

Definition getIdentity (s : State) (wallet : address) : Result IdentityView :=
  let identity := identity_of s wallet in
  if exists_ identity
  then Ok {| v_identityHash := identityHash identity;
             v_role := role identity;
             v_profileCid := profileCid identity;
             v_isVerified := isVerified identity;
             v_registeredAt := registeredAt identity |}
  else Err (Revert "Identity not found").

Definition isVerifiedDoctor (s : State) (wallet : address) : bool :=
  exists_ (identity_of s wallet)
  && bool_decide (role (identity_of s wallet) = DOCTOR)
  && isVerified (identity_of s wallet).

Definition isPatient (s : State) (wallet : address) : bool :=
  exists_ (identity_of s wallet)
  && bool_decide (role (identity_of s wallet) = PATIENT).

Definition getPatientByHealthId (s : State) (healthId : string) : address :=
  healthId_address s healthId.

Definition getDoctorByDoctorId (s : State) (doctorId : string) : address :=
  doctorId_address s doctorId.

(** The state-changing calls of the contract's own source. *)
Inductive Call : Type :=
| RegisterPatient (identityHash : bytes32) (healthId profileCid : string)
| RegisterDoctor (identityHash : bytes32) (doctorId profileCid : string)
| VerifyDoctor (doctorAddress : address)
| UpdateProfile (newProfileCid : string).

Definition dispatch (env : Env) (c : Call) : M State Event unit :=
  match c with
  | RegisterPatient identityHash healthId profileCid =>
      registerPatient env identityHash healthId profileCid
  | RegisterDoctor identityHash doctorId profileCid =>
      registerDoctor env identityHash doctorId profileCid
  | VerifyDoctor doctorAddress => verifyDoctor env doctorAddress
  | UpdateProfile newProfileCid => updateProfile env newProfileCid
  end.

Definition step (env : Env) (c : Call) (s : State) : State :=
  snd (transact (dispatch env c) s).

(** States reachable from a deployment by any calls. The functions that
    [Ownable] adds to the contract can hand the ownership over, or give it
    up; they are covered by letting [owner] change to any address. *)
Inductive reachable : State → Prop :=
| reachable_init deployer : reachable (init deployer)
| reachable_step env c s : reachable s → reachable (step env c s)
| reachable_owner newOwner s : reachable s → reachable (set_owner newOwner s).

End HealthSecureIdentity.

(** The answers the identity contract gives its clients in the state [s]. *)
Definition identity_view (s : HealthSecureIdentity.State) : Identity :=
  {| isPatient := HealthSecureIdentity.isPatient s;
     isVerifiedDoctor := HealthSecureIdentity.isVerifiedDoctor s |}.

(** ** The three contracts of a deployment *)

(** The deployment scripts create one identity contract and hand its address
    to the two others, so what the record registry and the access-control
    contract read through [identityContract] is the identity contract's
    current storage. *)
Module Deployment.

Record State : Type := {
  identity : HealthSecureIdentity.State;
  contracts : System.State
}.

Definition init (deployer : address) : State :=
  {| identity := HealthSecureIdentity.init deployer;
     contracts := System.init |}.

Definition env_at (sender : address) (now : uint256) (st : State) : Env :=
  {| msg_sender := sender; block_timestamp := now;
     identityContract := identity_view (identity st) |}.

Inductive Call : Type :=
| IdentityCall (c : HealthSecureIdentity.Call)
| ContractCall (c : System.Call).

Definition step (sender : address) (now : uint256) (c : Call) (st : State)
    : State :=
  match c with
  | IdentityCall c =>
      {| identity := HealthSecureIdentity.step (env_at sender now st) c
                       (identity st);
         contracts := contracts st |}
  | ContractCall c =>
      {| identity := identity st;
         contracts := System.step (env_at sender now st) c (contracts st) |}
  end.

Definition set_owner (newOwner : address) (st : State) : State :=
  {| identity := HealthSecureIdentity.set_owner newOwner (identity st);
     contracts := contracts st |}.

Inductive reachable : State → Prop :=
| reachable_init deployer : reachable (init deployer)
| reachable_step sender now c st :
    reachable st → reachable (step sender now c st)
| reachable_owner newOwner st : reachable st → reachable (set_owner newOwner st).

Fixpoint run (txs : list (address * uint256 * Call)) (st : State) : State :=
  match txs with
  | [] => st
  | (sender, now, c) :: rest => run rest (step sender now c st)
  end.

End Deployment.

(** ** Invariants of the three storages *)

(** The identity storage: a slot holds nothing or a registered identity with
    a role; patients are verified; the reverse lookups lead to the identity
    that registered the key, for every address but the zero address, which
    the contract uses for "not taken". *)
Record identity_consistent (s : HealthSecureIdentity.State) : Prop := {
  stored_identity_exists : ∀ a i,
    HealthSecureIdentity.identities s !! a = Some i →
    HealthSecureIdentity.exists_ i = true;
  registered_has_role : ∀ a,
    HealthSecureIdentity.exists_ (HealthSecureIdentity.identity_of s a) = true →
    HealthSecureIdentity.role (HealthSecureIdentity.identity_of s a)
    ≠ HealthSecureIdentity.NONE;
  patient_is_verified : ∀ a,
    HealthSecureIdentity.role (HealthSecureIdentity.identity_of s a)
    = HealthSecureIdentity.PATIENT →
    HealthSecureIdentity.isVerified (HealthSecureIdentity.identity_of s a) = true;
  hash_of_identity : ∀ a,
    a ≠ 0 →
    HealthSecureIdentity.exists_ (HealthSecureIdentity.identity_of s a) = true →
    HealthSecureIdentity.hash_address s
      (HealthSecureIdentity.identityHash (HealthSecureIdentity.identity_of s a))
    = a;
  identity_of_hash : ∀ h,
    HealthSecureIdentity.hash_address s h ≠ 0 →
    HealthSecureIdentity.exists_
      (HealthSecureIdentity.identity_of s (HealthSecureIdentity.hash_address s h))
    = true
    ∧ HealthSecureIdentity.identityHash
        (HealthSecureIdentity.identity_of s (HealthSecureIdentity.hash_address s h))
      = h;
  healthId_of_patient : ∀ healthId,
    HealthSecureIdentity.healthId_address s healthId ≠ 0 →
    HealthSecureIdentity.isPatient s
      (HealthSecureIdentity.healthId_address s healthId) = true;
  doctorId_of_doctor : ∀ doctorId,
    HealthSecureIdentity.doctorId_address s doctorId ≠ 0 →
    HealthSecureIdentity.exists_
      (HealthSecureIdentity.identity_of s
         (HealthSecureIdentity.doctorId_address s doctorId)) = true
    ∧ HealthSecureIdentity.role
        (HealthSecureIdentity.identity_of s
           (HealthSecureIdentity.doctorId_address s doctorId))
      = HealthSecureIdentity.DOCTOR
}.

(** The registry storage: the allocated ids are the ones below
    [recordCount], which stays a [uint256]; each index list holds, in
    increasing order, the ids of the records of its patient or author. *)
Record registry_consistent (s : MedicalRecordRegistry.State) : Prop := {
  stored_record_exists : ∀ id r,
    MedicalRecordRegistry.records s !! id = Some r →
    MedicalRecordRegistry.exists_ r = true;
  allocated_below_count : ∀ id,
    MedicalRecordRegistry.exists_ (MedicalRecordRegistry.record_of s id) = true
    ↔ id < MedicalRecordRegistry.recordCount s;
  count_in_range : MedicalRecordRegistry.recordCount s ≤ MAX_UINT256;
  patient_indexed : ∀ p id,
    id ∈ MedicalRecordRegistry.records_of_patient s p ↔
    MedicalRecordRegistry.exists_ (MedicalRecordRegistry.record_of s id) = true
    ∧ MedicalRecordRegistry.patient (MedicalRecordRegistry.record_of s id) = p;
  doctor_indexed : ∀ d id,
    id ∈ MedicalRecordRegistry.records_of_doctor s d ↔
    MedicalRecordRegistry.exists_ (MedicalRecordRegistry.record_of s id) = true
    ∧ MedicalRecordRegistry.doctor (MedicalRecordRegistry.record_of s id) = d;
  patient_index_sorted : ∀ p,
    StronglySorted N.lt (MedicalRecordRegistry.records_of_patient s p);
  doctor_index_sorted : ∀ d,
    StronglySorted N.lt (MedicalRecordRegistry.records_of_doctor s d)
}.

(** A record with everything but its visibility. *)
Definition same_content (r1 r2 : MedicalRecordRegistry.RecordEntry) : Prop :=
  MedicalRecordRegistry.recordHash r1 = MedicalRecordRegistry.recordHash r2
  ∧ MedicalRecordRegistry.ipfsCid r1 = MedicalRecordRegistry.ipfsCid r2
  ∧ MedicalRecordRegistry.patient r1 = MedicalRecordRegistry.patient r2
  ∧ MedicalRecordRegistry.doctor r1 = MedicalRecordRegistry.doctor r2
  ∧ MedicalRecordRegistry.recordType r1 = MedicalRecordRegistry.recordType r2
  ∧ MedicalRecordRegistry.createdAt r1 = MedicalRecordRegistry.createdAt r2
  ∧ MedicalRecordRegistry.exists_ r1 = MedicalRecordRegistry.exists_ r2.

(** The parties of every record and of every grant are registered with the
    identity contract in the roles the two clients asked for. *)
Record parties_registered (st : Deployment.State) : Prop := {
  record_parties : ∀ id,
    let r := MedicalRecordRegistry.record_of
               (System.registry (Deployment.contracts st)) id in
    MedicalRecordRegistry.exists_ r = true →
    HealthSecureIdentity.isVerifiedDoctor (Deployment.identity st)
      (MedicalRecordRegistry.doctor r) = true
    ∧ HealthSecureIdentity.isPatient (Deployment.identity st)
        (MedicalRecordRegistry.patient r) = true;
  grant_parties : ∀ p d,
    AccessControl.exists_
      (AccessControl.grant_of (System.access (Deployment.contracts st)) p d)
    = true →
    HealthSecureIdentity.isPatient (Deployment.identity st) p = true
    ∧ HealthSecureIdentity.isVerifiedDoctor (Deployment.identity st) d = true
}.

(** Parties for the examples on a deployment: owner 9, patient 1, doctors 2
    and 3 (3 is never verified). *)
Definition demo_registration : list (address * uint256 * Deployment.Call) :=
  [(1, 5, Deployment.IdentityCall
            (HealthSecureIdentity.RegisterPatient 11 "HID-0001" "QmP"));
   (2, 6, Deployment.IdentityCall
            (HealthSecureIdentity.RegisterDoctor 22 "DOC-0001" "QmD"));
   (3, 7, Deployment.IdentityCall
            (HealthSecureIdentity.RegisterDoctor 33 "DOC-0002" "QmE"));
   (9, 8, Deployment.IdentityCall (HealthSecureIdentity.VerifyDoctor 2))].

Definition demo_deployment : Deployment.State :=
  Deployment.run demo_registration (Deployment.init 9).

(** The same four registrations, on the identity contract alone. *)
Definition demo_identities : HealthSecureIdentity.State :=
  HealthSecureIdentity.step (demo_env 9 8) (HealthSecureIdentity.VerifyDoctor 2)
    (HealthSecureIdentity.step (demo_env 3 7)
       (HealthSecureIdentity.RegisterDoctor 33 "DOC-0002" "QmE")
       (HealthSecureIdentity.step (demo_env 2 6)
          (HealthSecureIdentity.RegisterDoctor 22 "DOC-0001" "QmD")
          (HealthSecureIdentity.step (demo_env 1 5)
             (HealthSecureIdentity.RegisterPatient 11 "HID-0001" "QmP")
             (HealthSecureIdentity.init 9)))).

(** ** The effect of the identity calls *)

Module IdentityEffects.
Import HealthSecureIdentity.

Definition patient_identity (env : Env) (identityHash : bytes32)
    (profileCid : string) : Identity :=
  {| identityHash := identityHash; role := PATIENT; profileCid := profileCid;
     isVerified := true; registeredAt := block_timestamp env; exists_ := true |}.

Definition doctor_identity (env : Env) (identityHash : bytes32)
    (profileCid : string) : Identity :=
  {| identityHash := identityHash; role := DOCTOR; profileCid := profileCid;
     isVerified := false; registeredAt := block_timestamp env; exists_ := true |}.

(** The storage written by a successful [registerPatient]. *)
Definition patient_registered (env : Env) (identityHash : bytes32)
    (healthId profileCid : string) (s : State) : State :=
  set_healthIdToAddress healthId (msg_sender env)
    (set_hashToAddress identityHash (msg_sender env)
       (set_identity (msg_sender env)
          (patient_identity env identityHash profileCid) s)).

(** The storage written by a successful [registerDoctor]. *)
Definition doctor_registered (env : Env) (identityHash : bytes32)
    (doctorId profileCid : string) (s : State) : State :=
  set_doctorIdToAddress doctorId (msg_sender env)
    (set_hashToAddress identityHash (msg_sender env)
       (set_identity (msg_sender env)
          (doctor_identity env identityHash profileCid) s)).

(** The storage written by a successful [verifyDoctor]. *)
Definition doctor_verified (doctorAddress : address) (s : State) : State :=
  set_identity doctorAddress
    (set_isVerified true (identity_of s doctorAddress)) s.

(** The storage written by a successful [updateProfile]. *)
Definition profile_updated (wallet : address) (newProfileCid : string)
    (s : State) : State :=
  set_identity wallet (set_profileCid newProfileCid (identity_of s wallet)) s.

(** What no call changes in a registered identity: everything but the
    profile, and the verification once it is given. *)
Definition identity_kept (i1 i2 : Identity) : Prop :=
  identityHash i2 = identityHash i1
  ∧ role i2 = role i1
  ∧ registeredAt i2 = registeredAt i1
  ∧ exists_ i2 = exists_ i1
  ∧ (isVerified i1 = true → isVerified i2 = true).

(** A transaction leaves the identity storage as it was, or writes it as one
    of the four functions does; each of them has passed its checks. *)
Inductive written (env : Env) (s : State) : State → Prop :=
| written_nothing : written env s s
| written_patient h hid cid :
    exists_ (identity_of s (msg_sender env)) = false →
    hash_address s h = 0 → healthId_address s hid = 0 →
    written env s (patient_registered env h hid cid s)
| written_doctor h did cid :
    exists_ (identity_of s (msg_sender env)) = false →
    hash_address s h = 0 → doctorId_address s did = 0 →
    written env s (doctor_registered env h did cid s)
| written_verified d :
    owner s = msg_sender env →
    exists_ (identity_of s d) = true →
    role (identity_of s d) = DOCTOR →
    isVerified (identity_of s d) = false →
    written env s (doctor_verified d s)
| written_profile cid :
    exists_ (identity_of s (msg_sender env)) = true →
    written env s (profile_updated (msg_sender env) cid s).

(** A sequence of transactions on the identity contract. *)
Fixpoint run (txs : list (Env * Call)) (s : State) : State :=
  match txs with
  | [] => s
  | (env, c) :: rest => run rest (step env c s)
  end.

End IdentityEffects.

(** Every grant either never expires or expires after it was given, at a
    time that is a [uint256]. *)
Definition grants_timed (s : AccessControl.State) : Prop :=
  ∀ p d,
    let g := AccessControl.grant_of s p d in
    AccessControl.expiresAt g = 0
    ∨ (AccessControl.grantedAt g < AccessControl.expiresAt g
       ∧ AccessControl.expiresAt g ≤ MAX_UINT256).

(** * Properties *)

(** ** Access control *)

Module AccessControlFacts.
Import AccessControl AccessControlEffects.

(** [grantAccess], one branch at a time. *)
Lemma grantAccess_run env d n s :
  grantAccess env d n s =
  let p := msg_sender env in
  let now := block_timestamp env in
  if isPatient (identityContract env) p then
    if isVerifiedDoctor (identityContract env) d then
      if 0 <? n then
        if now + n <=? MAX_UINT256
        then Done tt (granted_state p d now (now + n) s)
               [AccessGranted p d now (now + n)]
        else Abort (Panic PANIC_ARITHMETIC) s
      else Done tt (granted_state p d now 0 s) [AccessGranted p d now 0]
    else Abort (Revert "Target is not a verified doctor") s
  else Abort (Revert "Only patients can grant access") s.
Proof.
  unfold grantAccess, granted_state, bind, require, checked_add, ret, fail,
    get, modify, emit; cbn.
  destruct (isPatient _ _); cbn; [|done].
  destruct (isVerifiedDoctor _ _); cbn; [|done].
  destruct (0 <? n); cbn.
  - destruct (_ <=? _); cbn; [|done].
    destruct (exists_ _); reflexivity.
  - destruct (exists_ _); reflexivity.
Qed.

(** [revokeAccess], one branch at a time. *)
Lemma revokeAccess_run env d s :
  revokeAccess env d s =
  let p := msg_sender env in
  if isPatient (identityContract env) p then
    if exists_ (grant_of s p d)
    then Done tt (revoked_state p d s)
           [AccessRevoked p d (block_timestamp env)]
    else Abort (Revert "No access grant found") s
  else Abort (Revert "Only patients can revoke access") s.
Proof.
  unfold revokeAccess, revoked_state, bind, require, ret, fail, get, modify,
    emit; cbn.
  destruct (isPatient _ _); cbn; [|done].
  destruct (exists_ _); reflexivity.
Qed.

(** Reading the storage after the writes of the two calls. *)
Lemma grant_of_set_grant p d g s p' d' :
  grant_of (set_grant p d g s) p' d' =
  if decide ((p, d) = (p', d')) then g else grant_of s p' d'.
Proof.
  unfold grant_of, set_grant; cbn. rewrite lookup_insert.
  by case_decide.
Qed.

Lemma doctors_of_push p d s p' :
  doctors_of (push_patientDoctors p d s) p' =
  if decide (p = p') then doctors_of s p ++ [d] else doctors_of s p'.
Proof.
  unfold doctors_of at 1, push_patientDoctors; cbn. rewrite lookup_insert.
  by case_decide.
Qed.

Lemma patients_of_push d p s d' :
  patients_of (push_doctorPatients d p s) d' =
  if decide (d = d') then patients_of s d ++ [p] else patients_of s d'.
Proof.
  unfold patients_of at 1, push_doctorPatients; cbn. rewrite lookup_insert.
  by case_decide.
Qed.

Lemma grant_of_granted_state p d now e s p' d' :
  grant_of (granted_state p d now e s) p' d' =
  if decide ((p, d) = (p', d'))
  then {| isGranted := true; grantedAt := now; expiresAt := e; exists_ := true |}
  else grant_of s p' d'.
Proof.
  unfold granted_state. destruct (exists_ (grant_of s p d)).
  - apply grant_of_set_grant.
  - rewrite <- (grant_of_set_grant p d _ s p' d'). reflexivity.
Qed.

Lemma doctors_of_granted_state p d now e s p' :
  doctors_of (granted_state p d now e s) p' =
  if decide (p = p' ∧ exists_ (grant_of s p d) = false)
  then doctors_of s p ++ [d] else doctors_of s p'.
Proof.
  unfold granted_state. destruct (exists_ (grant_of s p d)).
  - case_decide as H; [by destruct H|reflexivity].
  - unfold doctors_of at 1; cbn. rewrite lookup_insert.
    repeat case_decide; first [reflexivity | exfalso; tauto | congruence].
Qed.

Lemma patients_of_granted_state p d now e s d' :
  patients_of (granted_state p d now e s) d' =
  if decide (d = d' ∧ exists_ (grant_of s p d) = false)
  then patients_of s d ++ [p] else patients_of s d'.
Proof.
  unfold granted_state. destruct (exists_ (grant_of s p d)).
  - case_decide as H; [by destruct H|reflexivity].
  - unfold patients_of at 1; cbn. rewrite lookup_insert.
    repeat case_decide; first [reflexivity | exfalso; tauto | congruence].
Qed.

Lemma grant_of_revoked_state p d s p' d' :
  grant_of (revoked_state p d s) p' d' =
  if decide ((p, d) = (p', d')) then set_isGranted false (grant_of s p d)
  else grant_of s p' d'.
Proof. apply grant_of_set_grant. Qed.

(** *** The consistency of the storage is an invariant *)

Lemma init_consistent : access_consistent init.
Proof.
  split; unfold doctors_of, patients_of, grant_of; cbn; intros.
  - by rewrite lookup_empty in H.
  - rewrite !lookup_empty; cbn. split; [by intros ?%elem_of_nil|done].
  - rewrite !lookup_empty; cbn. split; [by intros ?%elem_of_nil|done].
  - rewrite lookup_empty. constructor.
  - rewrite lookup_empty. constructor.
Qed.

Lemma granted_state_consistent p d now e s :
  access_consistent s → access_consistent (granted_state p d now e s).
Proof.
  intros [Hst Hdi Hpi Hdn Hpn]. split.
  - intros k g. unfold granted_state.
    assert (<[(p, d) := {| isGranted := true; grantedAt := now; expiresAt := e;
                           exists_ := true |}]> (accessGrants s) !! k = Some g
            → exists_ g = true) as Hins.
    { rewrite lookup_insert. case_decide; [by intros [= <-]|apply Hst]. }
    destruct (exists_ (grant_of s p d)); exact Hins.
  - intros p' d'. rewrite grant_of_granted_state, doctors_of_granted_state.
    destruct (decide ((p, d) = (p', d'))) as [[= <- <-]|Hne]; cbn.
    + case_decide as Hc.
      * split; [done|]. intros _. apply elem_of_app. right. by left.
      * split; [done|]. intros _. apply Hdi.
        destruct (exists_ (grant_of s p d)); [done|]. exfalso. by apply Hc.
    + rewrite <- Hdi. case_decide as Hc; [|done].
      destruct Hc as [<- Hc]. rewrite elem_of_app, list_elem_of_singleton.
      split; [|by left]. intros [?| ->]; [done|congruence].
  - intros p' d'. rewrite grant_of_granted_state, patients_of_granted_state.
    destruct (decide ((p, d) = (p', d'))) as [[= <- <-]|Hne]; cbn.
    + case_decide as Hc.
      * split; [done|]. intros _. apply elem_of_app. right. by left.
      * split; [done|]. intros _. apply Hpi.
        destruct (exists_ (grant_of s p d)); [done|]. exfalso. by apply Hc.
    + rewrite <- Hpi. case_decide as Hc; [|done].
      destruct Hc as [<- Hc]. rewrite elem_of_app, list_elem_of_singleton.
      split; [|by left]. intros [?| ->]; [done|congruence].
  - intros p'. rewrite doctors_of_granted_state.
    case_decide as Hc; [|apply Hdn]. destruct Hc as [_ Hc].
    apply NoDup_app. split; [apply Hdn|]. split; [|apply NoDup_singleton].
    intros x Hx ->%list_elem_of_singleton. apply Hdi in Hx. congruence.
  - intros d'. rewrite patients_of_granted_state.
    case_decide as Hc; [|apply Hpn]. destruct Hc as [_ Hc].
    apply NoDup_app. split; [apply Hpn|]. split; [|apply NoDup_singleton].
    intros x Hx ->%list_elem_of_singleton. apply Hpi in Hx. congruence.
Qed.

Lemma revoked_state_consistent p d s :
  exists_ (grant_of s p d) = true →
  access_consistent s → access_consistent (revoked_state p d s).
Proof.
  intros Hex [Hst Hdi Hpi Hdn Hpn]. split.
  - intros k g. unfold revoked_state, set_grant; cbn. rewrite lookup_insert.
    case_decide; [by intros [= <-]|apply Hst].
  - intros p' d'. rewrite grant_of_revoked_state.
    case_decide as Hc; [|apply Hdi]. injection Hc as <- <-. cbn.
    rewrite Hex. split; [done|]. intros _. by apply Hdi.
  - intros p' d'. rewrite grant_of_revoked_state.
    case_decide as Hc; [|apply Hpi]. injection Hc as <- <-. cbn.
    rewrite Hex. split; [done|]. intros _. by apply Hpi.
  - exact Hdn.
  - exact Hpn.
Qed.

(** A transaction leaves the access-control storage as it was, or writes it
    as [grantAccess] or [revokeAccess] do. *)
Lemma step_access env c s :
  let a := System.access s in
  let a' := System.access (System.step env c s) in
  a' = a
  ∨ (∃ d now e, a' = granted_state (msg_sender env) d now e a)
  ∨ (∃ d, exists_ (grant_of a (msg_sender env) d) = true
          ∧ a' = revoked_state (msg_sender env) d a).
Proof.
  destruct c; cbn; unfold System.step, transact, System.dispatch,
    System.on_registry, System.on_access, bind.
  - destruct (MedicalRecordRegistry.createRecord _ _ _ _ _ _); by left.
  - destruct (MedicalRecordRegistry.toggleVisibility _ _ _); by left.
  - rewrite grantAccess_run; cbn.
    destruct (isPatient _ _); [|by left].
    destruct (isVerifiedDoctor _ _); [|by left].
    destruct (0 <? _); [destruct (_ <=? _); [|by left]|];
      right; left; eauto.
  - rewrite revokeAccess_run; cbn.
    destruct (isPatient _ _); [|by left].
    destruct (exists_ _) eqn:Hex; [|by left].
    right; right; eauto.
Qed.

Lemma reachable_consistent s :
  System.reachable s → access_consistent (System.access s).
Proof.
  induction 1 as [|env c s _ IH]; [apply init_consistent|].
  destruct (step_access env c s) as [->|[(d & now & e & ->)|(d & Hex & ->)]].
  - exact IH.
  - by apply granted_state_consistent.
  - by apply revoked_state_consistent.
Qed.

(** *** Reading a grant *)

Lemma not_expired_iff (now e : uint256) :
  negb ((0 <? e) && (e <? now)) = (e =? 0) || (now <=? e).
Proof.
  destruct (N.ltb_spec 0 e), (N.ltb_spec e now), (N.eqb_spec e 0),
    (N.leb_spec now e); cbn; try reflexivity; lia.
Qed.

Lemma hasAccess_active env s p d :
  hasAccess env s p d =
  exists_ (grant_of s p d) && active (block_timestamp env) (grant_of s p d).
Proof.
  unfold hasAccess, active. rewrite <- not_expired_iff.
  destruct (exists_ _), (isGranted _); cbn; reflexivity.
Qed.

Lemma grant_of_None s p d :
  accessGrants s !! (p, d) = None → grant_of s p d = zero_grant.
Proof. unfold grant_of. by intros ->. Qed.

Lemma grant_of_exists s p d :
  exists_ (grant_of s p d) = true →
  accessGrants s !! (p, d) = Some (grant_of s p d).
Proof.
  unfold grant_of. by destruct (accessGrants s !! (p, d)).
Qed.

Lemma consistent_no_record s p d :
  access_consistent s → exists_ (grant_of s p d) = false →
  grant_of s p d = zero_grant.
Proof.
  intros Hc. unfold grant_of.
  destruct (accessGrants s !! (p, d)) as [g|] eqn:Hg; [|done].
  apply (stored_exists s Hc) in Hg. cbn. congruence.
Qed.

(** C1. [hasAccess(p, d)] is false when no grant record exists for the
    pair, false when the stored [isGranted] flag is false, false when
    [expiresAt > 0] and [now > expiresAt], and true otherwise; at
    [now = expiresAt] the grant is still active. The function reads the
    storage only: on one and the same storage it answers true up to
    [expiresAt] and false after it. *)
Theorem hasAccess_spec (env later : Env) (s : State) (p d : address) :
  let g := grant_of s p d in
  let now := block_timestamp env in
  (accessGrants s !! (p, d) = None → hasAccess env s p d = false)
  ∧ (exists_ g = false → hasAccess env s p d = false)
  ∧ (isGranted g = false → hasAccess env s p d = false)
  ∧ (0 < expiresAt g → expiresAt g < now → hasAccess env s p d = false)
  ∧ (exists_ g = true → isGranted g = true →
     ¬ (0 < expiresAt g ∧ expiresAt g < now) → hasAccess env s p d = true)
  ∧ (exists_ g = true → isGranted g = true → now = expiresAt g →
     hasAccess env s p d = true)
  ∧ (hasAccess env s p d = true → 0 < expiresAt g →
     expiresAt g < block_timestamp later → hasAccess later s p d = false).
Proof.
  cbn. unfold hasAccess.
  repeat apply conj.
  - intros H. by rewrite (grant_of_None _ _ _ H).
  - by intros ->.
  - intros ->. by rewrite orb_true_r.
  - intros H0 H1. destruct (_ || _); [done|].
    apply N.ltb_lt in H0, H1. by rewrite H0, H1.
  - intros -> -> H. cbn.
    destruct (N.ltb_spec 0 (expiresAt (grant_of s p d))),
      (N.ltb_spec (expiresAt (grant_of s p d)) (block_timestamp env));
      cbn; try reflexivity. exfalso. by apply H.
  - intros -> -> ->. cbn. rewrite N.ltb_irrefl. by rewrite andb_false_r.
  - intros H H0 H1. destruct (_ || _); [done|].
    apply N.ltb_lt in H0, H1. by rewrite H0, H1.
Qed.

Lemma hasAccess_spec_witness :
  let s := System.access
             (System.run [(demo_env 1 100, System.GrantAccess 2 3600)]
                System.init) in
  expiresAt (grant_of s 1 2) = 3700
  ∧ hasAccess (demo_env 2 3700) s 1 2 = true
  ∧ hasAccess (demo_env 2 3701) s 1 2 = false
  ∧ hasAccess (demo_env 2 3700) s 1 3 = false.
Proof.
  cbn zeta.
  destruct (hasAccess_spec (demo_env 2 3700) (demo_env 2 3701)
              (System.access
                 (System.run [(demo_env 1 100, System.GrantAccess 2 3600)]
                    System.init)) 1 2)
    as (_ & _ & _ & _ & _ & Hat & Hlater).
  destruct (hasAccess_spec (demo_env 2 3700) (demo_env 2 3701)
              (System.access
                 (System.run [(demo_env 1 100, System.GrantAccess 2 3600)]
                    System.init)) 1 3)
    as (Hnone & _).
  split; [reflexivity|].
  assert (hasAccess (demo_env 2 3700)
            (System.access
               (System.run [(demo_env 1 100, System.GrantAccess 2 3600)]
                  System.init)) 1 2 = true) as Htrue
    by (apply Hat; reflexivity).
  split; [exact Htrue|]. split.
  - apply Hlater; [exact Htrue|reflexivity|reflexivity].
  - apply Hnone. reflexivity.
Defined.

(** C10. For a pair without a grant record [getAccessGrant] returns
    (false, 0, 0, false); its last component is computed from the stored
    [expiresAt] and the current time alone, so a revoked grant that has not
    expired is reported as neither granted nor expired. *)
Theorem getAccessGrant_spec (env env' : Env) (sys : System.State)
    (s s' : State) (p d p' d' : address) :
  let now := block_timestamp env in
  (accessGrants s !! (p, d) = None →
   getAccessGrant env s p d = (false, 0, 0, false))
  ∧ (System.reachable sys →
     exists_ (grant_of (System.access sys) p d) = false →
     getAccessGrant env (System.access sys) p d = (false, 0, 0, false))
  ∧ (expiresAt (grant_of s p d) = expiresAt (grant_of s' p' d') →
     block_timestamp env = block_timestamp env' →
     (getAccessGrant env s p d).2 = (getAccessGrant env' s' p' d').2)
  ∧ (isGranted (grant_of s p d) = false →
     ¬ (0 < expiresAt (grant_of s p d) ∧ expiresAt (grant_of s p d) < now) →
     getAccessGrant env s p d =
     (false, grantedAt (grant_of s p d), expiresAt (grant_of s p d), false)).
Proof.
  cbn. unfold getAccessGrant. repeat apply conj.
  - intros H. by rewrite (grant_of_None _ _ _ H).
  - intros Hr Hex.
    by rewrite (consistent_no_record _ _ _ (reachable_consistent _ Hr) Hex).
  - cbn. by intros -> ->.
  - intros -> H. cbn.
    destruct (N.ltb_spec 0 (expiresAt (grant_of s p d))),
      (N.ltb_spec (expiresAt (grant_of s p d)) (block_timestamp env));
      cbn; try reflexivity. exfalso. by apply H.
Qed.

Lemma getAccessGrant_spec_witness :
  let s := System.access
             (System.run [(demo_env 1 100, System.GrantAccess 2 3600);
                          (demo_env 1 200, System.RevokeAccess 2)]
                System.init) in
  getAccessGrant (demo_env 2 300) init 1 2 = (false, 0, 0, false)
  ∧ getAccessGrant (demo_env 2 300) s 1 2 = (false, 100, 3700, false).
Proof.
  cbn zeta.
  destruct (getAccessGrant_spec (demo_env 2 300) (demo_env 2 300) System.init
              init init 1 2 1 2) as (Hnone & _).
  destruct (getAccessGrant_spec (demo_env 2 300) (demo_env 2 300) System.init
              (System.access
                 (System.run [(demo_env 1 100, System.GrantAccess 2 3600);
                              (demo_env 1 200, System.RevokeAccess 2)]
                    System.init))
              init 1 2 1 2) as (_ & _ & _ & Hrevoked).
  split.
  - apply Hnone. reflexivity.
  - apply Hrevoked; [reflexivity|]. vm_compute. intros [_ H]. discriminate H.
Defined.

(** *** Granting *)

(** C3, as amended. When a registered patient [p] grants a verified doctor
    [d] access for [n] seconds and [now + n] fits in a [uint256], the call
    succeeds and writes the record [(true, now, now + n, true)] (with
    [expiresAt = 0] when [n = 0]) for the pair; when the pair had no record
    [d] is appended once to [p]'s doctor list and [p] once to [d]'s patient
    list, and when it had one (granted or revoked) both lists stay as they
    were; nothing else changes. When [now + n] does not fit, the call fails
    on the checked addition and records nothing. In every reachable state no
    list holds an address twice. *)
Theorem grantAccess_spec (env : Env) (d : address) (n : uint256)
    (sys : System.State) :
  let p := msg_sender env in
  let now := block_timestamp env in
  let s := System.access sys in
  let e := if 0 <? n then now + n else 0 in
  (isPatient (identityContract env) p = true →
   isVerifiedDoctor (identityContract env) d = true →
   (0 < n → now + n ≤ MAX_UINT256) →
   ∃ s', transact (grantAccess env d n) s
         = (Success tt [AccessGranted p d now e], s')
     ∧ grant_of s' p d
       = {| isGranted := true; grantedAt := now; expiresAt := e;
            exists_ := true |}
     ∧ (∀ p' d', (p', d') ≠ (p, d) → grant_of s' p' d' = grant_of s p' d')
     ∧ (exists_ (grant_of s p d) = false →
        getPatientDoctors s' p = getPatientDoctors s p ++ [d]
        ∧ getDoctorPatients s' d = getDoctorPatients s d ++ [p])
     ∧ (exists_ (grant_of s p d) = true →
        getPatientDoctors s' p = getPatientDoctors s p
        ∧ getDoctorPatients s' d = getDoctorPatients s d)
     ∧ (∀ p', p' ≠ p → getPatientDoctors s' p' = getPatientDoctors s p')
     ∧ (∀ d', d' ≠ d → getDoctorPatients s' d' = getDoctorPatients s d'))
  ∧ (isPatient (identityContract env) p = true →
     isVerifiedDoctor (identityContract env) d = true →
     0 < n → MAX_UINT256 < now + n →
     transact (grantAccess env d n) s = (Failure (Panic PANIC_ARITHMETIC), s))
  ∧ (System.reachable sys →
     ∀ p' d', NoDup (getPatientDoctors s p') ∧ NoDup (getDoctorPatients s d')).
Proof.
  cbn. repeat apply conj.
  - intros Hp Hd Hn.
    exists (granted_state (msg_sender env) d (block_timestamp env)
              (if 0 <? n then block_timestamp env + n else 0)
              (System.access sys)).
    unfold getPatientDoctors, getDoctorPatients.
    repeat apply conj.
    + unfold transact. rewrite grantAccess_run; cbn. rewrite Hp, Hd.
      destruct (N.ltb_spec 0 n) as [Hlt|]; [|done].
      apply Hn, N.leb_le in Hlt. by rewrite Hlt.
    + rewrite grant_of_granted_state. by rewrite decide_True.
    + intros p' d' Hne. rewrite grant_of_granted_state.
      by rewrite decide_False.
    + intros Hex. rewrite doctors_of_granted_state, patients_of_granted_state.
      by rewrite !decide_True.
    + intros Hex. rewrite doctors_of_granted_state, patients_of_granted_state.
      rewrite !decide_False; [done|intros [_ ?]; congruence..].
    + intros p' Hne. rewrite doctors_of_granted_state.
      rewrite decide_False; [done|]. intros [? _]. congruence.
    + intros d' Hne. rewrite patients_of_granted_state.
      rewrite decide_False; [done|]. intros [? _]. congruence.
  - intros Hp Hd Hn Hover. unfold transact. rewrite grantAccess_run; cbn.
    rewrite Hp, Hd.
    destruct (N.ltb_spec 0 n); [|lia].
    by destruct (N.leb_spec (block_timestamp env + n) MAX_UINT256); [lia|].
  - intros Hr%reachable_consistent p' d'. split.
    + apply (doctors_nodup _ Hr).
    + apply (patients_nodup _ Hr).
Qed.

Lemma grantAccess_spec_witness :
  isPatient demo_identity 1 = true
  ∧ isVerifiedDoctor demo_identity 2 = true
  ∧ ∃ s', transact (grantAccess (demo_env 1 100) 2 3600) init
          = (Success tt [AccessGranted 1 2 100 3700], s')
      ∧ getPatientDoctors s' 1 = [2]
      ∧ getDoctorPatients s' 2 = [1].
Proof.
  split; [reflexivity|]. split; [reflexivity|].
  destruct (grantAccess_spec (demo_env 1 100) 2 3600 System.init)
    as [Hgrant _].
  destruct Hgrant as (s' & Ht & _ & _ & Hnew & _); [reflexivity|reflexivity| |].
  - intros _. vm_compute. discriminate.
  - exists s'. split; [exact Ht|]. apply Hnew. reflexivity.
Defined.

(** C3 as stated, for every duration: a duration that takes [now + n] past
    [2^256 - 1] makes the call fail, and no grant is recorded. *)
Lemma grantAccess_overflow_counterexample :
  isPatient demo_identity 1 = true
  ∧ isVerifiedDoctor demo_identity 2 = true
  ∧ transact (grantAccess (demo_env 1 1) 2 MAX_UINT256) init
    = (Failure (Panic PANIC_ARITHMETIC), init)
  ∧ isGranted
      (grant_of (snd (transact (grantAccess (demo_env 1 1) 2 MAX_UINT256) init))
         1 2) = false.
Proof. repeat apply conj; reflexivity. Qed.

(** *** Revoking *)

Lemma revoked_state_idem p d s :
  exists_ (grant_of s p d) = true → isGranted (grant_of s p d) = false →
  revoked_state p d s = s.
Proof.
  intros Hex Hg. unfold revoked_state, set_grant.
  rewrite insert_id; [by destruct s|].
  rewrite (grant_of_exists _ _ _ Hex). f_equal.
  destruct (grant_of s p d); cbn in *. by subst.
Qed.

(** C5. For a patient caller [p], [revokeAccess(d)] fails with
    "No access grant found" exactly when the pair has no grant record.
    When it has one, revoked or not, the call succeeds and clears
    [isGranted], leaving [grantedAt], [expiresAt], the [exists] flag, both
    index lists and every other grant as they were; revoking a grant that is
    already revoked changes nothing at all, and in a reachable state the
    pair is still in both lists afterwards. *)
Theorem revokeAccess_spec (env : Env) (d : address) (sys : System.State) :
  let p := msg_sender env in
  let s := System.access sys in
  let g := grant_of s p d in
  isPatient (identityContract env) p = true →
  (fst (transact (revokeAccess env d) s)
   = Failure (Revert "No access grant found") ↔ exists_ g = false)
  ∧ (exists_ g = false →
     transact (revokeAccess env d) s
     = (Failure (Revert "No access grant found"), s))
  ∧ (exists_ g = true →
     ∃ s', transact (revokeAccess env d) s
           = (Success tt [AccessRevoked p d (block_timestamp env)], s')
       ∧ grant_of s' p d
         = {| isGranted := false; grantedAt := grantedAt g;
              expiresAt := expiresAt g; exists_ := true |}
       ∧ (∀ p' d', (p', d') ≠ (p, d) → grant_of s' p' d' = grant_of s p' d')
       ∧ patientDoctors s' = patientDoctors s
       ∧ doctorPatients s' = doctorPatients s
       ∧ (isGranted g = false → s' = s)
       ∧ transact (revokeAccess env d) s'
         = (Success tt [AccessRevoked p d (block_timestamp env)], s')
       ∧ (System.reachable sys →
          d ∈ getPatientDoctors s' p ∧ p ∈ getDoctorPatients s' d)).
Proof.
  cbn. intros Hp. unfold transact. rewrite revokeAccess_run; cbn. rewrite Hp.
  destruct (exists_ (grant_of (System.access sys) (msg_sender env) d))
    eqn:Hex; cbn.
  - split; [split; discriminate|]. split; [discriminate|]. intros _.
    exists (revoked_state (msg_sender env) d (System.access sys)).
    assert (grant_of (revoked_state (msg_sender env) d (System.access sys))
              (msg_sender env) d
            = {| isGranted := false;
                 grantedAt := grantedAt (grant_of (System.access sys) (msg_sender env) d);
                 expiresAt := expiresAt (grant_of (System.access sys) (msg_sender env) d);
                 exists_ := true |}) as Hg.
    { rewrite grant_of_revoked_state, decide_True by done.
      unfold set_isGranted. by rewrite Hex. }
    repeat apply conj; try reflexivity.
    + exact Hg.
    + intros p' d' Hne. rewrite grant_of_revoked_state.
      by rewrite decide_False.
    + intros Hgr. by apply revoked_state_idem.
    + rewrite revokeAccess_run; cbn. rewrite Hp, Hg; cbn.
      rewrite revoked_state_idem; [done| |]; by rewrite Hg.
    + intros Hr%reachable_consistent.
      unfold getPatientDoctors, getDoctorPatients.
      split.
      * by apply (doctors_indexed _ Hr).
      * by apply (patients_indexed _ Hr).
  - split; [done|]. split; [done|]. discriminate.
Qed.

Lemma revokeAccess_spec_witness :
  let sys := System.run [(demo_env 1 100, System.GrantAccess 2 3600)]
               System.init in
  isPatient demo_identity 1 = true
  ∧ ∃ s', transact (revokeAccess (demo_env 1 200) 2) (System.access sys)
          = (Success tt [AccessRevoked 1 2 200], s')
      ∧ hasAccess (demo_env 1 200) (System.access sys) 1 2 = true
      ∧ hasAccess (demo_env 1 200) s' 1 2 = false
      ∧ 2 ∈ getPatientDoctors s' 1 ∧ 1 ∈ getDoctorPatients s' 2.
Proof.
  cbn zeta. split; [reflexivity|].
  destruct (revokeAccess_spec (demo_env 1 200) 2
              (System.run [(demo_env 1 100, System.GrantAccess 2 3600)]
                 System.init))
    as (_ & _ & Hrev); [reflexivity|].
  destruct Hrev as (s' & Ht & Hg & _ & _ & _ & _ & _ & Hin); [reflexivity|].
  exists s'. split; [exact Ht|]. split; [reflexivity|].
  split.
  { unfold hasAccess.
    change (grant_of s' (msg_sender (demo_env 1 200)) 2)
      with (grant_of s' 1 2) in Hg.
    rewrite Hg. reflexivity. }
  apply Hin. apply System.reachable_step, System.reachable_init.
Defined.

(** *** Counting the active grants *)

Lemma count_fold env s d (l : list address) (acc : uint256) :
  fold_left (count_step env s d) l acc =
  acc + N.of_nat
          (length (filter (λ p, active (block_timestamp env) (grant_of s p d) = true) l)).
Proof.
  revert acc. induction l as [|p l IH]; intros acc; [cbn; lia|].
  rewrite filter_cons. cbn [fold_left]. rewrite IH.
  unfold count_step, active.
  destruct (isGranted (grant_of s p d)); cbn [andb].
  - destruct ((expiresAt (grant_of s p d) =? 0)
              || (block_timestamp env <=? expiresAt (grant_of s p d)));
      case_decide; try done; cbn [length]; lia.
  - case_decide; [done|lia].
Qed.

(** C8. [getActivePatientCount(d)] is the number of entries of [d]'s patient
    list whose grant is granted and not expired; in a reachable state this
    is the number of distinct patients [p] with [hasAccess(p, d)]: the size
    of any finite set that holds exactly those patients. *)
Theorem getActivePatientCount_spec (env : Env) (sys : System.State)
    (d : address) (X : gset address) :
  let s := System.access sys in
  let now := block_timestamp env in
  getActivePatientCount env s d
  = N.of_nat (length (filter (λ p, active now (grant_of s p d) = true)
                        (getDoctorPatients s d)))
  ∧ (System.reachable sys →
     (∀ p, p ∈ X ↔ hasAccess env s p d = true) →
     getActivePatientCount env s d = N.of_nat (size X)).
Proof.
  cbn. unfold getActivePatientCount, getDoctorPatients. rewrite count_fold.
  split; [lia|]. intros Hr%reachable_consistent HX.
  rewrite N.add_0_l. f_equal.
  set (l := filter _ _).
  assert (NoDup l) as Hnd by apply NoDup_filter, (patients_nodup _ Hr).
  assert (X = list_to_set l) as ->.
  { apply set_eq. intros p. rewrite HX, elem_of_list_to_set.
    unfold l. rewrite list_elem_of_filter, hasAccess_active.
    rewrite (patients_indexed _ Hr), andb_true_iff. tauto. }
  by rewrite size_list_to_set.
Qed.

Lemma getActivePatientCount_spec_witness :
  let sys := System.run [(demo_env 1 100, System.GrantAccess 2 3600)]
               System.init in
  System.reachable sys
  ∧ getActivePatientCount (demo_env 2 3700) (System.access sys) 2
    = N.of_nat (size ({[ 1 ]} : gset address))
  ∧ getActivePatientCount (demo_env 2 3701) (System.access sys) 2
    = N.of_nat (size (∅ : gset address)).
Proof.
  cbn zeta.
  assert (System.reachable
            (System.run [(demo_env 1 100, System.GrantAccess 2 3600)]
               System.init)) as Hr
    by apply System.reachable_step, System.reachable_init.
  assert (accessGrants
            (System.access
               (System.run [(demo_env 1 100, System.GrantAccess 2 3600)]
                  System.init))
          = <[(1, 2) := {| isGranted := true; grantedAt := 100;
                           expiresAt := 3700; exists_ := true |}]> ∅) as Hs
    by reflexivity.
  split; [exact Hr|]. split.
  - apply (getActivePatientCount_spec (demo_env 2 3700) _ 2 {[ 1 ]}); [exact Hr|].
    intros p. rewrite elem_of_singleton, hasAccess_active.
    unfold grant_of. rewrite Hs, lookup_insert. case_decide as Hc.
    + injection Hc as <-. split; [reflexivity|done].
    + rewrite lookup_empty. cbn. split; [|done]. intros ->. by destruct Hc.
  - apply (getActivePatientCount_spec (demo_env 2 3701) _ 2 ∅); [exact Hr|].
    intros p. rewrite hasAccess_active.
    unfold grant_of. rewrite Hs, lookup_insert. case_decide as Hc.
    + split; [by intros ?%not_elem_of_empty|]. cbn. discriminate.
    + rewrite lookup_empty. cbn. split; [by intros ?%not_elem_of_empty|done].
Defined.

End AccessControlFacts.

(** ** Medical record registry *)

Module RegistryFacts.
Import MedicalRecordRegistry RegistryEffects.

(** [createRecord], one branch at a time. *)
Lemma createRecord_run env p h cid ty s :
  createRecord env p h cid ty s =
  if isVerifiedDoctor (identityContract env) (msg_sender env) then
    if isPatient (identityContract env) p then
      if recordCount s + 1 <=? MAX_UINT256
      then Done (recordCount s) (created_state env p h cid ty s)
             [RecordCreated (recordCount s) p (msg_sender env) h cid ty
                (block_timestamp env)]
      else Abort (Panic PANIC_ARITHMETIC) (written_state env p h cid ty s)
    else Abort (Revert "Patient not registered") s
  else Abort (Revert "Only verified doctors can create records") s.
Proof.
  unfold createRecord, created_state, written_state, new_record, bind, require,
    checked_add, ret, fail, get, modify, emit; cbn.
  destruct (isVerifiedDoctor _ _); cbn; [|done].
  destruct (isPatient _ _); cbn; [|done].
  by destruct (_ <=? _).
Qed.

Lemma record_of_set_record id r s id' :
  record_of (set_record id r s) id' =
  if decide (id = id') then r else record_of s id'.
Proof.
  unfold record_of, set_record; cbn. rewrite lookup_insert. by case_decide.
Qed.

(** [toggleVisibility], one branch at a time. *)
Lemma toggleVisibility_run env id s :
  toggleVisibility env id s =
  if exists_ (record_of s id) then
    if patient (record_of s id) =? msg_sender env
    then Done tt (toggled_state id s)
           [RecordVisibilityChanged id (msg_sender env)
              (negb (isVisible (record_of s id))) (block_timestamp env)]
    else Abort (Revert "Only patient can toggle visibility") s
  else Abort (Revert "Record not found") s.
Proof.
  unfold toggleVisibility, toggled_state, bind, require, ret, fail, get,
    modify, emit; cbn -[record_of set_record].
  destruct (exists_ _); cbn -[record_of set_record]; [|done].
  destruct (_ =? _); cbn -[record_of set_record]; [|done].
  rewrite record_of_set_record. by rewrite decide_True.
Qed.

Lemma record_of_exists s id :
  exists_ (record_of s id) = true → records s !! id = Some (record_of s id).
Proof. unfold record_of. by destruct (records s !! id). Qed.

Lemma record_of_created_state env p h cid ty s id' :
  record_of (created_state env p h cid ty s) id' =
  if decide (recordCount s = id') then new_record env p h cid ty
  else record_of s id'.
Proof. apply record_of_set_record. Qed.

Lemma patient_ids_created_state env p h cid ty s p' :
  records_of_patient (created_state env p h cid ty s) p' =
  if decide (p = p') then records_of_patient s p ++ [recordCount s]
  else records_of_patient s p'.
Proof.
  unfold records_of_patient at 1; cbn. rewrite lookup_insert. by case_decide.
Qed.

Lemma doctor_ids_created_state env p h cid ty s c' :
  records_of_doctor (created_state env p h cid ty s) c' =
  if decide (msg_sender env = c') then records_of_doctor s (msg_sender env) ++ [recordCount s]
  else records_of_doctor s c'.
Proof.
  unfold records_of_doctor at 1; cbn. rewrite lookup_insert. by case_decide.
Qed.

Lemma record_of_toggled_state id s id' :
  record_of (toggled_state id s) id' =
  if decide (id = id')
  then set_isVisible (negb (isVisible (record_of s id))) (record_of s id)
  else record_of s id'.
Proof. apply record_of_set_record. Qed.

Lemma toggled_state_twice id s :
  exists_ (record_of s id) = true → toggled_state id (toggled_state id s) = s.
Proof.
  intros Hex. unfold toggled_state at 1.
  rewrite record_of_toggled_state, decide_True by done.
  unfold toggled_state, set_record; cbn. rewrite insert_insert_eq.
  rewrite insert_id; [by destruct s|].
  rewrite (record_of_exists _ _ Hex). f_equal.
  destruct (record_of s id) as [? ? ? ? ? v ? ?]; unfold set_isVisible; cbn.
  by rewrite negb_involutive.
Qed.

(** *** Listing the visible records *)

Lemma count_visible_fold s (l : list uint256) (acc : uint256) :
  fold_left
    (λ visibleCount id,
       if isVisible (record_of s id) then visibleCount + 1 else visibleCount)
    l acc
  = acc + N.of_nat (length (visible_ids s l)).
Proof.
  unfold visible_ids.
  revert acc. induction l as [|id l IH]; intros acc; [cbn; lia|].
  rewrite filter_cons. cbn [fold_left]. rewrite IH.
  destruct (isVisible (record_of s id)); case_decide; try done;
    cbn [length]; lia.
Qed.

Lemma count_visible_length s l :
  N.to_nat (count_visible s l) = length (visible_ids s l).
Proof. unfold count_visible. rewrite count_visible_fold. lia. Qed.

(** The second loop fills the free slots from the left and never writes
    past the end, as long as enough slots are left for the visible ids that
    remain. *)
Lemma fill_fold s (l done_ : list uint256) (n : nat) :
  (length (visible_ids s l) ≤ n)%nat →
  fold_left (fill_step s) l
    (Ok (done_ ++ replicate n 0, N.of_nat (length done_)))
  = Ok (done_ ++ visible_ids s l ++ replicate (n - length (visible_ids s l)) 0,
        N.of_nat (length done_ + length (visible_ids s l))).
Proof.
  unfold visible_ids.
  revert done_ n. induction l as [|id l IH]; intros done_ n Hn.
  - cbn. by rewrite Nat.sub_0_r, Nat.add_0_r.
  - rewrite filter_cons in Hn |- *. cbn [fold_left fill_step].
    destruct (isVisible (record_of s id)) eqn:Hv.
    + rewrite decide_True in Hn |- * by done. cbn [length] in Hn.
      destruct n as [|n]; [lia|].
      rewrite length_app, length_replicate.
      destruct (N.ltb_spec (N.of_nat (length done_))
                  (N.of_nat (length done_ + S n))) as [_|?]; [|lia].
      rewrite Nat2N.id.
      replace (length done_) with (length done_ + 0)%nat at 1 by lia.
      rewrite insert_app_r. cbn [replicate]. cbn [insert list_insert].
      specialize (IH (done_ ++ [id]) n).
      rewrite length_app in IH. cbn [length] in IH.
      replace (N.of_nat (length done_) + 1)
        with (N.of_nat (length done_ + 1)) by lia.
      rewrite <- (assoc_L (++)) in IH. cbn [app] in IH.
      rewrite IH by lia. rewrite <- (assoc_L (++)). cbn [app length].
      do 2 f_equal. lia.
    + rewrite decide_False in Hn |- * by congruence.
      by apply IH.
Qed.

(** C9. [getVisiblePatientRecords(p)] returns the ids of [p]'s record list
    whose record is visible, in the order of that list: a sublist of the
    full list. It is a [view] function of the storage. *)
Theorem getVisiblePatientRecords_spec (s : State) (p : address) :
  getVisiblePatientRecords s p
  = Ok (filter (λ id, isVisible (record_of s id) = true)
          (getPatientRecordIds s p))
  ∧ filter (λ id, isVisible (record_of s id) = true) (getPatientRecordIds s p)
    `sublist_of` getPatientRecordIds s p.
Proof.
  split; [|apply sublist_filter].
  unfold getVisiblePatientRecords, getPatientRecordIds.
  rewrite count_visible_length.
  pose proof (fill_fold s (records_of_patient s p) []
                (length (visible_ids s (records_of_patient s p)))) as H.
  cbn [app length] in H. change (N.of_nat 0) with 0 in H.
  unfold uint256 in *. rewrite H by lia.
  rewrite Nat.sub_diag. cbn [replicate]. by rewrite app_nil_r.
Qed.

(** *** Toggling the visibility *)

(** C7. [toggleVisibility(r)] fails with "Record not found" when [r] is not
    allocated and with "Only patient can toggle visibility" when the caller
    is not the record's patient. A successful call negates the [isVisible]
    flag of record [r] and changes no other field, no other record, no list
    and not the counter; a second call by the patient brings the storage
    back to what it was, so a visible record is hidden by one call and
    visible again after two. *)
Theorem toggleVisibility_spec (env env' : Env) (s : State) (r : uint256) :
  let rec := record_of s r in
  (exists_ rec = false →
   transact (toggleVisibility env r) s
   = (Failure (Revert "Record not found"), s))
  ∧ (exists_ rec = true → patient rec ≠ msg_sender env →
     transact (toggleVisibility env r) s
     = (Failure (Revert "Only patient can toggle visibility"), s))
  ∧ (exists_ rec = true → patient rec = msg_sender env →
     ∃ s', transact (toggleVisibility env r) s
           = (Success tt
                [RecordVisibilityChanged r (msg_sender env)
                   (negb (isVisible rec)) (block_timestamp env)], s')
       ∧ record_of s' r
         = {| recordHash := recordHash rec; ipfsCid := ipfsCid rec;
              patient := patient rec; doctor := doctor rec;
              recordType := recordType rec;
              isVisible := negb (isVisible rec);
              createdAt := createdAt rec; exists_ := exists_ rec |}
       ∧ (∀ r', r' ≠ r → record_of s' r' = record_of s r')
       ∧ recordCount s' = recordCount s
       ∧ patientRecords s' = patientRecords s
       ∧ doctorRecords s' = doctorRecords s
       ∧ (msg_sender env' = msg_sender env →
          transact (toggleVisibility env' r) s'
          = (Success tt
               [RecordVisibilityChanged r (msg_sender env) (isVisible rec)
                  (block_timestamp env')], s))
       ∧ (isVisible rec = true → isVisible (record_of s' r) = false)).
Proof.
  cbn. unfold transact. rewrite toggleVisibility_run.
  destruct (exists_ (record_of s r)) eqn:Hex.
  - split; [discriminate|].
    destruct (N.eqb_spec (patient (record_of s r)) (msg_sender env))
      as [Hp|Hp].
    + split; [done|]. intros _ _. exists (toggled_state r s).
      assert (record_of (toggled_state r s) r
              = set_isVisible (negb (isVisible (record_of s r)))
                  (record_of s r)) as Hr.
      { rewrite record_of_toggled_state. by rewrite decide_True. }
      repeat apply conj; try reflexivity.
      * rewrite Hr. unfold set_isVisible. by rewrite Hex.
      * intros r' Hne. rewrite record_of_toggled_state.
        by rewrite decide_False.
      * intros Hs. rewrite toggleVisibility_run, Hr. cbn.
        rewrite Hex, Hs, <- Hp, N.eqb_refl, negb_involutive.
        by rewrite toggled_state_twice.
      * intros Hv. rewrite Hr. cbn. by rewrite Hv.
    + split; [done|]. intros _ Heq. by destruct Hp.
  - split; [done|]. split; discriminate.
Qed.

Lemma toggleVisibility_spec_witness :
  let s := System.registry
             (System.run [(demo_env 2 10, System.CreateRecord 1 77 "Qm" DIAGNOSIS)]
                System.init) in
  isVisible (record_of s 0) = true
  ∧ ∃ s', transact (toggleVisibility (demo_env 1 20) 0) s
          = (Success tt [RecordVisibilityChanged 0 1 false 20], s')
      ∧ isVisible (record_of s' 0) = false
      ∧ transact (toggleVisibility (demo_env 1 30) 0) s'
        = (Success tt [RecordVisibilityChanged 0 1 true 30], s).
Proof.
  cbn zeta. split; [reflexivity|].
  destruct (toggleVisibility_spec (demo_env 1 20) (demo_env 1 30)
              (System.registry
                 (System.run
                    [(demo_env 2 10, System.CreateRecord 1 77 "Qm" DIAGNOSIS)]
                    System.init)) 0)
    as (_ & _ & Hok).
  destruct Hok as (s' & Ht & _ & _ & _ & _ & _ & Hback & Hv);
    [reflexivity|reflexivity|].
  exists s'. split; [exact Ht|]. split; [by apply Hv|].
  by apply Hback.
Defined.

(** *** Creating records *)

(** What a transaction does to the counter, and the id it returns. *)
Lemma transact_recordCount env c sys :
  match transact (System.dispatch env c) sys with
  | (Success (Some id) _, sys') =>
      id = recordCount (System.registry sys)
      ∧ recordCount (System.registry sys') = id + 1
  | (_, sys') =>
      recordCount (System.registry sys') = recordCount (System.registry sys)
  end.
Proof.
  unfold transact, System.dispatch, System.on_registry, System.on_access, bind.
  destruct c.
  - rewrite createRecord_run.
    destruct (isVerifiedDoctor _ _); [|done].
    destruct (isPatient _ _); [|done].
    destruct (_ <=? _); [|done]. by cbn.
  - rewrite toggleVisibility_run.
    destruct (exists_ _); [|done]. by destruct (_ =? _).
  - by destruct (AccessControl.grantAccess _ _ _ _).
  - by destruct (AccessControl.revokeAccess _ _ _).
Qed.

Lemma created_ids_from txs sys :
  System.created_ids txs sys
  = (λ k, recordCount (System.registry sys) + N.of_nat k)
    <$> seq 0 (length (System.created_ids txs sys)).
Proof.
  revert sys. induction txs as [|[env c] txs IH]; intros sys; [done|].
  cbn [System.created_ids].
  pose proof (transact_recordCount env c sys) as Hc.
  destruct (transact (System.dispatch env c) sys) as [[[id|] log|e] sys'].
  - destruct Hc as [-> Hc]. cbn [length seq fmap list_fmap].
    rewrite N.add_0_r. f_equal.
    rewrite (IH sys') at 1. rewrite Hc, <- seq_shift, <- list_fmap_compose.
    apply list_fmap_ext. intros _ k _. cbn. lia.
  - rewrite <- Hc. apply IH.
  - rewrite <- Hc. apply IH.
Qed.

(** The counter grows by at most one per transaction. *)
Lemma run_recordCount_le txs sys :
  recordCount (System.registry (System.run txs sys))
  ≤ recordCount (System.registry sys) + N.of_nat (length txs).
Proof.
  revert sys. induction txs as [|[env c] txs IH]; intros sys; [cbn; lia|].
  cbn [System.run length]. etrans; [apply IH|].
  unfold System.step.
  pose proof (transact_recordCount env c sys) as Hc.
  destruct (transact (System.dispatch env c) sys) as [[[id|] log|e] sys'];
    cbn [snd].
  - destruct Hc as [-> ->]. lia.
  - rewrite Hc. lia.
  - rewrite Hc. lia.
Qed.

(** C2. [createRecord] succeeds exactly when the caller is a verified doctor
    and the patient is registered, and the doctor is checked first. A
    successful call stores a visible record at the id [recordCount], appends
    that id to the patient's and to the author's list, increments
    [recordCount] and returns the id. Whatever the transactions, the ids
    returned by the successful creations are 0, 1, 2, ... in the order of
    the calls. The statement is for the states whose counter is below
    [2^256 - 1]: the counter is at most the number of transactions run since
    deployment, so these are all the states the registry is in before its
    [2^256 - 1]-th transaction; at [2^256 - 1] itself the checked increment
    fails the call, which stores nothing. *)
Theorem createRecord_spec (env : Env) (p : address) (h : bytes32)
    (cid : string) (ty : RecordType) (s : State) :
  let c := msg_sender env in
  let id := recordCount s in
  (recordCount s < MAX_UINT256 →
   ((∃ r log s', transact (createRecord env p h cid ty) s = (Success r log, s'))
    ↔ isVerifiedDoctor (identityContract env) c = true
      ∧ isPatient (identityContract env) p = true)
   ∧ (isVerifiedDoctor (identityContract env) c = true →
      isPatient (identityContract env) p = true →
      ∃ s', transact (createRecord env p h cid ty) s
            = (Success id
                 [RecordCreated id p c h cid ty (block_timestamp env)], s')
        ∧ record_of s' id
          = {| recordHash := h; ipfsCid := cid; patient := p; doctor := c;
               recordType := ty; isVisible := true;
               createdAt := block_timestamp env; exists_ := true |}
        ∧ (∀ id', id' ≠ id → record_of s' id' = record_of s id')
        ∧ getPatientRecordIds s' p = getPatientRecordIds s p ++ [id]
        ∧ getDoctorRecordIds s' c = getDoctorRecordIds s c ++ [id]
        ∧ (∀ p', p' ≠ p → getPatientRecordIds s' p' = getPatientRecordIds s p')
        ∧ (∀ c', c' ≠ c → getDoctorRecordIds s' c' = getDoctorRecordIds s c')
        ∧ recordCount s' = id + 1))
  ∧ (isVerifiedDoctor (identityContract env) c = false →
     transact (createRecord env p h cid ty) s
     = (Failure (Revert "Only verified doctors can create records"), s))
  ∧ (isVerifiedDoctor (identityContract env) c = true →
     isPatient (identityContract env) p = false →
     transact (createRecord env p h cid ty) s
     = (Failure (Revert "Patient not registered"), s))
  ∧ (isVerifiedDoctor (identityContract env) c = true →
     isPatient (identityContract env) p = true →
     recordCount s = MAX_UINT256 →
     transact (createRecord env p h cid ty) s
     = (Failure (Panic PANIC_ARITHMETIC), s))
  ∧ (∀ txs, System.created_ids txs System.init
            = N.of_nat <$> seq 0 (length (System.created_ids txs System.init)))
  ∧ (∀ txs, recordCount (System.registry (System.run txs System.init))
            ≤ N.of_nat (length txs))
  ∧ (∀ txs, N.of_nat (length txs) < MAX_UINT256 →
            recordCount (System.registry (System.run txs System.init))
            < MAX_UINT256).
Proof.
  cbn. unfold transact. rewrite createRecord_run.
  repeat apply conj.
  - intros Hlt.
    assert ((recordCount s + 1 <=? MAX_UINT256) = true) as ->
      by (apply N.leb_le; lia).
    repeat apply conj.
    + destruct (isVerifiedDoctor _ _); [|by intros (? & ? & ? & ?)].
      destruct (isPatient _ _); [|by intros (? & ? & ? & ?)]. done.
    + intros [-> ->]. eauto.
    + intros -> ->. exists (created_state env p h cid ty s).
      unfold getPatientRecordIds, getDoctorRecordIds.
      repeat apply conj; try reflexivity.
      * rewrite record_of_created_state. by rewrite decide_True.
      * intros id' Hne. rewrite record_of_created_state.
        by rewrite decide_False.
      * rewrite patient_ids_created_state. by rewrite decide_True.
      * rewrite doctor_ids_created_state. by rewrite decide_True.
      * intros p' Hne. rewrite patient_ids_created_state.
        by rewrite decide_False.
      * intros c' Hne. rewrite doctor_ids_created_state.
        by rewrite decide_False.
  - by intros ->.
  - by intros -> ->.
  - by intros -> -> ->.
  - intros txs. rewrite (created_ids_from txs System.init) at 1.
    apply list_fmap_ext. intros _ k _. cbn. lia.
  - intros txs. pose proof (run_recordCount_le txs System.init) as Hle.
    cbn in Hle. lia.
  - intros txs Hlen. pose proof (run_recordCount_le txs System.init) as Hle.
    cbn in Hle. lia.
Qed.

Lemma createRecord_spec_witness :
  let s := System.registry
             (System.run [(demo_env 2 10, System.CreateRecord 1 77 "Qm" DIAGNOSIS);
                          (demo_env 1 20, System.ToggleVisibility 0)]
                System.init) in
  recordCount s < MAX_UINT256
  ∧ ∃ s', transact (createRecord (demo_env 3 30) 1 78 "Qn" LAB_REPORT) s
          = (Success 1 [RecordCreated 1 1 3 78 "Qn" LAB_REPORT 30], s')
      ∧ getPatientRecordIds s' 1 = [0; 1]
      ∧ getDoctorRecordIds s' 3 = [1]
      ∧ recordCount s' = 2.
Proof.
  cbn zeta.
  destruct (createRecord_spec (demo_env 3 30) 1 78 "Qn" LAB_REPORT
              (System.registry
                 (System.run
                    [(demo_env 2 10, System.CreateRecord 1 77 "Qm" DIAGNOSIS);
                     (demo_env 1 20, System.ToggleVisibility 0)]
                    System.init)))
    as (Hspec & _ & _ & _ & _ & _ & Hbelow).
  assert (recordCount
            (System.registry
               (System.run
                  [(demo_env 2 10, System.CreateRecord 1 77 "Qm" DIAGNOSIS);
                   (demo_env 1 20, System.ToggleVisibility 0)]
                  System.init)) < MAX_UINT256) as Hlt.
  { apply Hbelow. vm_compute. reflexivity. }
  split; [exact Hlt|].
  destruct (Hspec Hlt) as (_ & Hok).
  destruct Hok as (s' & Ht & _ & _ & Hp & Hd & _ & _ & Hc);
    [reflexivity|reflexivity|].
  exists s'. by repeat apply conj.
Defined.

(** The boundary of the counter, on a storage written by hand (no run of
    transactions gets there short of [2^256 - 1] successful creations): with
    the counter at [2^256 - 1] the checked increment turns the call down. *)
Lemma createRecord_at_full_counter :
  isVerifiedDoctor demo_identity 2 = true
  ∧ isPatient demo_identity 1 = true
  ∧ transact (createRecord (demo_env 2 10) 1 77 "Qm" DIAGNOSIS) full_registry
    = (Failure (Panic PANIC_ARITHMETIC), full_registry).
Proof. repeat apply conj; reflexivity. Qed.

(** The checked increment comes after the record and the two list entries
    have been written: those writes are the ones the failing call gives up. *)
Lemma createRecord_panics_after_writes :
  aborted_at (createRecord (demo_env 2 10) 1 77 "Qm" DIAGNOSIS) full_registry
  = Some (written_state (demo_env 2 10) 1 77 "Qm" DIAGNOSIS full_registry)
  ∧ records_of_patient
      (written_state (demo_env 2 10) 1 77 "Qm" DIAGNOSIS full_registry) 1
    = [MAX_UINT256]
  ∧ records_of_patient full_registry 1 = [].
Proof. repeat apply conj; reflexivity. Qed.

End RegistryFacts.

(** ** The two authorization paths, and failing calls *)

Module SystemFacts.
Import System.

Lemma state_eta (sys : State) :
  {| registry := registry sys; access := access sys |} = sys.
Proof. by destruct sys. Qed.

(** C4. [getRecord(r)] fails with "Record not found" when [r] is not
    allocated, fails with "Access denied" unless the caller is the record's
    patient or author or the record is visible, and otherwise returns the
    stored fields. It reads the registry storage only: a caller holding an
    active grant from the record's patient in the access-control contract,
    who is neither the patient nor the author of a hidden record, is denied
    all the same. *)
Theorem getRecord_spec (env : Env) (sys : State) (r : uint256) :
  let s := registry sys in
  let rec := MedicalRecordRegistry.record_of s r in
  let c := msg_sender env in
  (MedicalRecordRegistry.exists_ rec = false →
   MedicalRecordRegistry.getRecord env s r
   = MedicalRecordRegistry.Err (Revert "Record not found"))
  ∧ (MedicalRecordRegistry.exists_ rec = true →
     MedicalRecordRegistry.patient rec ≠ c →
     MedicalRecordRegistry.doctor rec ≠ c →
     MedicalRecordRegistry.isVisible rec = false →
     MedicalRecordRegistry.getRecord env s r
     = MedicalRecordRegistry.Err (Revert "Access denied"))
  ∧ (MedicalRecordRegistry.exists_ rec = true →
     MedicalRecordRegistry.patient rec = c
     ∨ MedicalRecordRegistry.doctor rec = c
     ∨ MedicalRecordRegistry.isVisible rec = true →
     MedicalRecordRegistry.getRecord env s r
     = MedicalRecordRegistry.Ok
         {| MedicalRecordRegistry.v_recordHash :=
              MedicalRecordRegistry.recordHash rec;
            MedicalRecordRegistry.v_ipfsCid := MedicalRecordRegistry.ipfsCid rec;
            MedicalRecordRegistry.v_patient := MedicalRecordRegistry.patient rec;
            MedicalRecordRegistry.v_doctor := MedicalRecordRegistry.doctor rec;
            MedicalRecordRegistry.v_recordType :=
              MedicalRecordRegistry.recordType rec;
            MedicalRecordRegistry.v_isVisible :=
              MedicalRecordRegistry.isVisible rec;
            MedicalRecordRegistry.v_createdAt :=
              MedicalRecordRegistry.createdAt rec |})
  ∧ (MedicalRecordRegistry.exists_ rec = true →
     AccessControl.hasAccess env (access sys)
       (MedicalRecordRegistry.patient rec) c = true →
     MedicalRecordRegistry.patient rec ≠ c →
     MedicalRecordRegistry.doctor rec ≠ c →
     MedicalRecordRegistry.isVisible rec = false →
     MedicalRecordRegistry.getRecord env s r
     = MedicalRecordRegistry.Err (Revert "Access denied"))
  ∧ (∀ a : AccessControl.State,
       MedicalRecordRegistry.getRecord env
         (registry {| registry := s; access := a |}) r
       = MedicalRecordRegistry.getRecord env s r).
Proof.
  cbn. unfold MedicalRecordRegistry.getRecord.
  destruct (MedicalRecordRegistry.exists_
              (MedicalRecordRegistry.record_of (registry sys) r));
    destruct (N.eqb_spec
                (MedicalRecordRegistry.patient
                   (MedicalRecordRegistry.record_of (registry sys) r))
                (msg_sender env));
    destruct (N.eqb_spec
                (MedicalRecordRegistry.doctor
                   (MedicalRecordRegistry.record_of (registry sys) r))
                (msg_sender env));
    destruct (MedicalRecordRegistry.isVisible
                (MedicalRecordRegistry.record_of (registry sys) r));
    cbn; repeat apply conj; intros; try done; intuition congruence.
Qed.

Lemma getRecord_spec_witness :
  let sys := run [(demo_env 2 10, CreateRecord 1 77 "Qm" MedicalRecordRegistry.DIAGNOSIS);
                  (demo_env 1 20, ToggleVisibility 0);
                  (demo_env 1 30, GrantAccess 3 3600)] init in
  AccessControl.hasAccess (demo_env 3 40) (access sys) 1 3 = true
  ∧ MedicalRecordRegistry.getRecord (demo_env 3 40) (registry sys) 0
    = MedicalRecordRegistry.Err (Revert "Access denied").
Proof.
  cbn zeta. split; [reflexivity|].
  destruct (getRecord_spec (demo_env 3 40)
              (run [(demo_env 2 10,
                     CreateRecord 1 77 "Qm" MedicalRecordRegistry.DIAGNOSIS);
                    (demo_env 1 20, ToggleVisibility 0);
                    (demo_env 1 30, GrantAccess 3 3600)] init) 0)
    as (_ & _ & _ & Hgrant & _).
  apply Hgrant; [reflexivity|reflexivity| | |reflexivity]; vm_compute;
    discriminate.
Defined.

(** C6. When [createRecord], [toggleVisibility], [grantAccess] or
    [revokeAccess] fails, the storage after the call is the storage before
    it. Every [require] of the four functions is evaluated before the first
    storage write: at a failing [require] the storage is still untouched,
    and so it is at any failure of the three functions other than
    [createRecord]. *)
Theorem failed_call_spec (env : Env) (c : Call) (sys : State) (e : Error) :
  failure env c sys = Some e →
  step env c sys = sys
  ∧ (∀ reason, e = Revert reason → aborted_at (dispatch env c) sys = Some sys)
  ∧ ((∀ p h cid ty, c ≠ CreateRecord p h cid ty) →
     aborted_at (dispatch env c) sys = Some sys).
Proof.
  unfold failure, step, aborted_at, transact, dispatch, on_registry,
    on_access, bind.
  destruct c as [p h cid ty|r|d n|d].
  - rewrite RegistryFacts.createRecord_run.
    destruct (isVerifiedDoctor _ _); cbn;
      [|intros [= <-]; by rewrite state_eta].
    destruct (isPatient _ _); cbn; [|intros [= <-]; by rewrite state_eta].
    destruct (_ <=? _); cbn; [done|]. intros [= <-].
    split; [done|]. split; [done|]. intros H. by destruct (H p h cid ty).
  - rewrite RegistryFacts.toggleVisibility_run.
    destruct (MedicalRecordRegistry.exists_ _); cbn;
      [|intros [= <-]; by rewrite state_eta].
    destruct (_ =? _); cbn; [done|]. intros [= <-]. by rewrite state_eta.
  - rewrite AccessControlFacts.grantAccess_run. cbn.
    destruct (isPatient _ _); cbn; [|intros [= <-]; by rewrite state_eta].
    destruct (isVerifiedDoctor _ _); cbn;
      [|intros [= <-]; by rewrite state_eta].
    destruct (0 <? n); cbn; [|done].
    destruct (_ <=? _); cbn; [done|]. intros [= <-]. by rewrite state_eta.
  - rewrite AccessControlFacts.revokeAccess_run. cbn.
    destruct (isPatient _ _); cbn; [|intros [= <-]; by rewrite state_eta].
    destruct (AccessControl.exists_ _); cbn; [done|].
    intros [= <-]. by rewrite state_eta.
Qed.

Lemma failed_call_spec_witness :
  failure (demo_env 9 10) (GrantAccess 2 3600) init
  = Some (Revert "Only patients can grant access")
  ∧ step (demo_env 9 10) (GrantAccess 2 3600) init = init
  ∧ aborted_at (dispatch (demo_env 9 10) (GrantAccess 2 3600)) init = Some init.
Proof.
  assert (failure (demo_env 9 10) (GrantAccess 2 3600) init
          = Some (Revert "Only patients can grant access")) as Hf
    by reflexivity.
  split; [exact Hf|].
  destruct (failed_call_spec (demo_env 9 10) (GrantAccess 2 3600) init _ Hf)
    as (Hs & Hr & _).
  split; [exact Hs|]. by apply (Hr "Only patients can grant access").
Defined.

End SystemFacts.

(** ** Identity contract *)

Module IdentityFacts.
Import HealthSecureIdentity IdentityEffects.

(** [registerPatient], one branch at a time. *)
Lemma registerPatient_run env h hid cid s :
  registerPatient env h hid cid s =
  if exists_ (identity_of s (msg_sender env))
  then Abort (Revert "Identity already registered") s
  else if hash_address s h =? 0 then
    if healthId_address s hid =? 0
    then Done tt (patient_registered env h hid cid s)
           [IdentityRegistered (msg_sender env) h PATIENT (block_timestamp env);
            HealthIdLinked (msg_sender env) hid]
    else Abort (Revert "Health ID already used") s
  else Abort (Revert "Identity hash already used") s.
Proof.
  unfold registerPatient, patient_registered, patient_identity, bind, require,
    ret, fail, get, modify, emit; cbn.
  destruct (exists_ _); cbn; [done|].
  destruct (hash_address s h =? 0); cbn; [|done].
  by destruct (healthId_address s hid =? 0).
Qed.

(** [registerDoctor], one branch at a time. *)
Lemma registerDoctor_run env h did cid s :
  registerDoctor env h did cid s =
  if exists_ (identity_of s (msg_sender env))
  then Abort (Revert "Identity already registered") s
  else if hash_address s h =? 0 then
    if doctorId_address s did =? 0
    then Done tt (doctor_registered env h did cid s)
           [IdentityRegistered (msg_sender env) h DOCTOR (block_timestamp env);
            DoctorIdLinked (msg_sender env) did]
    else Abort (Revert "Doctor ID already used") s
  else Abort (Revert "Identity hash already used") s.
Proof.
  unfold registerDoctor, doctor_registered, doctor_identity, bind, require,
    ret, fail, get, modify, emit; cbn.
  destruct (exists_ _); cbn; [done|].
  destruct (hash_address s h =? 0); cbn; [|done].
  by destruct (doctorId_address s did =? 0).
Qed.

(** [verifyDoctor], one branch at a time. *)
Lemma verifyDoctor_run env d s :
  verifyDoctor env d s =
  if owner s =? msg_sender env then
    if exists_ (identity_of s d) then
      if bool_decide (role (identity_of s d) = DOCTOR) then
        if isVerified (identity_of s d)
        then Abort (Revert "Already verified") s
        else Done tt (doctor_verified d s)
               [DoctorVerified d (block_timestamp env)]
      else Abort (Revert "Not a doctor") s
    else Abort (Revert "Identity not found") s
  else Abort OWNABLE_UNAUTHORIZED s.
Proof.
  unfold verifyDoctor, onlyOwner, doctor_verified, bind, require, ret, fail,
    get, modify, emit; cbn.
  destruct (owner s =? msg_sender env); cbn; [|done].
  destruct (exists_ _); cbn; [|done].
  destruct (bool_decide _); cbn; [|done].
  by destruct (isVerified _).
Qed.

(** [updateProfile], one branch at a time. *)
Lemma updateProfile_run env cid s :
  updateProfile env cid s =
  if exists_ (identity_of s (msg_sender env))
  then Done tt (profile_updated (msg_sender env) cid s)
         [ProfileUpdated (msg_sender env) cid]
  else Abort (Revert "Identity not registered") s.
Proof.
  unfold updateProfile, profile_updated, bind, require, ret, fail, get,
    modify, emit; cbn.
  by destruct (exists_ _).
Qed.

(** Reading the storage after the writes. *)
Lemma identity_of_set_identity a i s a' :
  identity_of (set_identity a i s) a' =
  if decide (a = a') then i else identity_of s a'.
Proof.
  unfold identity_of, set_identity; cbn. rewrite lookup_insert.
  by case_decide.
Qed.

Lemma identity_of_patient_registered env h hid cid s a :
  identity_of (patient_registered env h hid cid s) a =
  if decide (msg_sender env = a) then patient_identity env h cid
  else identity_of s a.
Proof. apply identity_of_set_identity. Qed.

Lemma identity_of_doctor_registered env h did cid s a :
  identity_of (doctor_registered env h did cid s) a =
  if decide (msg_sender env = a) then doctor_identity env h cid
  else identity_of s a.
Proof. apply identity_of_set_identity. Qed.

Lemma identity_of_doctor_verified d s a :
  identity_of (doctor_verified d s) a =
  if decide (d = a) then set_isVerified true (identity_of s d)
  else identity_of s a.
Proof. apply identity_of_set_identity. Qed.

Lemma identity_of_profile_updated w cid s a :
  identity_of (profile_updated w cid s) a =
  if decide (w = a) then set_profileCid cid (identity_of s w)
  else identity_of s a.
Proof. apply identity_of_set_identity. Qed.

Lemma hash_address_patient_registered env h hid cid s h' :
  hash_address (patient_registered env h hid cid s) h' =
  if decide (h = h') then msg_sender env else hash_address s h'.
Proof.
  unfold hash_address at 1; cbn. rewrite lookup_insert. by case_decide.
Qed.

Lemma hash_address_doctor_registered env h did cid s h' :
  hash_address (doctor_registered env h did cid s) h' =
  if decide (h = h') then msg_sender env else hash_address s h'.
Proof.
  unfold hash_address at 1; cbn. rewrite lookup_insert. by case_decide.
Qed.

Lemma healthId_address_patient_registered env h hid cid s hid' :
  healthId_address (patient_registered env h hid cid s) hid' =
  if decide (hid = hid') then msg_sender env else healthId_address s hid'.
Proof.
  unfold healthId_address at 1; cbn. rewrite lookup_insert. by case_decide.
Qed.

Lemma doctorId_address_doctor_registered env h did cid s did' :
  doctorId_address (doctor_registered env h did cid s) did' =
  if decide (did = did') then msg_sender env else doctorId_address s did'.
Proof.
  unfold doctorId_address at 1; cbn. rewrite lookup_insert. by case_decide.
Qed.

Lemma step_written env c s : written env s (step env c s).
Proof.
  unfold step, transact, dispatch. destruct c as [h hid cid|h did cid|d|cid].
  - rewrite registerPatient_run.
    destruct (exists_ _) eqn:Hex; [constructor|].
    destruct (N.eqb_spec (hash_address s h) 0); [|constructor].
    destruct (N.eqb_spec (healthId_address s hid) 0); [|constructor].
    by apply written_patient.
  - rewrite registerDoctor_run.
    destruct (exists_ _) eqn:Hex; [constructor|].
    destruct (N.eqb_spec (hash_address s h) 0); [|constructor].
    destruct (N.eqb_spec (doctorId_address s did) 0); [|constructor].
    by apply written_doctor.
  - rewrite verifyDoctor_run.
    destruct (N.eqb_spec (owner s) (msg_sender env)); [|constructor].
    destruct (exists_ _) eqn:Hex; [|constructor].
    destruct (bool_decide _) eqn:Hr; [|constructor].
    apply bool_decide_eq_true in Hr.
    destruct (isVerified _) eqn:Hv; [constructor|].
    by apply written_verified.
  - rewrite updateProfile_run.
    destruct (exists_ _) eqn:Hex; [|constructor].
    by apply written_profile.
Qed.

(** *** What a transaction keeps *)

Lemma written_kept env s s' a :
  written env s s' → exists_ (identity_of s a) = true →
  identity_kept (identity_of s a) (identity_of s' a).
Proof.
  unfold identity_kept.
  destruct 1 as [|h hid cid Hex _ _|h did cid Hex _ _|d _ _ _ _|cid _];
    intros Ha.
  - done.
  - rewrite identity_of_patient_registered.
    case_decide as Hc; [subst; congruence|done].
  - rewrite identity_of_doctor_registered.
    case_decide as Hc; [subst; congruence|done].
  - rewrite identity_of_doctor_verified.
    case_decide as Hc; [subst; done|done].
  - rewrite identity_of_profile_updated.
    case_decide as Hc; [subst; done|done].
Qed.

Lemma written_hash_address env s s' h :
  written env s s' → hash_address s h ≠ 0 →
  hash_address s' h = hash_address s h.
Proof.
  destruct 1 as [|h' hid cid _ Hh _|h' did cid _ Hh _|d _ _ _ _|cid _];
    intros Hne; try done.
  - rewrite hash_address_patient_registered.
    case_decide; [subst; done|done].
  - rewrite hash_address_doctor_registered.
    case_decide; [subst; done|done].
Qed.

Lemma written_healthId_address env s s' hid :
  written env s s' → healthId_address s hid ≠ 0 →
  healthId_address s' hid = healthId_address s hid.
Proof.
  destruct 1 as [|h' hid' cid _ _ Hh|h' did cid _ _ _|d _ _ _ _|cid _];
    intros Hne; try done.
  rewrite healthId_address_patient_registered.
  case_decide; [subst; done|done].
Qed.

Lemma written_doctorId_address env s s' did :
  written env s s' → doctorId_address s did ≠ 0 →
  doctorId_address s' did = doctorId_address s did.
Proof.
  destruct 1 as [|h' hid' cid _ _ _|h' did' cid _ _ Hd|d _ _ _ _|cid _];
    intros Hne; try done.
  rewrite doctorId_address_doctor_registered.
  case_decide; [subst; done|done].
Qed.

Lemma isPatient_true s a :
  isPatient s a = true ↔
  exists_ (identity_of s a) = true ∧ role (identity_of s a) = PATIENT.
Proof.
  unfold isPatient. rewrite andb_true_iff, bool_decide_eq_true. done.
Qed.

Lemma isVerifiedDoctor_true s a :
  isVerifiedDoctor s a = true ↔
  exists_ (identity_of s a) = true ∧ role (identity_of s a) = DOCTOR
  ∧ isVerified (identity_of s a) = true.
Proof.
  unfold isVerifiedDoctor. rewrite !andb_true_iff, bool_decide_eq_true.
  tauto.
Qed.

Lemma written_isPatient env s s' a :
  written env s s' → isPatient s a = true → isPatient s' a = true.
Proof.
  intros Hw [Hex Hr]%isPatient_true. apply isPatient_true.
  destruct (written_kept env s s' a Hw Hex) as (_ & -> & _ & -> & _). done.
Qed.

Lemma written_isVerifiedDoctor env s s' a :
  written env s s' → isVerifiedDoctor s a = true → isVerifiedDoctor s' a = true.
Proof.
  intros Hw (Hex & Hr & Hv)%isVerifiedDoctor_true. apply isVerifiedDoctor_true.
  destruct (written_kept env s s' a Hw Hex) as (_ & -> & _ & -> & Hv').
  auto.
Qed.

(** *** The consistency of the identity storage is an invariant *)

Lemma init_identity_consistent deployer : identity_consistent (init deployer).
Proof.
  split; unfold isPatient, identity_of, hash_address, healthId_address,
    doctorId_address; cbn; intros *; rewrite ?lookup_empty; cbn; done.
Qed.

Lemma set_owner_identity_consistent o s :
  identity_consistent s → identity_consistent (set_owner o s).
Proof. intros [? ? ? ? ? ? ?]. by split. Qed.

Lemma written_identity_consistent env s s' :
  written env s s' → identity_consistent s → identity_consistent s'.
Proof.
  intros Hw Hc. pose proof Hc as [Hst Hrole Hpv Hha Hah Hhp Hdd].
  destruct Hw as [|h hid cid Hex Hh Hhid|h did cid Hex Hh Hdid
                  |d Ho Hex Hr Hv|cid Hex]; [done|..].
  - (* registerPatient *)
    split.
    + intros a i. unfold patient_registered, set_identity; cbn.
      rewrite lookup_insert. case_decide; [by intros [= <-]|apply Hst].
    + intros a. rewrite identity_of_patient_registered.
      case_decide; [done|apply Hrole].
    + intros a. rewrite identity_of_patient_registered.
      case_decide; [done|apply Hpv].
    + intros a Ha. rewrite identity_of_patient_registered.
      case_decide as Hc'.
      * intros _. cbn. rewrite hash_address_patient_registered.
        by rewrite decide_True.
      * intros Hexa. rewrite hash_address_patient_registered.
        case_decide as Hc''; [|by apply Hha].
        specialize (Hha a Ha Hexa). congruence.
    + intros h'. rewrite hash_address_patient_registered.
      case_decide as Hc'.
      * intros _. rewrite identity_of_patient_registered.
        rewrite decide_True by done. by subst.
      * intros Hne. rewrite identity_of_patient_registered.
        destruct (Hah h' Hne) as [Hexa Hhash].
        case_decide as Hc''; [congruence|done].
    + intros hid'. rewrite healthId_address_patient_registered.
      case_decide as Hc'.
      * intros _. apply isPatient_true.
        rewrite identity_of_patient_registered, decide_True by done. done.
      * intros Hne. apply (written_isPatient env s); [|by apply Hhp].
        by apply written_patient.
    + intros did'.
      change (doctorId_address (patient_registered env h hid cid s) did')
        with (doctorId_address s did').
      intros Hne. destruct (Hdd did' Hne) as [Hexa Hra].
      rewrite identity_of_patient_registered.
      case_decide as Hc'; [congruence|done].
  - (* registerDoctor *)
    split.
    + intros a i. unfold doctor_registered, set_identity; cbn.
      rewrite lookup_insert. case_decide; [by intros [= <-]|apply Hst].
    + intros a. rewrite identity_of_doctor_registered.
      case_decide; [done|apply Hrole].
    + intros a. rewrite identity_of_doctor_registered.
      case_decide; [done|apply Hpv].
    + intros a Ha. rewrite identity_of_doctor_registered.
      case_decide as Hc'.
      * intros _. cbn. rewrite hash_address_doctor_registered.
        by rewrite decide_True.
      * intros Hexa. rewrite hash_address_doctor_registered.
        case_decide as Hc''; [|by apply Hha].
        specialize (Hha a Ha Hexa). congruence.
    + intros h'. rewrite hash_address_doctor_registered.
      case_decide as Hc'.
      * intros _. rewrite identity_of_doctor_registered.
        rewrite decide_True by done. by subst.
      * intros Hne. rewrite identity_of_doctor_registered.
        destruct (Hah h' Hne) as [Hexa Hhash].
        case_decide as Hc''; [congruence|done].
    + intros hid'.
      change (healthId_address (doctor_registered env h did cid s) hid')
        with (healthId_address s hid').
      intros Hne. apply (written_isPatient env s); [|by apply Hhp].
      by apply written_doctor.
    + intros did'. rewrite doctorId_address_doctor_registered.
      case_decide as Hc'.
      * intros _.
        rewrite identity_of_doctor_registered, decide_True by done. done.
      * intros Hne. destruct (Hdd did' Hne) as [Hexa Hra].
        rewrite identity_of_doctor_registered.
        case_decide as Hc''; [congruence|done].
  - (* verifyDoctor *)
    assert (written env s (doctor_verified d s)) as Hw
      by by apply written_verified.
    split.
    + intros a i. unfold doctor_verified, set_identity; cbn.
      rewrite lookup_insert.
      case_decide; [intros [= <-]; by cbn|apply Hst].
    + intros a. rewrite identity_of_doctor_verified.
      case_decide; [subst; cbn; intros _; congruence|apply Hrole].
    + intros a. rewrite identity_of_doctor_verified.
      case_decide; [done|apply Hpv].
    + intros a Ha. rewrite identity_of_doctor_verified.
      change (hash_address (doctor_verified d s)) with (hash_address s).
      case_decide; [subst; cbn; by apply Hha|by apply Hha].
    + intros h'.
      change (hash_address (doctor_verified d s) h') with (hash_address s h').
      intros Hne. destruct (Hah h' Hne) as [Hexa Hhash].
      rewrite identity_of_doctor_verified. case_decide; [by subst|done].
    + intros hid'.
      change (healthId_address (doctor_verified d s) hid')
        with (healthId_address s hid').
      intros Hne. apply (written_isPatient env s); [done|by apply Hhp].
    + intros did'.
      change (doctorId_address (doctor_verified d s) did')
        with (doctorId_address s did').
      intros Hne. destruct (Hdd did' Hne) as [Hexa Hra].
      rewrite identity_of_doctor_verified. case_decide; [by subst|done].
  - (* updateProfile *)
    assert (written env s (profile_updated (msg_sender env) cid s)) as Hw
      by by apply written_profile.
    split.
    + intros a i. unfold profile_updated, set_identity; cbn.
      rewrite lookup_insert.
      case_decide; [intros [= <-]; by cbn|apply Hst].
    + intros a. rewrite identity_of_profile_updated.
      case_decide; [subst; cbn; apply Hrole|apply Hrole].
    + intros a. rewrite identity_of_profile_updated.
      case_decide; [subst; cbn; apply Hpv|apply Hpv].
    + intros a Ha. rewrite identity_of_profile_updated.
      change (hash_address (profile_updated (msg_sender env) cid s))
        with (hash_address s).
      case_decide; [subst; cbn; by apply Hha|by apply Hha].
    + intros h'.
      change (hash_address (profile_updated (msg_sender env) cid s) h')
        with (hash_address s h').
      intros Hne. destruct (Hah h' Hne) as [Hexa Hhash].
      rewrite identity_of_profile_updated. case_decide as Hc'; [|done].
      rewrite <- Hc' in *. done.
    + intros hid'.
      change (healthId_address (profile_updated (msg_sender env) cid s) hid')
        with (healthId_address s hid').
      intros Hne. apply (written_isPatient env s); [done|by apply Hhp].
    + intros did'.
      change (doctorId_address (profile_updated (msg_sender env) cid s) did')
        with (doctorId_address s did').
      intros Hne. destruct (Hdd did' Hne) as [Hexa Hra].
      rewrite identity_of_profile_updated. case_decide as Hc'; [|done].
      rewrite <- Hc' in *. done.
Qed.

Lemma reachable_identity_consistent s :
  reachable s → identity_consistent s.
Proof.
  induction 1 as [deployer|env c s _ IH|o s _ IH].
  - apply init_identity_consistent.
  - exact (written_identity_consistent env s _ (step_written env c s) IH).
  - by apply set_owner_identity_consistent.
Qed.

(** *** Registration *)

(** X1. [registerPatient] checks, in this order, that the caller has no
    identity, that the identity hash is free and that the health ID is
    free. When all three hold it stores a verified patient identity for the
    caller and links the hash and the health ID to the caller: the caller is
    a patient from then on, [getIdentity] returns what was registered, and
    no other identity changes. *)
Theorem registerPatient_spec (env : Env) (h : bytes32) (hid cid : string)
    (s : State) :
  let c := msg_sender env in
  (exists_ (identity_of s c) = true →
   transact (registerPatient env h hid cid) s
   = (Failure (Revert "Identity already registered"), s))
  ∧ (exists_ (identity_of s c) = false → hash_address s h ≠ 0 →
     transact (registerPatient env h hid cid) s
     = (Failure (Revert "Identity hash already used"), s))
  ∧ (exists_ (identity_of s c) = false → hash_address s h = 0 →
     healthId_address s hid ≠ 0 →
     transact (registerPatient env h hid cid) s
     = (Failure (Revert "Health ID already used"), s))
  ∧ (exists_ (identity_of s c) = false → hash_address s h = 0 →
     healthId_address s hid = 0 →
     ∃ s', transact (registerPatient env h hid cid) s
           = (Success tt
                [IdentityRegistered c h PATIENT (block_timestamp env);
                 HealthIdLinked c hid], s')
       ∧ isPatient s' c = true
       ∧ isVerifiedDoctor s' c = false
       ∧ getIdentity s' c
         = Ok {| v_identityHash := h; v_role := PATIENT; v_profileCid := cid;
                 v_isVerified := true; v_registeredAt := block_timestamp env |}
       ∧ getPatientByHealthId s' hid = c
       ∧ hash_address s' h = c
       ∧ (∀ a, a ≠ c → identity_of s' a = identity_of s a)
       ∧ (∀ hid', hid' ≠ hid →
          getPatientByHealthId s' hid' = getPatientByHealthId s hid')
       ∧ (∀ did, getDoctorByDoctorId s' did = getDoctorByDoctorId s did)
       ∧ owner s' = owner s).
Proof.
  cbn. unfold transact. rewrite registerPatient_run.
  repeat apply conj.
  - by intros ->.
  - intros -> Hh. by destruct (N.eqb_spec (hash_address s h) 0).
  - intros -> -> Hhid. cbn.
    by destruct (N.eqb_spec (healthId_address s hid) 0).
  - intros -> -> ->. cbn. exists (patient_registered env h hid cid s).
    unfold getPatientByHealthId, getDoctorByDoctorId.
    assert (identity_of (patient_registered env h hid cid s) (msg_sender env)
            = patient_identity env h cid) as Hid
      by (rewrite identity_of_patient_registered; by rewrite decide_True).
    repeat apply conj; try reflexivity.
    + unfold isPatient. by rewrite Hid.
    + unfold isVerifiedDoctor. by rewrite Hid.
    + unfold getIdentity. by rewrite Hid.
    + rewrite healthId_address_patient_registered. by rewrite decide_True.
    + rewrite hash_address_patient_registered. by rewrite decide_True.
    + intros a Ha. rewrite identity_of_patient_registered.
      by rewrite decide_False.
    + intros hid' Hne. rewrite healthId_address_patient_registered.
      by rewrite decide_False.
Qed.

Lemma registerPatient_spec_witness :
  ∃ s', transact (registerPatient (demo_env 1 5) 11 "HID-0001" "QmP") (init 9)
        = (Success tt [IdentityRegistered 1 11 PATIENT 5;
                       HealthIdLinked 1 "HID-0001"], s')
    ∧ isPatient s' 1 = true
    ∧ getPatientByHealthId s' "HID-0001" = 1
    ∧ transact (registerPatient (demo_env 1 6) 12 "HID-0002" "QmQ") s'
      = (Failure (Revert "Identity already registered"), s').
Proof.
  destruct (registerPatient_spec (demo_env 1 5) 11 "HID-0001" "QmP" (init 9))
    as (_ & _ & _ & Hok).
  destruct Hok as (s' & Ht & Hp & _ & _ & Hh & _);
    [reflexivity|reflexivity|reflexivity|].
  exists s'. split; [exact Ht|]. split; [exact Hp|]. split; [exact Hh|].
  destruct (registerPatient_spec (demo_env 1 6) 12 "HID-0002" "QmQ" s')
    as (Hagain & _).
  apply Hagain. by apply isPatient_true in Hp as [? _].
Defined.

(** X2. [registerDoctor] makes the same three checks, with the doctor ID in
    the place of the health ID. On success the caller has a doctor identity
    that is not verified: it is neither a patient nor a verified doctor, and
    [getDoctorByDoctorId] finds it. *)
Theorem registerDoctor_spec (env : Env) (h : bytes32) (did cid : string)
    (s : State) :
  let c := msg_sender env in
  (exists_ (identity_of s c) = true →
   transact (registerDoctor env h did cid) s
   = (Failure (Revert "Identity already registered"), s))
  ∧ (exists_ (identity_of s c) = false → hash_address s h ≠ 0 →
     transact (registerDoctor env h did cid) s
     = (Failure (Revert "Identity hash already used"), s))
  ∧ (exists_ (identity_of s c) = false → hash_address s h = 0 →
     doctorId_address s did ≠ 0 →
     transact (registerDoctor env h did cid) s
     = (Failure (Revert "Doctor ID already used"), s))
  ∧ (exists_ (identity_of s c) = false → hash_address s h = 0 →
     doctorId_address s did = 0 →
     ∃ s', transact (registerDoctor env h did cid) s
           = (Success tt
                [IdentityRegistered c h DOCTOR (block_timestamp env);
                 DoctorIdLinked c did], s')
       ∧ isPatient s' c = false
       ∧ isVerifiedDoctor s' c = false
       ∧ getIdentity s' c
         = Ok {| v_identityHash := h; v_role := DOCTOR; v_profileCid := cid;
                 v_isVerified := false;
                 v_registeredAt := block_timestamp env |}
       ∧ getDoctorByDoctorId s' did = c
       ∧ hash_address s' h = c
       ∧ (∀ a, a ≠ c → identity_of s' a = identity_of s a)
       ∧ (∀ did', did' ≠ did →
          getDoctorByDoctorId s' did' = getDoctorByDoctorId s did')
       ∧ (∀ hid, getPatientByHealthId s' hid = getPatientByHealthId s hid)
       ∧ owner s' = owner s).
Proof.
  cbn. unfold transact. rewrite registerDoctor_run.
  repeat apply conj.
  - by intros ->.
  - intros -> Hh. by destruct (N.eqb_spec (hash_address s h) 0).
  - intros -> -> Hdid. cbn.
    by destruct (N.eqb_spec (doctorId_address s did) 0).
  - intros -> -> ->. cbn. exists (doctor_registered env h did cid s).
    unfold getPatientByHealthId, getDoctorByDoctorId.
    assert (identity_of (doctor_registered env h did cid s) (msg_sender env)
            = doctor_identity env h cid) as Hid
      by (rewrite identity_of_doctor_registered; by rewrite decide_True).
    repeat apply conj; try reflexivity.
    + unfold isPatient. by rewrite Hid.
    + unfold isVerifiedDoctor. by rewrite Hid.
    + unfold getIdentity. by rewrite Hid.
    + rewrite doctorId_address_doctor_registered. by rewrite decide_True.
    + rewrite hash_address_doctor_registered. by rewrite decide_True.
    + intros a Ha. rewrite identity_of_doctor_registered.
      by rewrite decide_False.
    + intros did' Hne. rewrite doctorId_address_doctor_registered.
      by rewrite decide_False.
Qed.

Lemma registerDoctor_spec_witness :
  ∃ s', transact (registerDoctor (demo_env 2 6) 22 "DOC-0001" "QmD") (init 9)
        = (Success tt [IdentityRegistered 2 22 DOCTOR 6;
                       DoctorIdLinked 2 "DOC-0001"], s')
    ∧ isVerifiedDoctor s' 2 = false
    ∧ getDoctorByDoctorId s' "DOC-0001" = 2.
Proof.
  destruct (registerDoctor_spec (demo_env 2 6) 22 "DOC-0001" "QmD" (init 9))
    as (_ & _ & _ & Hok).
  destruct Hok as (s' & Ht & _ & Hv & _ & Hd & _);
    [reflexivity|reflexivity|reflexivity|].
  exists s'. by repeat apply conj.
Defined.

(** *** Verification *)

(** X3. [verifyDoctor] first turns down every caller but the owner, then
    fails for an address without identity, for one that is not a doctor and
    for a doctor already verified. Otherwise it sets the [isVerified] flag of
    that doctor and nothing else: the doctor is a verified doctor from then
    on, and verifying it again fails with "Already verified". *)
Theorem verifyDoctor_spec (env env' : Env) (d : address) (s : State) :
  let i := identity_of s d in
  (owner s ≠ msg_sender env →
   transact (verifyDoctor env d) s = (Failure OWNABLE_UNAUTHORIZED, s))
  ∧ (owner s = msg_sender env → exists_ i = false →
     transact (verifyDoctor env d) s
     = (Failure (Revert "Identity not found"), s))
  ∧ (owner s = msg_sender env → exists_ i = true → role i ≠ DOCTOR →
     transact (verifyDoctor env d) s = (Failure (Revert "Not a doctor"), s))
  ∧ (owner s = msg_sender env → exists_ i = true → role i = DOCTOR →
     isVerified i = true →
     transact (verifyDoctor env d) s
     = (Failure (Revert "Already verified"), s))
  ∧ (owner s = msg_sender env → exists_ i = true → role i = DOCTOR →
     isVerified i = false →
     ∃ s', transact (verifyDoctor env d) s
           = (Success tt [DoctorVerified d (block_timestamp env)], s')
       ∧ isVerifiedDoctor s d = false
       ∧ isVerifiedDoctor s' d = true
       ∧ identity_of s' d
         = {| identityHash := identityHash i; role := DOCTOR;
              profileCid := profileCid i; isVerified := true;
              registeredAt := registeredAt i; exists_ := true |}
       ∧ (∀ a, a ≠ d → identity_of s' a = identity_of s a)
       ∧ hashToAddress s' = hashToAddress s
       ∧ healthIdToAddress s' = healthIdToAddress s
       ∧ doctorIdToAddress s' = doctorIdToAddress s
       ∧ owner s' = owner s
       ∧ (msg_sender env' = msg_sender env →
          transact (verifyDoctor env' d) s'
          = (Failure (Revert "Already verified"), s'))).
Proof.
  cbn. unfold transact. rewrite verifyDoctor_run.
  repeat apply conj.
  - intros Ho. by destruct (N.eqb_spec (owner s) (msg_sender env)).
  - intros -> ->. by rewrite N.eqb_refl.
  - intros -> -> Hr. rewrite N.eqb_refl. by rewrite bool_decide_eq_false_2.
  - intros -> -> -> ->. by rewrite N.eqb_refl.
  - intros Ho Hex Hr Hv. rewrite Ho, N.eqb_refl, Hex, Hr, Hv. cbn.
    exists (doctor_verified d s).
    assert (identity_of (doctor_verified d s) d
            = set_isVerified true (identity_of s d)) as Hid
      by (rewrite identity_of_doctor_verified; by rewrite decide_True).
    repeat apply conj; try reflexivity.
    + unfold isVerifiedDoctor. rewrite Hv. by rewrite andb_false_r.
    + unfold isVerifiedDoctor. rewrite Hid. cbn. by rewrite Hex, Hr.
    + rewrite Hid. unfold set_isVerified. by rewrite Hex, Hr.
    + intros a Ha. rewrite identity_of_doctor_verified.
      by rewrite decide_False.
    + exact Ho.
    + intros Hs. rewrite verifyDoctor_run, Hid. cbn.
      by rewrite Hs, Ho, N.eqb_refl, Hex, Hr.
Qed.

Lemma verifyDoctor_spec_witness :
  let s := step (demo_env 2 6) (RegisterDoctor 22 "DOC-0001" "QmD") (init 9) in
  isVerifiedDoctor s 2 = false
  ∧ transact (verifyDoctor (demo_env 2 7) 2) s = (Failure OWNABLE_UNAUTHORIZED, s)
  ∧ ∃ s', transact (verifyDoctor (demo_env 9 8) 2) s
          = (Success tt [DoctorVerified 2 8], s')
      ∧ isVerifiedDoctor s' 2 = true
      ∧ transact (verifyDoctor (demo_env 9 9) 2) s'
        = (Failure (Revert "Already verified"), s').
Proof.
  cbn zeta. split; [reflexivity|].
  destruct (verifyDoctor_spec (demo_env 2 7) (demo_env 2 7) 2
              (step (demo_env 2 6) (RegisterDoctor 22 "DOC-0001" "QmD")
                 (init 9))) as (Hno & _).
  split; [apply Hno; vm_compute; discriminate|].
  destruct (verifyDoctor_spec (demo_env 9 8) (demo_env 9 9) 2
              (step (demo_env 2 6) (RegisterDoctor 22 "DOC-0001" "QmD")
                 (init 9))) as (_ & _ & _ & _ & Hok).
  destruct Hok as (s' & Ht & _ & Hv & _ & _ & _ & _ & _ & _ & Hagain);
    [reflexivity|reflexivity|reflexivity|reflexivity|].
  exists s'. split; [exact Ht|]. split; [exact Hv|]. by apply Hagain.
Defined.

Lemma demo_identities_reachable : reachable demo_identities.
Proof. unfold demo_identities. repeat constructor. Qed.

(** *** Profiles *)

(** X4. [updateProfile] fails for a caller without identity. For a
    registered caller it replaces the caller's [profileCid] and nothing
    else, so nobody's role or verification changes, and of two updates in a
    row the second one wins. *)
Theorem updateProfile_spec (env env' : Env) (cid cid' : string) (s : State) :
  let c := msg_sender env in
  (exists_ (identity_of s c) = false →
   transact (updateProfile env cid) s
   = (Failure (Revert "Identity not registered"), s))
  ∧ (exists_ (identity_of s c) = true →
     ∃ s', transact (updateProfile env cid) s
           = (Success tt [ProfileUpdated c cid], s')
       ∧ identity_of s' c
         = {| identityHash := identityHash (identity_of s c);
              role := role (identity_of s c); profileCid := cid;
              isVerified := isVerified (identity_of s c);
              registeredAt := registeredAt (identity_of s c);
              exists_ := true |}
       ∧ (∀ a, a ≠ c → identity_of s' a = identity_of s a)
       ∧ (∀ a, isPatient s' a = isPatient s a)
       ∧ (∀ a, isVerifiedDoctor s' a = isVerifiedDoctor s a)
       ∧ hashToAddress s' = hashToAddress s
       ∧ healthIdToAddress s' = healthIdToAddress s
       ∧ doctorIdToAddress s' = doctorIdToAddress s
       ∧ owner s' = owner s
       ∧ (msg_sender env' = c →
          snd (transact (updateProfile env' cid') s')
          = snd (transact (updateProfile env' cid') s))).
Proof.
  cbn. unfold transact. rewrite updateProfile_run.
  split; [by intros ->|]. intros Hex. rewrite Hex.
  exists (profile_updated (msg_sender env) cid s).
  assert (identity_of (profile_updated (msg_sender env) cid s) (msg_sender env)
          = set_profileCid cid (identity_of s (msg_sender env))) as Hid
    by (rewrite identity_of_profile_updated; by rewrite decide_True).
  assert (∀ a, exists_ (identity_of (profile_updated (msg_sender env) cid s) a)
               = exists_ (identity_of s a)
             ∧ role (identity_of (profile_updated (msg_sender env) cid s) a)
               = role (identity_of s a)
             ∧ isVerified (identity_of (profile_updated (msg_sender env) cid s) a)
               = isVerified (identity_of s a)) as Hsame.
  { intros a. rewrite identity_of_profile_updated.
    case_decide; [by subst|done]. }
  repeat apply conj; try reflexivity.
  - rewrite Hid. unfold set_profileCid. by rewrite Hex.
  - intros a Ha. rewrite identity_of_profile_updated. by rewrite decide_False.
  - intros a. unfold isPatient. by destruct (Hsame a) as (-> & -> & _).
  - intros a. unfold isVerifiedDoctor. by destruct (Hsame a) as (-> & -> & ->).
  - intros Hs. rewrite !updateProfile_run, Hs, Hid. cbn. rewrite Hex. cbn.
    unfold profile_updated at 1 3. rewrite Hid.
    unfold profile_updated, set_identity; cbn. by rewrite insert_insert_eq.
Qed.

Lemma updateProfile_spec_witness :
  ∃ s', transact (updateProfile (demo_env 1 20) "QmNew") demo_identities
        = (Success tt [ProfileUpdated 1 "QmNew"], s')
    ∧ profileCid (identity_of s' 1) = "QmNew"
    ∧ isPatient s' 1 = true
    ∧ transact (updateProfile (demo_env 4 20) "QmNew") demo_identities
      = (Failure (Revert "Identity not registered"), demo_identities).
Proof.
  destruct (updateProfile_spec (demo_env 1 20) (demo_env 1 21) "QmNew" "QmX"
              demo_identities) as (_ & Hok).
  destruct Hok as (s' & Ht & Hid & _ & Hp & _); [reflexivity|].
  destruct (updateProfile_spec (demo_env 4 20) (demo_env 4 21) "QmNew" "QmX"
              demo_identities) as (Hno & _).
  exists s'. split; [exact Ht|]. split.
  { change (msg_sender (demo_env 1 20)) with 1 in Hid. by rewrite Hid. }
  split; [by rewrite Hp|]. apply Hno. reflexivity.
Defined.

(** *** Uniqueness and lookups *)

(** X5. In every reachable state two different registered addresses, neither
    of them the zero address, have different identity hashes; and an
    identity hash that is taken leads, through [hashToAddress], to the
    identity registered with it. *)
Theorem identityHash_unique (s : State) (a b : address) (h : bytes32) :
  reachable s →
  (a ≠ 0 → b ≠ 0 → a ≠ b →
   exists_ (identity_of s a) = true → exists_ (identity_of s b) = true →
   identityHash (identity_of s a) ≠ identityHash (identity_of s b))
  ∧ (hash_address s h ≠ 0 →
     ∃ v, getIdentity s (hash_address s h) = Ok v ∧ v_identityHash v = h).
Proof.
  intros Hc%reachable_identity_consistent. split.
  - intros Ha Hb Hab Hexa Hexb Heq.
    pose proof (hash_of_identity s Hc a Ha Hexa) as H1.
    pose proof (hash_of_identity s Hc b Hb Hexb) as H2.
    congruence.
  - intros Hne. destruct (identity_of_hash s Hc h Hne) as [Hex Hh].
    unfold getIdentity. rewrite Hex. eexists. split; [reflexivity|done].
Qed.

Lemma identityHash_unique_witness :
  identityHash (identity_of demo_identities 1)
  ≠ identityHash (identity_of demo_identities 2)
  ∧ ∃ v, getIdentity demo_identities (hash_address demo_identities 22) = Ok v
         ∧ v_identityHash v = 22.
Proof.
  destruct (identityHash_unique demo_identities 1 2 22
              demo_identities_reachable) as [Hne Hh].
  split.
  - apply Hne; [discriminate|discriminate|discriminate|reflexivity|reflexivity].
  - apply Hh. vm_compute. discriminate.
Defined.

(** A key that is free stays free, unless the transaction is a successful
    registration with that very key, which gives it to the caller. *)
Lemma step_healthId_free env c s key :
  healthId_address s key = 0 →
  healthId_address (step env c s) key = 0
  ∨ (∃ h cid, c = RegisterPatient h key cid
              ∧ healthId_address (step env c s) key = msg_sender env
              ∧ isPatient (step env c s) (msg_sender env) = true).
Proof.
  intros Hfree. unfold step, transact, dispatch.
  destruct c as [h hid cid|h did cid|d|cid].
  - rewrite registerPatient_run.
    destruct (exists_ _); [by left|].
    destruct (hash_address s h =? 0); [|by left].
    destruct (healthId_address s hid =? 0); [|by left]. cbn [snd].
    rewrite healthId_address_patient_registered.
    case_decide as Hc; [|by left]. subst. right. exists h, cid.
    split; [done|]. split; [done|]. apply isPatient_true.
    rewrite identity_of_patient_registered. by rewrite decide_True.
  - rewrite registerDoctor_run.
    destruct (exists_ _); [by left|].
    destruct (hash_address s h =? 0); [|by left].
    destruct (doctorId_address s did =? 0); by left.
  - rewrite verifyDoctor_run.
    destruct (owner s =? msg_sender env); [|by left].
    destruct (exists_ _); [|by left].
    destruct (bool_decide _); [|by left].
    destruct (isVerified _); by left.
  - rewrite updateProfile_run. destruct (exists_ _); by left.
Qed.

Lemma step_doctorId_free env c s key :
  doctorId_address s key = 0 →
  doctorId_address (step env c s) key = 0
  ∨ (∃ h cid, c = RegisterDoctor h key cid
              ∧ doctorId_address (step env c s) key = msg_sender env
              ∧ role (identity_of (step env c s) (msg_sender env)) = DOCTOR
              ∧ exists_ (identity_of (step env c s) (msg_sender env)) = true).
Proof.
  intros Hfree. unfold step, transact, dispatch.
  destruct c as [h hid cid|h did cid|d|cid].
  - rewrite registerPatient_run.
    destruct (exists_ _); [by left|].
    destruct (hash_address s h =? 0); [|by left].
    destruct (healthId_address s hid =? 0); by left.
  - rewrite registerDoctor_run.
    destruct (exists_ _); [by left|].
    destruct (hash_address s h =? 0); [|by left].
    destruct (doctorId_address s did =? 0); [|by left]. cbn [snd].
    rewrite doctorId_address_doctor_registered.
    case_decide as Hc; [|by left]. subst. right. exists h, cid.
    split; [done|]. split; [done|].
    rewrite identity_of_doctor_registered. by rewrite decide_True.
  - rewrite verifyDoctor_run.
    destruct (owner s =? msg_sender env); [|by left].
    destruct (exists_ _); [|by left].
    destruct (bool_decide _); [|by left].
    destruct (isVerified _); by left.
  - rewrite updateProfile_run. destruct (exists_ _); by left.
Qed.

Lemma run_healthId_free txs s key :
  healthId_address s key = 0 →
  Forall (λ tx, ∀ h cid, tx.2 ≠ RegisterPatient h key cid) txs →
  healthId_address (run txs s) key = 0.
Proof.
  revert s. induction txs as [|[env c] txs IH]; intros s Hfree Hall; [done|].
  apply Forall_cons in Hall as [Hc Hall]. cbn [run]. apply IH; [|done].
  destruct (step_healthId_free env c s key Hfree)
    as [?|(h & cid & -> & _)]; [done|].
  by destruct (Hc h cid).
Qed.

Lemma run_doctorId_free txs s key :
  doctorId_address s key = 0 →
  Forall (λ tx, ∀ h cid, tx.2 ≠ RegisterDoctor h key cid) txs →
  doctorId_address (run txs s) key = 0.
Proof.
  revert s. induction txs as [|[env c] txs IH]; intros s Hfree Hall; [done|].
  apply Forall_cons in Hall as [Hc Hall]. cbn [run]. apply IH; [|done].
  destruct (step_doctorId_free env c s key Hfree)
    as [?|(h & cid & -> & _)]; [done|].
  by destruct (Hc h cid).
Qed.

(** X6. A health ID or doctor ID that was never registered is looked up as
    the zero address: at deployment, and after any transactions none of
    which registers that key; a key that is free stays free through a
    transaction, unless the transaction is a successful registration with
    that key, which gives it to the caller (a change of owner changes no
    lookup). In every reachable state a health ID that is taken belongs to a
    patient and a doctor ID that is taken to a registered doctor, and no
    transaction gives a key that is taken to somebody else. *)
Theorem lookups_spec (s : State) (env : Env) (c : Call) (key : string)
    (deployer newOwner : address) (txs : list (Env * Call)) :
  getPatientByHealthId (init deployer) key = 0
  ∧ getDoctorByDoctorId (init deployer) key = 0
  ∧ (Forall (λ tx, ∀ h cid, tx.2 ≠ RegisterPatient h key cid) txs →
     getPatientByHealthId (run txs (init deployer)) key = 0)
  ∧ (Forall (λ tx, ∀ h cid, tx.2 ≠ RegisterDoctor h key cid) txs →
     getDoctorByDoctorId (run txs (init deployer)) key = 0)
  ∧ (getPatientByHealthId s key = 0 →
     Forall (λ tx, ∀ h cid, tx.2 ≠ RegisterPatient h key cid) txs →
     getPatientByHealthId (run txs s) key = 0)
  ∧ (getDoctorByDoctorId s key = 0 →
     Forall (λ tx, ∀ h cid, tx.2 ≠ RegisterDoctor h key cid) txs →
     getDoctorByDoctorId (run txs s) key = 0)
  ∧ (getPatientByHealthId s key = 0 →
     getPatientByHealthId (step env c s) key = 0
     ∨ (∃ h cid, c = RegisterPatient h key cid
                 ∧ getPatientByHealthId (step env c s) key = msg_sender env
                 ∧ isPatient (step env c s) (msg_sender env) = true))
  ∧ (getDoctorByDoctorId s key = 0 →
     getDoctorByDoctorId (step env c s) key = 0
     ∨ (∃ h cid, c = RegisterDoctor h key cid
                 ∧ getDoctorByDoctorId (step env c s) key = msg_sender env
                 ∧ role (identity_of (step env c s) (msg_sender env)) = DOCTOR
                 ∧ exists_ (identity_of (step env c s) (msg_sender env))
                   = true))
  ∧ getPatientByHealthId (set_owner newOwner s) key
    = getPatientByHealthId s key
  ∧ getDoctorByDoctorId (set_owner newOwner s) key = getDoctorByDoctorId s key
  ∧ (reachable s → getPatientByHealthId s key ≠ 0 →
     isPatient s (getPatientByHealthId s key) = true)
  ∧ (reachable s → getDoctorByDoctorId s key ≠ 0 →
     ∃ v, getIdentity s (getDoctorByDoctorId s key) = Ok v ∧ v_role v = DOCTOR)
  ∧ (getPatientByHealthId s key ≠ 0 →
     getPatientByHealthId (step env c s) key = getPatientByHealthId s key)
  ∧ (getDoctorByDoctorId s key ≠ 0 →
     getDoctorByDoctorId (step env c s) key = getDoctorByDoctorId s key).
Proof.
  unfold getPatientByHealthId, getDoctorByDoctorId. repeat apply conj.
  - reflexivity.
  - reflexivity.
  - by apply run_healthId_free.
  - by apply run_doctorId_free.
  - apply run_healthId_free.
  - apply run_doctorId_free.
  - apply step_healthId_free.
  - apply step_doctorId_free.
  - reflexivity.
  - reflexivity.
  - intros Hc%reachable_identity_consistent. apply (healthId_of_patient s Hc).
  - intros Hc%reachable_identity_consistent Hne.
    destruct (doctorId_of_doctor s Hc key Hne) as [Hex Hr].
    unfold getIdentity. rewrite Hex. eexists. split; [reflexivity|done].
  - apply (written_healthId_address env), step_written.
  - apply (written_doctorId_address env), step_written.
Qed.

Lemma lookups_spec_witness :
  let txs := [(demo_env 1 5, RegisterPatient 11 "HID-0001" "QmP");
              (demo_env 2 6, RegisterDoctor 22 "DOC-0001" "QmD");
              (demo_env 9 8, VerifyDoctor 2)] in
  getPatientByHealthId (run txs (init 9)) "HID-0002" = 0
  ∧ getDoctorByDoctorId (run txs (init 9)) "HID-0001" = 0
  ∧ isPatient demo_identities (getPatientByHealthId demo_identities "HID-0001")
    = true
  ∧ getPatientByHealthId
      (step (demo_env 4 30) (RegisterPatient 44 "HID-0001" "QmZ") demo_identities)
      "HID-0001" = 1.
Proof.
  cbn zeta.
  destruct (lookups_spec demo_identities (demo_env 4 30)
              (RegisterPatient 44 "HID-0001" "QmZ") "HID-0002" 9 9
              [(demo_env 1 5, RegisterPatient 11 "HID-0001" "QmP");
               (demo_env 2 6, RegisterDoctor 22 "DOC-0001" "QmD");
               (demo_env 9 8, VerifyDoctor 2)])
    as (_ & _ & Hfree & _).
  destruct (lookups_spec demo_identities (demo_env 4 30)
              (RegisterPatient 44 "HID-0001" "QmZ") "HID-0001" 9 9
              [(demo_env 1 5, RegisterPatient 11 "HID-0001" "QmP");
               (demo_env 2 6, RegisterDoctor 22 "DOC-0001" "QmD");
               (demo_env 9 8, VerifyDoctor 2)])
    as (_ & _ & _ & Hdfree & _ & _ & _ & _ & _ & _ & Hp & _ & Hkeep & _).
  repeat apply conj.
  - apply Hfree. repeat constructor; cbn; intros h cid; congruence.
  - apply Hdfree. repeat constructor; cbn; intros h cid; congruence.
  - apply Hp; [apply demo_identities_reachable|]. vm_compute. discriminate.
  - rewrite Hkeep; [reflexivity|]. vm_compute. discriminate.
Defined.

(** X7. [getIdentity] fails with "Identity not found" exactly for the
    addresses without identity. In every reachable state a registered
    address is a verified patient or a doctor, never without a role, and the
    two predicates the other contracts use agree with what [getIdentity]
    returns. *)
Theorem getIdentity_spec (s : State) (a : address) :
  (getIdentity s a = Err (Revert "Identity not found")
   ↔ exists_ (identity_of s a) = false)
  ∧ (exists_ (identity_of s a) = false →
     isPatient s a = false ∧ isVerifiedDoctor s a = false)
  ∧ (reachable s → ∀ v, getIdentity s a = Ok v →
     (v_role v = PATIENT ∧ v_isVerified v = true
      ∧ isPatient s a = true ∧ isVerifiedDoctor s a = false)
     ∨ (v_role v = DOCTOR
        ∧ isPatient s a = false ∧ isVerifiedDoctor s a = v_isVerified v)).
Proof.
  unfold getIdentity, isPatient, isVerifiedDoctor.
  split; [|split].
  - by destruct (exists_ _).
  - by intros ->.
  - intros Hc%reachable_identity_consistent v.
    destruct (exists_ (identity_of s a)) eqn:Hex; [|done].
    intros [= <-]. cbn.
    pose proof (registered_has_role s Hc a Hex) as Hr.
    pose proof (patient_is_verified s Hc a) as Hv.
    destruct (role (identity_of s a)); [done|left|right].
    + by rewrite Hv.
    + done.
Qed.

Lemma getIdentity_spec_witness :
  isPatient demo_identities 1 = true
  ∧ isVerifiedDoctor demo_identities 2 = true
  ∧ isVerifiedDoctor demo_identities 3 = false
  ∧ getIdentity demo_identities 4 = Err (Revert "Identity not found").
Proof.
  destruct (getIdentity_spec demo_identities 1) as (_ & _ & H1).
  destruct (H1 demo_identities_reachable _ eq_refl)
    as [(_ & _ & Hp & _)|(Hr & _)]; [|discriminate Hr].
  destruct (getIdentity_spec demo_identities 2) as (_ & _ & H2).
  destruct (H2 demo_identities_reachable _ eq_refl)
    as [(Hr & _)|(_ & _ & Hd2)]; [discriminate Hr|].
  destruct (getIdentity_spec demo_identities 3) as (_ & _ & H3).
  destruct (H3 demo_identities_reachable _ eq_refl)
    as [(Hr & _)|(_ & _ & Hd3)]; [discriminate Hr|].
  destruct (getIdentity_spec demo_identities 4) as (H4 & _).
  split; [exact Hp|]. split; [exact Hd2|]. split; [exact Hd3|].
  apply H4. reflexivity.
Defined.

End IdentityFacts.

(** ** Invariants of the record registry *)

Module RegistryInvariants.
Import MedicalRecordRegistry RegistryEffects.

Lemma init_registry_consistent : registry_consistent init.
Proof.
  split; unfold record_of, records_of_patient, records_of_doctor; cbn;
    intros *; rewrite ?lookup_empty; cbn.
  - done.
  - split; [done|lia].
  - unfold MAX_UINT256. lia.
  - split; [by intros ?%elem_of_nil|by intros [? _]].
  - split; [by intros ?%elem_of_nil|by intros [? _]].
  - constructor.
  - constructor.
Qed.

Lemma created_state_consistent env p h cid ty s :
  recordCount s < MAX_UINT256 →
  registry_consistent s →
  registry_consistent (created_state env p h cid ty s).
Proof.
  intros Hlt [Hst Hal Hcr Hpi Hdi Hps Hds].
  assert (exists_ (record_of s (recordCount s)) = false) as Hfresh.
  { destruct (exists_ (record_of s (recordCount s))) eqn:Hex; [|done].
    apply Hal in Hex. lia. }
  split.
  - intros id r. unfold created_state, written_state, set_record; cbn.
    rewrite lookup_insert. case_decide; [by intros [= <-]|apply Hst].
  - intros id. rewrite RegistryFacts.record_of_created_state.
    change (recordCount (created_state env p h cid ty s))
      with (recordCount s + 1).
    case_decide as Hc.
    + subst. cbn. split; [lia|done].
    + rewrite Hal. lia.
  - change (recordCount (created_state env p h cid ty s))
      with (recordCount s + 1). lia.
  - intros p' id. rewrite RegistryFacts.patient_ids_created_state,
      RegistryFacts.record_of_created_state.
    destruct (decide (recordCount s = id)) as [<-|Hne].
    + cbn. case_decide as Hc.
      * subst. split; [done|]. intros _. apply elem_of_app. right. by left.
      * rewrite Hpi, Hfresh. split; [by intros [? _]|by intros [_ ?]].
    + case_decide as Hc; [|apply Hpi]. subst.
      rewrite elem_of_app, list_elem_of_singleton, Hpi.
      split; [intros [?|?]; [done|congruence]|by left].
  - intros d' id. rewrite RegistryFacts.doctor_ids_created_state,
      RegistryFacts.record_of_created_state.
    destruct (decide (recordCount s = id)) as [<-|Hne].
    + cbn. case_decide as Hc.
      * subst. split; [done|]. intros _. apply elem_of_app. right. by left.
      * rewrite Hdi, Hfresh. split; [by intros [? _]|by intros [_ ?]].
    + case_decide as Hc; [|apply Hdi]. subst.
      rewrite elem_of_app, list_elem_of_singleton, Hdi.
      split; [intros [?|?]; [done|congruence]|by left].
  - intros p'. rewrite RegistryFacts.patient_ids_created_state.
    case_decide; [|apply Hps]. apply StronglySorted_app_2.
    + intros x1 x2 Hx1 ->%list_elem_of_singleton.
      apply Hpi in Hx1 as [Hx1 _]. by apply Hal.
    + apply Hps.
    + repeat constructor.
  - intros d'. rewrite RegistryFacts.doctor_ids_created_state.
    case_decide; [|apply Hds]. apply StronglySorted_app_2.
    + intros x1 x2 Hx1 ->%list_elem_of_singleton.
      apply Hdi in Hx1 as [Hx1 _]. by apply Hal.
    + apply Hds.
    + repeat constructor.
Qed.

Lemma toggled_state_consistent id s :
  exists_ (record_of s id) = true →
  registry_consistent s → registry_consistent (toggled_state id s).
Proof.
  intros Hex [Hst Hal Hcr Hpi Hdi Hps Hds].
  assert (∀ id', exists_ (record_of (toggled_state id s) id')
                 = exists_ (record_of s id')
               ∧ patient (record_of (toggled_state id s) id')
                 = patient (record_of s id')
               ∧ doctor (record_of (toggled_state id s) id')
                 = doctor (record_of s id')) as Hsame.
  { intros id'. rewrite RegistryFacts.record_of_toggled_state.
    case_decide; [by subst|done]. }
  split.
  - intros id' r. unfold toggled_state, set_record; cbn.
    rewrite lookup_insert. case_decide; [by intros [= <-]|apply Hst].
  - intros id'. destruct (Hsame id') as (-> & _). apply Hal.
  - exact Hcr.
  - intros p id'. destruct (Hsame id') as (-> & -> & _). apply Hpi.
  - intros d id'. destruct (Hsame id') as (-> & _ & ->). apply Hdi.
  - exact Hps.
  - exact Hds.
Qed.

(** A transaction leaves the registry storage as it was, or writes it as
    [createRecord] or [toggleVisibility] do, after their checks. *)
Lemma step_registry env c sys :
  let r := System.registry sys in
  let r' := System.registry (System.step env c sys) in
  r' = r
  ∨ (∃ p h cid ty,
       recordCount r < MAX_UINT256
       ∧ isVerifiedDoctor (identityContract env) (msg_sender env) = true
       ∧ isPatient (identityContract env) p = true
       ∧ c = System.CreateRecord p h cid ty
       ∧ r' = created_state env p h cid ty r)
  ∨ (∃ id, exists_ (record_of r id) = true
           ∧ patient (record_of r id) = msg_sender env
           ∧ c = System.ToggleVisibility id
           ∧ r' = toggled_state id r).
Proof.
  destruct c as [p h cid ty|id|d n|d]; cbn;
    unfold System.step, transact, System.dispatch, System.on_registry,
      System.on_access, bind.
  - rewrite RegistryFacts.createRecord_run.
    destruct (isVerifiedDoctor _ _) eqn:Hd; [|by left].
    destruct (isPatient _ _) eqn:Hp; [|by left].
    destruct (N.leb_spec (recordCount (System.registry sys) + 1) MAX_UINT256);
      [|by left].
    right; left. exists p, h, cid, ty. repeat split; try done. lia.
  - rewrite RegistryFacts.toggleVisibility_run.
    destruct (exists_ _) eqn:Hex; [|by left].
    destruct (N.eqb_spec (patient (record_of (System.registry sys) id))
                (msg_sender env)); [|by left].
    right; right. by exists id.
  - destruct (AccessControl.grantAccess _ _ _ _); by left.
  - destruct (AccessControl.revokeAccess _ _ _); by left.
Qed.

Lemma reachable_registry_consistent sys :
  System.reachable sys → registry_consistent (System.registry sys).
Proof.
  induction 1 as [|env c s _ IH]; [apply init_registry_consistent|].
  destruct (step_registry env c s)
    as [->|[(p & h & cid & ty & Hlt & _ & _ & _ & ->)|(id & Hex & _ & _ & ->)]].
  - exact IH.
  - by apply created_state_consistent.
  - by apply toggled_state_consistent.
Qed.

Lemma run_reachable txs sys :
  System.reachable sys → System.reachable (System.run txs sys).
Proof.
  revert sys. induction txs as [|[env c] txs IH]; intros sys Hr; [done|].
  cbn. apply IH. by constructor.
Qed.

(** One transaction keeps the content of every allocated record. *)
Lemma step_same_content env c sys id :
  System.reachable sys →
  exists_ (record_of (System.registry sys) id) = true →
  same_content (record_of (System.registry sys) id)
    (record_of (System.registry (System.step env c sys)) id).
Proof.
  intros Hr%reachable_registry_consistent Hex. unfold same_content.
  destruct (step_registry env c sys)
    as [->|[(p & h & cid & ty & Hlt & _ & _ & _ & ->)|(id' & _ & _ & _ & ->)]].
  - done.
  - rewrite RegistryFacts.record_of_created_state.
    case_decide as Hc; [|done]. subst.
    apply (allocated_below_count _ Hr) in Hex. lia.
  - rewrite RegistryFacts.record_of_toggled_state.
    case_decide; [by subst|done].
Qed.

(** *** Allocation and the counter *)

Lemma run_recordCount txs sys :
  recordCount (System.registry (System.run txs sys))
  = recordCount (System.registry sys)
    + N.of_nat (length (System.created_ids txs sys)).
Proof.
  revert sys. induction txs as [|[env c] txs IH]; intros sys; [cbn; lia|].
  cbn [System.run System.created_ids]. rewrite IH. unfold System.step.
  pose proof (RegistryFacts.transact_recordCount env c sys) as Hc.
  destruct (transact (System.dispatch env c) sys) as [[[id|] log|e] sys'];
    cbn [snd length].
  - destruct Hc as [-> ->]. lia.
  - rewrite Hc. lia.
  - rewrite Hc. lia.
Qed.

(** X8. In every reachable state the allocated record ids are exactly the
    ids below [getTotalRecords], which never exceeds [2^256 - 1], and
    [verifyRecord] fails with "Record not found" exactly from
    [getTotalRecords] on. After any transactions from deployment
    [getTotalRecords] is the number of [createRecord] calls that
    succeeded. *)
Theorem getTotalRecords_spec (sys : System.State) (id : uint256) (h : bytes32)
    (txs : list (Env * System.Call)) :
  let s := System.registry sys in
  (System.reachable sys →
   (exists_ (record_of s id) = true ↔ id < getTotalRecords s)
   ∧ getTotalRecords s ≤ MAX_UINT256
   ∧ (verifyRecord s id h = Err (Revert "Record not found")
      ↔ getTotalRecords s ≤ id))
  ∧ getTotalRecords (System.registry (System.run txs System.init))
    = N.of_nat (length (System.created_ids txs System.init)).
Proof.
  cbn. unfold getTotalRecords. split.
  - intros Hr%reachable_registry_consistent.
    pose proof (allocated_below_count _ Hr id) as Hal.
    split; [done|]. split; [apply (count_in_range _ Hr)|].
    unfold verifyRecord.
    destruct (exists_ (record_of (System.registry sys) id)).
    + split; [done|]. intros Hle. assert (id < recordCount (System.registry sys))
        by by apply Hal. lia.
    + split; [|done]. intros _.
      destruct (N.le_gt_cases (recordCount (System.registry sys)) id) as [?|Hlt];
        [done|]. by apply Hal in Hlt.
  - rewrite run_recordCount. cbn. lia.
Qed.

Lemma getTotalRecords_spec_witness :
  let txs := [(demo_env 2 10, System.CreateRecord 1 77 "Qm" DIAGNOSIS);
              (demo_env 4 11, System.CreateRecord 1 78 "Qn" DIAGNOSIS);
              (demo_env 3 12, System.CreateRecord 1 79 "Qo" LAB_REPORT)] in
  let s := System.registry (System.run txs System.init) in
  getTotalRecords s = 2
  ∧ exists_ (record_of s 1) = true
  ∧ verifyRecord s 2 79 = Err (Revert "Record not found").
Proof.
  cbn zeta.
  destruct (getTotalRecords_spec
              (System.run
                 [(demo_env 2 10, System.CreateRecord 1 77 "Qm" DIAGNOSIS);
                  (demo_env 4 11, System.CreateRecord 1 78 "Qn" DIAGNOSIS);
                  (demo_env 3 12, System.CreateRecord 1 79 "Qo" LAB_REPORT)]
                 System.init) 1 79 []) as [H1 _].
  destruct H1 as (Hal & _ & _);
    [apply run_reachable, System.reachable_init|].
  destruct (getTotalRecords_spec
              (System.run
                 [(demo_env 2 10, System.CreateRecord 1 77 "Qm" DIAGNOSIS);
                  (demo_env 4 11, System.CreateRecord 1 78 "Qn" DIAGNOSIS);
                  (demo_env 3 12, System.CreateRecord 1 79 "Qo" LAB_REPORT)]
                 System.init) 2 79
              [(demo_env 2 10, System.CreateRecord 1 77 "Qm" DIAGNOSIS);
               (demo_env 4 11, System.CreateRecord 1 78 "Qn" DIAGNOSIS);
               (demo_env 3 12, System.CreateRecord 1 79 "Qo" LAB_REPORT)])
    as [H2 Hcount].
  destruct H2 as (_ & _ & Hnf);
    [apply run_reachable, System.reachable_init|].
  split; [exact Hcount|]. split.
  - apply Hal. vm_compute. reflexivity.
  - apply Hnf. vm_compute. discriminate.
Defined.

(** *** The index lists *)

(** X9. In every reachable state [getPatientRecordIds(p)] holds exactly the
    allocated ids whose record has patient [p], and [getDoctorRecordIds(d)]
    exactly those whose record has author [d]; both lists are strictly
    increasing, so no id occurs twice. *)
Theorem record_index_spec (sys : System.State) (a : address) (id : uint256) :
  let s := System.registry sys in
  System.reachable sys →
  (id ∈ getPatientRecordIds s a
   ↔ id < getTotalRecords s ∧ patient (record_of s id) = a)
  ∧ (id ∈ getDoctorRecordIds s a
     ↔ id < getTotalRecords s ∧ doctor (record_of s id) = a)
  ∧ StronglySorted N.lt (getPatientRecordIds s a)
  ∧ StronglySorted N.lt (getDoctorRecordIds s a)
  ∧ NoDup (getPatientRecordIds s a)
  ∧ NoDup (getDoctorRecordIds s a).
Proof.
  cbn. intros Hr%reachable_registry_consistent.
  unfold getPatientRecordIds, getDoctorRecordIds, getTotalRecords.
  assert (∀ l, StronglySorted N.lt l → NoDup l) as Hnd.
  { induction 1 as [|x l _ IH Hall]; constructor; [|done].
    intros Hin. eapply Forall_forall in Hall; [|exact Hin]. lia. }
  repeat apply conj.
  - intros [? ?]%(patient_indexed _ Hr). split; [|done].
    by apply (allocated_below_count _ Hr).
  - intros [? ?]. apply (patient_indexed _ Hr). split; [|done].
    by apply (allocated_below_count _ Hr).
  - intros [? ?]%(doctor_indexed _ Hr). split; [|done].
    by apply (allocated_below_count _ Hr).
  - intros [? ?]. apply (doctor_indexed _ Hr). split; [|done].
    by apply (allocated_below_count _ Hr).
  - apply (patient_index_sorted _ Hr).
  - apply (doctor_index_sorted _ Hr).
  - apply Hnd, (patient_index_sorted _ Hr).
  - apply Hnd, (doctor_index_sorted _ Hr).
Qed.

Lemma record_index_spec_witness :
  let txs := [(demo_env 2 10, System.CreateRecord 1 77 "Qm" DIAGNOSIS);
              (demo_env 3 12, System.CreateRecord 1 79 "Qo" LAB_REPORT)] in
  let s := System.registry (System.run txs System.init) in
  1 ∈ getPatientRecordIds s 1 ∧ 1 ∈ getDoctorRecordIds s 3
  ∧ NoDup (getPatientRecordIds s 1).
Proof.
  cbn zeta.
  destruct (record_index_spec
              (System.run
                 [(demo_env 2 10, System.CreateRecord 1 77 "Qm" DIAGNOSIS);
                  (demo_env 3 12, System.CreateRecord 1 79 "Qo" LAB_REPORT)]
                 System.init) 1 1) as (Hp & _ & _ & _ & Hnd & _);
    [apply run_reachable, System.reachable_init|].
  destruct (record_index_spec
              (System.run
                 [(demo_env 2 10, System.CreateRecord 1 77 "Qm" DIAGNOSIS);
                  (demo_env 3 12, System.CreateRecord 1 79 "Qo" LAB_REPORT)]
                 System.init) 3 1) as (_ & Hd & _);
    [apply run_reachable, System.reachable_init|].
  split; [|split; [|exact Hnd]].
  - apply Hp. split; vm_compute; reflexivity.
  - apply Hd. split; vm_compute; reflexivity.
Defined.

(** *** Records are immutable but for their visibility *)

(** X10. Whatever transactions follow, an allocated record keeps its hash,
    its content reference, its patient, its author, its type and its
    creation time: only [isVisible] can change. So [verifyRecord] gives the
    same answer for it ever after. *)
Theorem record_content_immutable (sys : System.State) (id : uint256)
    (h : bytes32) (txs : list (Env * System.Call)) :
  let s := System.registry sys in
  let s' := System.registry (System.run txs sys) in
  System.reachable sys →
  exists_ (record_of s id) = true →
  recordHash (record_of s' id) = recordHash (record_of s id)
  ∧ ipfsCid (record_of s' id) = ipfsCid (record_of s id)
  ∧ patient (record_of s' id) = patient (record_of s id)
  ∧ doctor (record_of s' id) = doctor (record_of s id)
  ∧ recordType (record_of s' id) = recordType (record_of s id)
  ∧ createdAt (record_of s' id) = createdAt (record_of s id)
  ∧ exists_ (record_of s' id) = true
  ∧ verifyRecord s' id h = verifyRecord s id h.
Proof.
  cbn. intros Hr Hex.
  assert (same_content (record_of (System.registry sys) id)
            (record_of (System.registry (System.run txs sys)) id)) as Hsame.
  { revert sys Hr Hex. induction txs as [|[env c] txs IH]; intros sys Hr Hex.
    - by unfold same_content.
    - cbn [System.run].
      pose proof (step_same_content env c sys id Hr Hex) as Hstep.
      assert (same_content
                (record_of (System.registry (System.step env c sys)) id)
                (record_of
                   (System.registry (System.run txs (System.step env c sys)))
                   id)) as Hrest.
      { apply IH; [by constructor|].
        destruct Hstep as (_ & _ & _ & _ & _ & _ & <-). done. }
      unfold same_content in *. intuition congruence. }
  destruct Hsame as (Hh & Hc & Hp & Hd & Ht & Hcr & Hexs).
  unfold verifyRecord. rewrite <- Hexs, <- Hh. intuition congruence.
Qed.

Lemma record_content_immutable_witness :
  let sys := System.run [(demo_env 2 10, System.CreateRecord 1 77 "Qm" DIAGNOSIS)]
               System.init in
  let txs := [(demo_env 1 20, System.ToggleVisibility 0);
              (demo_env 3 30, System.CreateRecord 1 99 "Qz" IMAGING)] in
  isVisible (record_of (System.registry (System.run txs sys)) 0) = false
  ∧ verifyRecord (System.registry (System.run txs sys)) 0 77 = Ok true.
Proof.
  cbn zeta. split; [reflexivity|].
  destruct (record_content_immutable
              (System.run
                 [(demo_env 2 10, System.CreateRecord 1 77 "Qm" DIAGNOSIS)]
                 System.init) 0 77
              [(demo_env 1 20, System.ToggleVisibility 0);
               (demo_env 3 30, System.CreateRecord 1 99 "Qz" IMAGING)])
    as (_ & _ & _ & _ & _ & _ & _ & Hv);
    [apply run_reachable, System.reachable_init|reflexivity|].
  rewrite Hv. reflexivity.
Defined.

(** *** Creating, reading and listing *)

Lemma getVisible_run s p :
  getVisiblePatientRecords s p = Ok (visible_ids s (records_of_patient s p)).
Proof.
  unfold getVisiblePatientRecords.
  rewrite RegistryFacts.count_visible_length.
  pose proof (RegistryFacts.fill_fold s (records_of_patient s p) []
                (length (visible_ids s (records_of_patient s p)))) as H.
  cbn [app length] in H. change (N.of_nat 0) with 0 in H.
  unfold uint256 in *. rewrite H by lia.
  rewrite Nat.sub_diag. cbn [replicate]. by rewrite app_nil_r.
Qed.

Lemma visible_ids_ext s s' (l : list uint256) :
  (∀ x, x ∈ l → isVisible (record_of s' x) = isVisible (record_of s x)) →
  visible_ids s' l = visible_ids s l.
Proof.
  unfold visible_ids. induction l as [|x l IH]; intros H; [done|].
  rewrite !filter_cons, H by by left.
  rewrite IH; [done|]. intros y Hy. apply H. by right.
Qed.

(** X11. After a successful [createRecord] the new record can be read back:
    [verifyRecord] on the returned id answers true for the hash that was
    given and false for any other, and [getRecord] returns the record, with
    [isVisible] set, to any caller whatsoever. In a reachable state the new
    id also comes last in the patient's list of visible records. *)
Theorem createRecord_read_back (env reader : Env) (p : address) (h h' : bytes32)
    (cid : string) (ty : RecordType) (sys : System.State) :
  let s := System.registry sys in
  let id := recordCount s in
  let s' := snd (transact (createRecord env p h cid ty) s) in
  recordCount s < MAX_UINT256 →
  isVerifiedDoctor (identityContract env) (msg_sender env) = true →
  isPatient (identityContract env) p = true →
  verifyRecord s' id h' = Ok (h =? h')
  ∧ (verifyRecord s' id h' = Ok true ↔ h' = h)
  ∧ getRecord reader s' id
    = Ok {| v_recordHash := h; v_ipfsCid := cid; v_patient := p;
            v_doctor := msg_sender env; v_recordType := ty;
            v_isVisible := true; v_createdAt := block_timestamp env |}
  ∧ (System.reachable sys →
     ∀ q, getVisiblePatientRecords s' q
          = Ok (visible_ids s (getPatientRecordIds s q)
                ++ (if decide (p = q) then [id] else []))).
Proof.
  cbn. intros Hlt Hd Hp. unfold transact.
  rewrite RegistryFacts.createRecord_run, Hd, Hp.
  assert ((recordCount (System.registry sys) + 1 <=? MAX_UINT256) = true) as ->
    by (apply N.leb_le; lia).
  cbn [snd].
  assert (record_of (created_state env p h cid ty (System.registry sys))
            (recordCount (System.registry sys)) = new_record env p h cid ty)
    as Hnew
    by (rewrite RegistryFacts.record_of_created_state; by rewrite decide_True).
  split; [|split; [|split]].
  - unfold verifyRecord. by rewrite Hnew.
  - unfold verifyRecord. rewrite Hnew. cbn.
    split; [intros [= ?%N.eqb_eq]; done|intros ->; by rewrite N.eqb_refl].
  - unfold getRecord. rewrite Hnew. cbn. by rewrite orb_true_r.
  - intros Hr%reachable_registry_consistent q.
    rewrite getVisible_run, RegistryFacts.patient_ids_created_state.
    unfold getPatientRecordIds.
    assert (∀ l, (∀ x, x ∈ l → x < recordCount (System.registry sys)) →
                 visible_ids (created_state env p h cid ty (System.registry sys)) l
                 = visible_ids (System.registry sys) l) as Hold.
    { intros l Hl. apply visible_ids_ext. intros x Hx%Hl.
      rewrite RegistryFacts.record_of_created_state.
      rewrite decide_False; [done|lia]. }
    assert (∀ q x, x ∈ records_of_patient (System.registry sys) q →
                   x < recordCount (System.registry sys)) as Hbelow.
    { intros q' x [Hx _]%(patient_indexed _ Hr).
      by apply (allocated_below_count _ Hr). }
    case_decide as Hc.
    + subst. unfold visible_ids at 1. rewrite filter_app.
      fold (visible_ids (created_state env q h cid ty (System.registry sys))
              (records_of_patient (System.registry sys) q)).
      rewrite Hold by apply Hbelow. f_equal.
      rewrite filter_cons, filter_nil, Hnew. by rewrite decide_True.
    + rewrite Hold by apply Hbelow. by rewrite app_nil_r.
Qed.

Lemma createRecord_read_back_witness :
  let s' := snd (transact (createRecord (demo_env 2 10) 1 77 "Qm" DIAGNOSIS)
                   init) in
  verifyRecord s' 0 77 = Ok true
  ∧ verifyRecord s' 0 0 = Ok false
  ∧ getRecord (demo_env 5 11) s' 0
    = Ok {| v_recordHash := 77; v_ipfsCid := "Qm"; v_patient := 1;
            v_doctor := 2; v_recordType := DIAGNOSIS; v_isVisible := true;
            v_createdAt := 10 |}
  ∧ getVisiblePatientRecords s' 1 = Ok [0].
Proof.
  cbn zeta.
  assert (recordCount (System.registry System.init) < MAX_UINT256) as Hlt
    by (vm_compute; reflexivity).
  destruct (createRecord_read_back (demo_env 2 10) (demo_env 5 11) 1 77 77 "Qm"
              DIAGNOSIS System.init Hlt eq_refl eq_refl)
    as (Hv & _ & Hg & Hl).
  destruct (createRecord_read_back (demo_env 2 10) (demo_env 5 11) 1 77 0 "Qm"
              DIAGNOSIS System.init Hlt eq_refl eq_refl)
    as (Hv0 & _).
  split; [exact Hv|]. split; [exact Hv0|]. split; [exact Hg|].
  exact (Hl System.reachable_init 1).
Defined.

(** X12. When its patient hides a visible record, [getVisiblePatientRecords]
    loses exactly that id, and when the patient shows a hidden record the
    listing of a patient gains that id if it is in the patient's list, and
    nothing else changes. In a reachable state the id is in the list of the
    caller, who is the record's patient. *)
Theorem toggleVisibility_listing (env : Env) (sys : System.State)
    (r : uint256) (q : address) :
  let s := System.registry sys in
  let s' := snd (transact (toggleVisibility env r) s) in
  exists_ (record_of s r) = true →
  patient (record_of s r) = msg_sender env →
  (isVisible (record_of s r) = true →
   getVisiblePatientRecords s' q
   = Ok (filter (λ x, x ≠ r) (visible_ids s (getPatientRecordIds s q))))
  ∧ (isVisible (record_of s r) = false →
     ∃ l, getVisiblePatientRecords s' q = Ok l
          ∧ ∀ x, x ∈ l ↔ x ∈ visible_ids s (getPatientRecordIds s q)
                         ∨ (x = r ∧ r ∈ getPatientRecordIds s q))
  ∧ getPatientRecordIds s' q = getPatientRecordIds s q
  ∧ (System.reachable sys → r ∈ getPatientRecordIds s (msg_sender env)).
Proof.
  cbn. intros Hex Hp. unfold transact.
  rewrite RegistryFacts.toggleVisibility_run, Hex, Hp, N.eqb_refl. cbn [snd].
  unfold getPatientRecordIds.
  change (records_of_patient (toggled_state r (System.registry sys)) q)
    with (records_of_patient (System.registry sys) q).
  split; [|split; [|split]].
  - intros Hv. rewrite getVisible_run.
    change (records_of_patient (toggled_state r (System.registry sys)) q)
      with (records_of_patient (System.registry sys) q).
    f_equal. unfold visible_ids. rewrite list_filter_filter.
    apply list_filter_iff. intros x.
    rewrite RegistryFacts.record_of_toggled_state.
    case_decide as Hc.
    + subst. cbn. rewrite Hv. cbn. split; [done|]. intros [? _]. done.
    + split; [intros ?; split; [congruence|done]|by intros [_ ?]].
  - intros Hv. eexists. split; [apply getVisible_run|].
    change (records_of_patient (toggled_state r (System.registry sys)) q)
      with (records_of_patient (System.registry sys) q).
    intros x. unfold visible_ids. rewrite !list_elem_of_filter.
    rewrite RegistryFacts.record_of_toggled_state.
    case_decide as Hc.
    + subst. cbn. rewrite Hv. cbn. split; [intros [_ ?]; by right|].
      intros [[? _]|[_ ?]]; [congruence|done].
    + split; [by left|]. intros [?|[? _]]; [done|congruence].
  - reflexivity.
  - intros Hr%reachable_registry_consistent.
    by apply (patient_indexed _ Hr).
Qed.

Lemma toggleVisibility_listing_witness :
  let sys := System.run
               [(demo_env 2 10, System.CreateRecord 1 77 "Qm" DIAGNOSIS);
                (demo_env 2 11, System.CreateRecord 1 78 "Qn" DIAGNOSIS)]
               System.init in
  let s' := snd (transact (toggleVisibility (demo_env 1 20) 0)
                   (System.registry sys)) in
  getVisiblePatientRecords (System.registry sys) 1 = Ok [0; 1]
  ∧ getVisiblePatientRecords s' 1 = Ok [1].
Proof.
  cbn zeta. split; [reflexivity|].
  destruct (toggleVisibility_listing (demo_env 1 20)
              (System.run
                 [(demo_env 2 10, System.CreateRecord 1 77 "Qm" DIAGNOSIS);
                  (demo_env 2 11, System.CreateRecord 1 78 "Qn" DIAGNOSIS)]
                 System.init) 0 1 eq_refl eq_refl) as (Hhide & _).
  rewrite Hhide; reflexivity.
Defined.

(** *** The lists only grow *)

(** X13. The four index lists are append-only: whatever transactions are
    run, each patient's and each author's list of record ids, each patient's
    doctor list and each doctor's patient list keeps everything it held, in
    the same order, as a prefix. *)
Theorem lists_append_only (txs : list (Env * System.Call)) (sys : System.State)
    (a : address) :
  let sys' := System.run txs sys in
  getPatientRecordIds (System.registry sys) a
    `prefix_of` getPatientRecordIds (System.registry sys') a
  ∧ getDoctorRecordIds (System.registry sys) a
      `prefix_of` getDoctorRecordIds (System.registry sys') a
  ∧ AccessControl.getPatientDoctors (System.access sys) a
      `prefix_of` AccessControl.getPatientDoctors (System.access sys') a
  ∧ AccessControl.getDoctorPatients (System.access sys) a
      `prefix_of` AccessControl.getDoctorPatients (System.access sys') a.
Proof.
  cbn. unfold getPatientRecordIds, getDoctorRecordIds,
    AccessControl.getPatientDoctors, AccessControl.getDoctorPatients.
  revert sys. induction txs as [|[env c] txs IH]; intros sys; [done|].
  cbn [System.run].
  destruct (IH (System.step env c sys)) as (H1 & H2 & H3 & H4).
  repeat apply conj.
  - etrans; [|exact H1].
    destruct (step_registry env c sys)
      as [->|[(p & h & cid & ty & _ & _ & _ & _ & ->)|(id & _ & _ & _ & ->)]];
      [done| |done].
    rewrite RegistryFacts.patient_ids_created_state.
    case_decide; [subst; by apply prefix_app_r|done].
  - etrans; [|exact H2].
    destruct (step_registry env c sys)
      as [->|[(p & h & cid & ty & _ & _ & _ & _ & ->)|(id & _ & _ & _ & ->)]];
      [done| |done].
    rewrite RegistryFacts.doctor_ids_created_state.
    case_decide; [subst; by apply prefix_app_r|done].
  - etrans; [|exact H3].
    destruct (AccessControlFacts.step_access env c sys)
      as [->|[(d & now & e & ->)|(d & _ & ->)]]; [done| |done].
    rewrite AccessControlFacts.doctors_of_granted_state.
    case_decide as Hc; [destruct Hc as [<- _]; by apply prefix_app_r|done].
  - etrans; [|exact H4].
    destruct (AccessControlFacts.step_access env c sys)
      as [->|[(d & now & e & ->)|(d & _ & ->)]]; [done| |done].
    rewrite AccessControlFacts.patients_of_granted_state.
    case_decide as Hc; [destruct Hc as [<- _]; by apply prefix_app_r|done].
Qed.

End RegistryInvariants.

(** ** More on access control *)

Module AccessInvariants.
Import AccessControl AccessControlEffects.

(** A transaction leaves the access-control storage as it was, or writes it
    as [grantAccess] or [revokeAccess] do, after their checks. *)
Lemma step_access_checked env c sys :
  let a := System.access sys in
  let a' := System.access (System.step env c sys) in
  let p := msg_sender env in
  let now := block_timestamp env in
  a' = a
  ∨ (∃ d n,
       isPatient (identityContract env) p = true
       ∧ isVerifiedDoctor (identityContract env) d = true
       ∧ (0 < n → now + n ≤ MAX_UINT256)
       ∧ c = System.GrantAccess d n
       ∧ a' = granted_state p d now (if 0 <? n then now + n else 0) a)
  ∨ (∃ d, isPatient (identityContract env) p = true
          ∧ exists_ (grant_of a p d) = true
          ∧ c = System.RevokeAccess d
          ∧ a' = revoked_state p d a).
Proof.
  destruct c as [p h cid ty|id|d n|d]; cbn;
    unfold System.step, transact, System.dispatch, System.on_registry,
      System.on_access, bind.
  - destruct (MedicalRecordRegistry.createRecord _ _ _ _ _ _); by left.
  - destruct (MedicalRecordRegistry.toggleVisibility _ _ _); by left.
  - rewrite AccessControlFacts.grantAccess_run; cbn.
    destruct (isPatient _ _) eqn:Hp; [|by left].
    destruct (isVerifiedDoctor _ _) eqn:Hd; [|by left].
    destruct (N.ltb_spec 0 n) as [Hn|Hn].
    + destruct (N.leb_spec (block_timestamp env + n) MAX_UINT256);
        [|by left].
      right; left. exists d, n. repeat split; try done.
      cbn. by destruct (N.ltb_spec 0 n); [|lia].
    + right; left. exists d, n. repeat split; try done; [lia|].
      cbn. by destruct (N.ltb_spec 0 n); [lia|].
  - rewrite AccessControlFacts.revokeAccess_run; cbn.
    destruct (isPatient _ _) eqn:Hp; [|by left].
    destruct (exists_ _) eqn:Hex; [|by left].
    right; right. by exists d.
Qed.

Lemma reachable_grants_timed sys :
  System.reachable sys → grants_timed (System.access sys).
Proof.
  induction 1 as [|env c s _ IH].
  - intros p d. left. unfold grant_of; cbn. by rewrite lookup_empty.
  - destruct (step_access_checked env c s)
      as [->|[(d & n & _ & _ & Hn & _ & ->)|(d & _ & _ & _ & ->)]];
      [done|..]; intros p' d'; cbn.
    + rewrite AccessControlFacts.grant_of_granted_state.
      case_decide; [|apply IH]. cbn.
      destruct (N.ltb_spec 0 n) as [Hlt|]; [|by left].
      right. split; [lia|by apply Hn].
    + rewrite AccessControlFacts.grant_of_revoked_state.
      case_decide as Hc; [|apply IH]. injection Hc as <- <-. apply IH.
Qed.

(** *** Granting and revoking, then asking *)

(** X14. After a successful [grantAccess(d, n)] at time [now], [hasAccess]
    for the pair is true at [now] and at every later time when [n = 0], and
    exactly up to [now + n] otherwise, and [getAccessGrant] reports the
    stored times. The call changes the answer for no other pair. *)
Theorem grantAccess_then_hasAccess (env later : Env) (d : address)
    (n : uint256) (s : State) :
  let p := msg_sender env in
  let now := block_timestamp env in
  let t := block_timestamp later in
  let s' := snd (transact (grantAccess env d n) s) in
  isPatient (identityContract env) p = true →
  isVerifiedDoctor (identityContract env) d = true →
  (0 < n → now + n ≤ MAX_UINT256) →
  hasAccess env s' p d = true
  ∧ (n = 0 → hasAccess later s' p d = true)
  ∧ (0 < n → (hasAccess later s' p d = true ↔ t ≤ now + n))
  ∧ getAccessGrant later s' p d
    = (hasAccess later s' p d, now, (if 0 <? n then now + n else 0),
       negb (hasAccess later s' p d))
  ∧ (∀ p' d', (p', d') ≠ (p, d) →
     hasAccess later s' p' d' = hasAccess later s p' d').
Proof.
  cbn. intros Hp Hd Hn. unfold transact.
  assert (snd (match grantAccess env d n s with
               | Done a s' l => (Success a l, s')
               | Abort e _ => (Failure e, s)
               end)
          = granted_state (msg_sender env) d (block_timestamp env)
              (if 0 <? n then block_timestamp env + n else 0) s) as ->.
  { rewrite AccessControlFacts.grantAccess_run; cbn. rewrite Hp, Hd.
    destruct (N.ltb_spec 0 n) as [Hlt|]; [|done].
    apply Hn, N.leb_le in Hlt. by rewrite Hlt. }
  unfold hasAccess, getAccessGrant.
  rewrite AccessControlFacts.grant_of_granted_state, decide_True by done.
  cbn. repeat apply conj.
  - destruct (N.ltb_spec 0 n); cbn; [|done].
    destruct (N.ltb_spec 0 (block_timestamp env + n)); cbn; [|done].
    by destruct (N.ltb_spec (block_timestamp env + n) (block_timestamp env));
      [lia|].
  - by intros ->.
  - intros Hlt. destruct (N.ltb_spec 0 n); [|lia]. cbn.
    destruct (N.ltb_spec 0 (block_timestamp env + n)); [|lia]. cbn.
    destruct (N.ltb_spec (block_timestamp env + n) (block_timestamp later));
      split; intros; first [done|lia].
  - by destruct (_ && _).
  - intros p' d' Hne. rewrite AccessControlFacts.grant_of_granted_state.
    by rewrite decide_False.
Qed.

Lemma grantAccess_then_hasAccess_witness :
  let s' := snd (transact (grantAccess (demo_env 1 100) 2 3600) init) in
  hasAccess (demo_env 2 100) s' 1 2 = true
  ∧ hasAccess (demo_env 2 3700) s' 1 2 = true
  ∧ getAccessGrant (demo_env 2 3701) s' 1 2 = (false, 100, 3700, true).
Proof.
  cbn zeta.
  assert (0 < 3600 → 100 + 3600 ≤ MAX_UINT256) as Hfit
    by (intros _; vm_compute; discriminate).
  destruct (grantAccess_then_hasAccess (demo_env 1 100) (demo_env 2 3700) 2
              3600 init eq_refl eq_refl Hfit) as (Hnow & _ & Hupto & _).
  destruct (grantAccess_then_hasAccess (demo_env 1 100) (demo_env 2 3701) 2
              3600 init eq_refl eq_refl Hfit) as (_ & _ & _ & Hget & _).
  split; [exact Hnow|]. split.
  - apply Hupto; [reflexivity|]. vm_compute. discriminate.
  - etrans; [exact Hget|reflexivity].
Defined.

(** X15. After a successful [revokeAccess(d)] the doctor has no access at
    any time, whatever the expiry of the grant was, and [getAccessGrant]
    reports it as not granted; no other pair is affected. A later
    [grantAccess] by the same patient gives the access back. *)
Theorem revokeAccess_then_hasAccess (env later again : Env) (d : address)
    (n : uint256) (s : State) :
  let p := msg_sender env in
  let s' := snd (transact (revokeAccess env d) s) in
  let s'' := snd (transact (grantAccess again d n) s') in
  isPatient (identityContract env) p = true →
  exists_ (grant_of s p d) = true →
  hasAccess later s' p d = false
  ∧ fst (fst (fst (getAccessGrant later s' p d))) = false
  ∧ (∀ p' d', (p', d') ≠ (p, d) →
     hasAccess later s' p' d' = hasAccess later s p' d')
  ∧ (msg_sender again = p →
     isPatient (identityContract again) p = true →
     isVerifiedDoctor (identityContract again) d = true →
     (0 < n → block_timestamp again + n ≤ MAX_UINT256) →
     hasAccess again s'' p d = true
     ∧ getPatientDoctors s'' p = getPatientDoctors s p
     ∧ getDoctorPatients s'' d = getDoctorPatients s d).
Proof.
  cbn. intros Hp Hex.
  assert (snd (transact (revokeAccess env d) s)
          = revoked_state (msg_sender env) d s) as ->.
  { unfold transact. rewrite AccessControlFacts.revokeAccess_run; cbn.
    by rewrite Hp, Hex. }
  assert (grant_of (revoked_state (msg_sender env) d s) (msg_sender env) d
          = set_isGranted false (grant_of s (msg_sender env) d)) as Hg.
  { rewrite AccessControlFacts.grant_of_revoked_state. by rewrite decide_True. }
  repeat apply conj.
  - unfold hasAccess. rewrite Hg. cbn. by rewrite orb_true_r.
  - unfold getAccessGrant. by rewrite Hg.
  - intros p' d' Hne. unfold hasAccess.
    rewrite AccessControlFacts.grant_of_revoked_state.
    by rewrite decide_False.
  - intros Hs Hp' Hd' Hn.
    assert (snd (transact (grantAccess again d n)
                   (revoked_state (msg_sender env) d s))
            = granted_state (msg_sender env) d (block_timestamp again)
                (if 0 <? n then block_timestamp again + n else 0)
                (revoked_state (msg_sender env) d s)) as ->.
    { unfold transact. rewrite AccessControlFacts.grantAccess_run; cbn.
      rewrite Hs, Hp', Hd'.
      destruct (N.ltb_spec 0 n) as [Hlt|]; [|done].
      apply Hn, N.leb_le in Hlt. by rewrite Hlt. }
    unfold getPatientDoctors, getDoctorPatients.
    rewrite AccessControlFacts.doctors_of_granted_state,
      AccessControlFacts.patients_of_granted_state, Hg.
    cbn [set_isGranted exists_]. rewrite Hex.
    rewrite !decide_False by (intros [_ ?]; congruence).
    split; [|done].
    unfold hasAccess.
    rewrite AccessControlFacts.grant_of_granted_state, decide_True by done.
    cbn.
    destruct (N.ltb_spec 0 n); cbn; [|done].
    destruct (N.ltb_spec 0 (block_timestamp again + n)); cbn; [|done].
    by destruct (N.ltb_spec (block_timestamp again + n) (block_timestamp again));
      [lia|].
Qed.

Lemma revokeAccess_then_hasAccess_witness :
  let s := snd (transact (grantAccess (demo_env 1 100) 2 0) init) in
  let s' := snd (transact (revokeAccess (demo_env 1 200) 2) s) in
  let s'' := snd (transact (grantAccess (demo_env 1 300) 2 0) s') in
  hasAccess (demo_env 2 150) s 1 2 = true
  ∧ hasAccess (demo_env 2 250) s' 1 2 = false
  ∧ hasAccess (demo_env 1 300) s'' 1 2 = true
  ∧ getDoctorPatients s'' 2 = [1].
Proof.
  cbn zeta. split; [reflexivity|].
  destruct (revokeAccess_then_hasAccess (demo_env 1 200) (demo_env 2 250)
              (demo_env 1 300) 2 0
              (snd (transact (grantAccess (demo_env 1 100) 2 0) init))
              eq_refl eq_refl) as (Hno & _ & _ & Hagain).
  split; [exact Hno|].
  destruct Hagain as (Hyes & _ & Hl); [reflexivity..|lia|].
  split; [exact Hyes|]. rewrite Hl. reflexivity.
Defined.

(** *** Who can change a grant *)

(** X16. A transaction changes grants of its sender only: for a patient [p]
    other than [msg.sender], no call to either contract changes a grant
    record of [p], the answer of [hasAccess] for [p] at any time, or the
    doctor list of [p]. *)
Theorem grants_of_others_untouched (env later : Env) (c : System.Call)
    (sys : System.State) (p d : address) :
  let s := System.access sys in
  let s' := System.access (System.step env c sys) in
  p ≠ msg_sender env →
  grant_of s' p d = grant_of s p d
  ∧ hasAccess later s' p d = hasAccess later s p d
  ∧ getAccessGrant later s' p d = getAccessGrant later s p d
  ∧ getPatientDoctors s' p = getPatientDoctors s p.
Proof.
  cbn. intros Hne.
  assert (grant_of (System.access (System.step env c sys)) p d
          = grant_of (System.access sys) p d
          ∧ doctors_of (System.access (System.step env c sys)) p
            = doctors_of (System.access sys) p) as [Hg Hl].
  { destruct (step_access_checked env c sys)
      as [->|[(d' & n & _ & _ & _ & _ & ->)|(d' & _ & _ & _ & ->)]]; [done|..].
    - rewrite AccessControlFacts.grant_of_granted_state,
        AccessControlFacts.doctors_of_granted_state.
      rewrite !decide_False; [done|intros [? _]; congruence|congruence].
    - rewrite AccessControlFacts.grant_of_revoked_state.
      rewrite decide_False; [done|congruence]. }
  unfold hasAccess, getAccessGrant, getPatientDoctors. by rewrite Hg, Hl.
Qed.

Lemma grants_of_others_untouched_witness :
  let sys := System.run [(demo_env 1 100, System.GrantAccess 2 0)]
               System.init in
  hasAccess (demo_env 2 300)
    (System.access (System.step (demo_env 2 200) (System.RevokeAccess 2) sys))
    1 2 = true.
Proof.
  cbn zeta.
  destruct (grants_of_others_untouched (demo_env 2 200) (demo_env 2 300)
              (System.RevokeAccess 2)
              (System.run [(demo_env 1 100, System.GrantAccess 2 0)]
                 System.init) 1 2) as (_ & Hh & _); [discriminate|].
  rewrite Hh. reflexivity.
Defined.

(** *** Reachable grants *)

(** X17. In every reachable state [getAccessGrant] and [hasAccess] agree on
    whether the pair has access, a granted record exists, and a grant either
    never expires or expires after the time it was given and within
    [uint256]. *)
Theorem reachable_grant_spec (env : Env) (sys : System.State) (p d : address) :
  let s := System.access sys in
  let g := grant_of s p d in
  System.reachable sys →
  fst (fst (fst (getAccessGrant env s p d))) = hasAccess env s p d
  ∧ (isGranted g = true → exists_ g = true)
  ∧ (expiresAt g = 0 ∨ (grantedAt g < expiresAt g ∧ expiresAt g ≤ MAX_UINT256)).
Proof.
  cbn. intros Hr.
  pose proof (AccessControlFacts.reachable_consistent _ Hr) as Hc.
  assert (isGranted (grant_of (System.access sys) p d) = true →
          exists_ (grant_of (System.access sys) p d) = true) as Hge.
  { destruct (exists_ (grant_of (System.access sys) p d)) eqn:Hex; [done|].
    by rewrite (AccessControlFacts.consistent_no_record _ _ _ Hc Hex). }
  split; [|split; [exact Hge|apply (reachable_grants_timed _ Hr)]].
  unfold getAccessGrant, hasAccess. cbn.
  destruct (isGranted (grant_of (System.access sys) p d)) eqn:Hg.
  - rewrite Hge by done. cbn. by destruct (_ && _).
  - cbn. by rewrite orb_true_r.
Qed.

Lemma reachable_grant_spec_witness :
  let sys := System.run [(demo_env 1 100, System.GrantAccess 2 3600);
                         (demo_env 1 200, System.RevokeAccess 2)]
               System.init in
  fst (fst (fst (getAccessGrant (demo_env 2 300) (System.access sys) 1 2)))
  = hasAccess (demo_env 2 300) (System.access sys) 1 2
  ∧ grantedAt (grant_of (System.access sys) 1 2)
    < expiresAt (grant_of (System.access sys) 1 2).
Proof.
  cbn zeta.
  destruct (reachable_grant_spec (demo_env 2 300)
              (System.run [(demo_env 1 100, System.GrantAccess 2 3600);
                           (demo_env 1 200, System.RevokeAccess 2)]
                 System.init) 1 2) as (Hsame & _ & Htime).
  { apply RegistryInvariants.run_reachable, System.reachable_init. }
  split; [exact Hsame|].
  destruct Htime as [H0|[Hlt _]]; [discriminate H0|exact Hlt].
Defined.

(** X18. In every reachable state the two reverse indexes mirror each other:
    [d] is in [getPatientDoctors(p)] exactly when [p] is in
    [getDoctorPatients(d)], which is exactly when the pair has a grant
    record; and a doctor who has access is in the patient's list. *)
Theorem reverse_indexes_spec (env : Env) (sys : System.State) (p d : address) :
  let s := System.access sys in
  System.reachable sys →
  (d ∈ getPatientDoctors s p ↔ p ∈ getDoctorPatients s d)
  ∧ (d ∈ getPatientDoctors s p ↔ exists_ (grant_of s p d) = true)
  ∧ (hasAccess env s p d = true →
     d ∈ getPatientDoctors s p ∧ p ∈ getDoctorPatients s d).
Proof.
  cbn. intros Hc%AccessControlFacts.reachable_consistent.
  unfold getPatientDoctors, getDoctorPatients.
  pose proof (doctors_indexed _ Hc p d) as Hd.
  pose proof (patients_indexed _ Hc p d) as Hp.
  split; [by rewrite Hd, Hp|]. split; [done|].
  rewrite AccessControlFacts.hasAccess_active. intros [Hex _]%andb_true_iff.
  split; [by apply Hd|by apply Hp].
Qed.

Lemma reverse_indexes_spec_witness :
  let sys := System.run [(demo_env 1 100, System.GrantAccess 2 3600)]
               System.init in
  2 ∈ getPatientDoctors (System.access sys) 1
  ∧ 1 ∈ getDoctorPatients (System.access sys) 2.
Proof.
  cbn zeta.
  destruct (reverse_indexes_spec (demo_env 2 150)
              (System.run [(demo_env 1 100, System.GrantAccess 2 3600)]
                 System.init) 1 2) as (_ & _ & Hin).
  { apply RegistryInvariants.run_reachable, System.reachable_init. }
  apply Hin. reflexivity.
Defined.

(** *** Time *)

Lemma length_filter_mono {A} (P Q : A → Prop) `{!∀ x, Decision (P x)}
    `{!∀ x, Decision (Q x)} (l : list A) :
  (∀ x, P x → Q x) → (length (filter P l) ≤ length (filter Q l))%nat.
Proof.
  intros HPQ. induction l as [|x l IH]; [done|].
  rewrite !filter_cons.
  destruct (decide (P x)) as [HP|HP].
  - rewrite decide_True by auto. cbn. lia.
  - destruct (decide (Q x)); cbn; lia.
Qed.

Lemma active_earlier (t1 t2 : uint256) g :
  t1 ≤ t2 → active t2 g = true → active t1 g = true.
Proof.
  unfold active. intros Ht.
  destruct (isGranted g); [|done]. cbn.
  destruct (N.eqb_spec (expiresAt g) 0); [done|]. cbn.
  intros ?%N.leb_le. apply N.leb_le. lia.
Qed.

(** X19. On one and the same storage, access can only be lost as time
    passes: a pair that has access at a time has it at every earlier time,
    and [getActivePatientCount] at a later time is at most what it is at an
    earlier one, which is at most the length of the doctor's patient
    list. *)
Theorem expiry_monotone (earlier later : Env) (s : State) (p d : address) :
  block_timestamp earlier ≤ block_timestamp later →
  (hasAccess later s p d = true → hasAccess earlier s p d = true)
  ∧ getActivePatientCount later s d ≤ getActivePatientCount earlier s d
  ∧ getActivePatientCount earlier s d
    ≤ N.of_nat (length (getDoctorPatients s d)).
Proof.
  intros Ht. repeat apply conj.
  - rewrite !AccessControlFacts.hasAccess_active.
    intros [-> Ha]%andb_true_iff. cbn. by apply (active_earlier _ _ _ Ht).
  - unfold getActivePatientCount.
    rewrite !AccessControlFacts.count_fold, !N.add_0_l.
    pose proof (length_filter_mono
                  (λ x, active (block_timestamp later) (grant_of s x d) = true)
                  (λ x, active (block_timestamp earlier) (grant_of s x d) = true)
                  (patients_of s d)) as Hle.
    cbn in Hle. specialize (Hle (λ x, active_earlier _ _ _ Ht)). lia.
  - unfold getActivePatientCount, getDoctorPatients.
    rewrite AccessControlFacts.count_fold, N.add_0_l.
    pose proof (length_filter
                  (λ x, active (block_timestamp earlier) (grant_of s x d) = true)
                  (patients_of s d)) as Hle.
    lia.
Qed.

Lemma expiry_monotone_witness :
  let s := snd (transact (grantAccess (demo_env 1 100) 2 3600) init) in
  getActivePatientCount (demo_env 2 3701) s 2
  ≤ getActivePatientCount (demo_env 2 3700) s 2
  ∧ getActivePatientCount (demo_env 2 3700) s 2 = 1
  ∧ getActivePatientCount (demo_env 2 3701) s 2 = 0.
Proof.
  cbn zeta.
  destruct (expiry_monotone (demo_env 2 3700) (demo_env 2 3701)
              (snd (transact (grantAccess (demo_env 1 100) 2 3600) init)) 1 2)
    as (_ & Hle & _).
  { vm_compute. discriminate. }
  split; [exact Hle|]. split; reflexivity.
Defined.

(** *** Granting again *)

Lemma granted_state_twice p d t1 e1 t2 e2 s :
  granted_state p d t2 e2 (granted_state p d t1 e1 s) = granted_state p d t2 e2 s.
Proof.
  unfold granted_state at 1.
  rewrite AccessControlFacts.grant_of_granted_state, decide_True by done.
  cbn [exists_]. unfold granted_state.
  destruct (exists_ (grant_of s p d)); unfold set_grant, push_doctorPatients,
    push_patientDoctors; cbn; by rewrite insert_insert_eq.
Qed.

(** X20. The last grant wins: when a patient grants the same doctor access
    twice in a row, the storage after the second call is what the second
    call alone would have written, with one entry for the pair in each
    list. *)
Theorem grantAccess_twice (env1 env2 : Env) (d : address) (n1 n2 : uint256)
    (s : State) :
  let p := msg_sender env1 in
  let s1 := snd (transact (grantAccess env1 d n1) s) in
  msg_sender env2 = p →
  isPatient (identityContract env1) p = true →
  isVerifiedDoctor (identityContract env1) d = true →
  isPatient (identityContract env2) p = true →
  isVerifiedDoctor (identityContract env2) d = true →
  (0 < n1 → block_timestamp env1 + n1 ≤ MAX_UINT256) →
  (0 < n2 → block_timestamp env2 + n2 ≤ MAX_UINT256) →
  snd (transact (grantAccess env2 d n2) s1)
  = snd (transact (grantAccess env2 d n2) s)
  ∧ getPatientDoctors (snd (transact (grantAccess env2 d n2) s1)) p
    = getPatientDoctors s1 p
  ∧ getDoctorPatients (snd (transact (grantAccess env2 d n2) s1)) d
    = getDoctorPatients s1 d.
Proof.
  cbn. intros Hs Hp1 Hd1 Hp2 Hd2 Hn1 Hn2.
  assert (∀ s0, snd (transact (grantAccess env1 d n1) s0)
                = granted_state (msg_sender env1) d (block_timestamp env1)
                    (if 0 <? n1 then block_timestamp env1 + n1 else 0) s0)
    as Hrun1.
  { intros s0. unfold transact.
    rewrite AccessControlFacts.grantAccess_run; cbn. rewrite Hp1, Hd1.
    destruct (N.ltb_spec 0 n1) as [Hlt|]; [|done].
    apply Hn1, N.leb_le in Hlt. by rewrite Hlt. }
  assert (∀ s0, snd (transact (grantAccess env2 d n2) s0)
                = granted_state (msg_sender env1) d (block_timestamp env2)
                    (if 0 <? n2 then block_timestamp env2 + n2 else 0) s0)
    as Hrun2.
  { intros s0. unfold transact.
    rewrite AccessControlFacts.grantAccess_run; cbn. rewrite Hs, Hp2, Hd2.
    destruct (N.ltb_spec 0 n2) as [Hlt|]; [|done].
    apply Hn2, N.leb_le in Hlt. by rewrite Hlt. }
  rewrite !Hrun2, Hrun1. split; [apply granted_state_twice|].
  unfold getPatientDoctors, getDoctorPatients.
  set (s1 := granted_state (msg_sender env1) d (block_timestamp env1)
               (if 0 <? n1 then block_timestamp env1 + n1 else 0) s).
  assert (exists_ (grant_of s1 (msg_sender env1) d) = true) as Hex.
  { unfold s1. rewrite AccessControlFacts.grant_of_granted_state.
    by rewrite decide_True. }
  rewrite AccessControlFacts.doctors_of_granted_state,
    AccessControlFacts.patients_of_granted_state.
  by rewrite !decide_False by (intros [_ ?]; congruence).
Qed.

Lemma grantAccess_twice_witness :
  let s1 := snd (transact (grantAccess (demo_env 1 100) 2 3600) init) in
  let s2 := snd (transact (grantAccess (demo_env 1 200) 2 0) s1) in
  s2 = snd (transact (grantAccess (demo_env 1 200) 2 0) init)
  ∧ getDoctorPatients s2 2 = [1].
Proof.
  cbn zeta.
  destruct (grantAccess_twice (demo_env 1 100) (demo_env 1 200) 2 3600 0 init)
    as (Hsame & _ & Hl); try reflexivity.
  - intros _. vm_compute. discriminate.
  - lia.
  - split; [exact Hsame|]. etrans; [exact Hl|reflexivity].
Defined.

End AccessInvariants.

(** ** The three contracts together *)

Module DeploymentFacts.
Import Deployment.

Lemma step_identity_written sender now c st :
  IdentityEffects.written (env_at sender now st) (identity st)
    (identity (step sender now c st)).
Proof.
  destruct c as [c|c]; cbn; [apply IdentityFacts.step_written|constructor].
Qed.

Lemma reachable_identity st :
  reachable st → HealthSecureIdentity.reachable (identity st).
Proof.
  induction 1 as [deployer|sender now c st _ IH|o st _ IH].
  - constructor.
  - destruct c as [c|c]; cbn; [by constructor|done].
  - by constructor.
Qed.

Lemma reachable_contracts st :
  reachable st → System.reachable (contracts st).
Proof.
  induction 1 as [deployer|sender now c st _ IH|o st _ IH].
  - constructor.
  - destruct c as [c|c]; cbn; [done|by constructor].
  - done.
Qed.

Lemma deployment_run_reachable txs st : reachable st → reachable (run txs st).
Proof.
  revert st. induction txs as [|[[sender now] c] txs IH]; intros st Hr; [done|].
  cbn. apply IH. by constructor.
Qed.

Lemma demo_deployment_reachable : reachable demo_deployment.
Proof. apply deployment_run_reachable. constructor. Qed.

(** The failure of each call to the two clients, check by check. *)
Lemma failure_createRecord env p h cid ty sys :
  System.failure env (System.CreateRecord p h cid ty) sys =
  if isVerifiedDoctor (identityContract env) (msg_sender env) then
    if isPatient (identityContract env) p then
      if MedicalRecordRegistry.recordCount (System.registry sys) + 1
         <=? MAX_UINT256
      then None else Some (Panic PANIC_ARITHMETIC)
    else Some (Revert "Patient not registered")
  else Some (Revert "Only verified doctors can create records").
Proof.
  unfold System.failure, transact, System.dispatch, System.on_registry, bind.
  rewrite RegistryFacts.createRecord_run.
  destruct (isVerifiedDoctor _ _); [|done].
  destruct (isPatient _ _); [|done].
  by destruct (_ <=? _).
Qed.

Lemma failure_grantAccess env d n sys :
  System.failure env (System.GrantAccess d n) sys =
  if isPatient (identityContract env) (msg_sender env) then
    if isVerifiedDoctor (identityContract env) d then
      if (0 <? n) && negb (block_timestamp env + n <=? MAX_UINT256)
      then Some (Panic PANIC_ARITHMETIC) else None
    else Some (Revert "Target is not a verified doctor")
  else Some (Revert "Only patients can grant access").
Proof.
  unfold System.failure, transact, System.dispatch, System.on_access, bind.
  rewrite AccessControlFacts.grantAccess_run. cbn.
  destruct (isPatient _ _); [|done].
  destruct (isVerifiedDoctor _ _); [|done].
  destruct (0 <? n); [|done]. by destruct (_ <=? _).
Qed.

Lemma failure_revokeAccess env d sys :
  System.failure env (System.RevokeAccess d) sys =
  if isPatient (identityContract env) (msg_sender env) then
    if AccessControl.exists_
         (AccessControl.grant_of (System.access sys) (msg_sender env) d)
    then None else Some (Revert "No access grant found")
  else Some (Revert "Only patients can revoke access").
Proof.
  unfold System.failure, transact, System.dispatch, System.on_access, bind.
  rewrite AccessControlFacts.revokeAccess_run. cbn.
  destruct (isPatient _ _); [|done].
  by destruct (AccessControl.exists_ _).
Qed.

(** *** Identities are permanent *)

(** X21. Whatever transactions are run on the three contracts, a registered
    identity keeps its hash, its role and its registration time, and a
    verification is never taken back: an address that is a patient stays a
    patient, and a verified doctor stays a verified doctor. *)
Theorem identity_permanent (txs : list (address * uint256 * Call))
    (st : State) (a : address) :
  let s := identity st in
  let s' := identity (run txs st) in
  (HealthSecureIdentity.exists_ (HealthSecureIdentity.identity_of s a) = true →
   HealthSecureIdentity.identityHash (HealthSecureIdentity.identity_of s' a)
   = HealthSecureIdentity.identityHash (HealthSecureIdentity.identity_of s a)
   ∧ HealthSecureIdentity.role (HealthSecureIdentity.identity_of s' a)
     = HealthSecureIdentity.role (HealthSecureIdentity.identity_of s a)
   ∧ HealthSecureIdentity.registeredAt (HealthSecureIdentity.identity_of s' a)
     = HealthSecureIdentity.registeredAt (HealthSecureIdentity.identity_of s a)
   ∧ HealthSecureIdentity.exists_ (HealthSecureIdentity.identity_of s' a) = true)
  ∧ (HealthSecureIdentity.isPatient s a = true →
     HealthSecureIdentity.isPatient s' a = true)
  ∧ (HealthSecureIdentity.isVerifiedDoctor s a = true →
     HealthSecureIdentity.isVerifiedDoctor s' a = true).
Proof.
  cbn. revert st. induction txs as [|[[sender now] c] txs IH]; intros st.
  - done.
  - cbn [run]. destruct (IH (step sender now c st)) as (Hk & Hp & Hd).
    pose proof (step_identity_written sender now c st) as Hw.
    split; [|split].
    + intros Hex.
      destruct (IdentityFacts.written_kept _ _ _ a Hw Hex)
        as (Hh & Hr & Ht & Hex' & _).
      rewrite Hex in Hex'. destruct (Hk Hex') as (-> & -> & -> & ->).
      done.
    + intros H. by apply Hp, (IdentityFacts.written_isPatient _ _ _ _ Hw).
    + intros H.
      by apply Hd, (IdentityFacts.written_isVerifiedDoctor _ _ _ _ Hw).
Qed.

Lemma identity_permanent_witness :
  let txs := [(2, 30, IdentityCall (HealthSecureIdentity.UpdateProfile "QmD2"));
              (2, 31, IdentityCall
                        (HealthSecureIdentity.RegisterPatient 55 "HID-9" "Qm"));
              (9, 32, IdentityCall (HealthSecureIdentity.VerifyDoctor 3))] in
  HealthSecureIdentity.isVerifiedDoctor (identity (run txs demo_deployment)) 2
  = true
  ∧ HealthSecureIdentity.isPatient (identity (run txs demo_deployment)) 1 = true
  ∧ HealthSecureIdentity.isPatient (identity (run txs demo_deployment)) 2 = false.
Proof.
  cbn zeta.
  destruct (identity_permanent
              [(2, 30, IdentityCall (HealthSecureIdentity.UpdateProfile "QmD2"));
               (2, 31, IdentityCall
                         (HealthSecureIdentity.RegisterPatient 55 "HID-9" "Qm"));
               (9, 32, IdentityCall (HealthSecureIdentity.VerifyDoctor 3))]
              demo_deployment 2) as (_ & _ & Hd).
  destruct (identity_permanent
              [(2, 30, IdentityCall (HealthSecureIdentity.UpdateProfile "QmD2"));
               (2, 31, IdentityCall
                         (HealthSecureIdentity.RegisterPatient 55 "HID-9" "Qm"));
               (9, 32, IdentityCall (HealthSecureIdentity.VerifyDoctor 3))]
              demo_deployment 1) as (_ & Hp & _).
  split; [apply Hd; reflexivity|]. split; [apply Hp; reflexivity|].
  reflexivity.
Defined.

(** *** Parties stay registered *)

Lemma init_parties deployer : parties_registered (init deployer).
Proof.
  split; cbn.
  - intros id. unfold MedicalRecordRegistry.record_of; cbn.
    by rewrite lookup_empty.
  - intros p d. unfold AccessControl.grant_of; cbn. by rewrite lookup_empty.
Qed.

Lemma set_owner_parties o st :
  parties_registered st → parties_registered (set_owner o st).
Proof. intros [Hr Hg]. split; [exact Hr|exact Hg]. Qed.

Lemma step_parties sender now c st :
  parties_registered st → parties_registered (step sender now c st).
Proof.
  intros [Hrec Hgr]. destruct c as [c|c].
  - (* a call to the identity contract *)
    pose proof (IdentityFacts.step_written (env_at sender now st) c
                  (identity st)) as Hw.
    split; cbn.
    + intros id Hex. destruct (Hrec id Hex) as [Hd Hp]. split.
      * by apply (IdentityFacts.written_isVerifiedDoctor _ _ _ _ Hw).
      * by apply (IdentityFacts.written_isPatient _ _ _ _ Hw).
    + intros p d Hex. destruct (Hgr p d Hex) as [Hp Hd]. split.
      * by apply (IdentityFacts.written_isPatient _ _ _ _ Hw).
      * by apply (IdentityFacts.written_isVerifiedDoctor _ _ _ _ Hw).
  - (* a call to the registry or to the access-control contract *)
    split; cbn.
    + intros id.
      destruct (RegistryInvariants.step_registry (env_at sender now st) c
                  (contracts st))
        as [->|[(p & h & cid & ty & _ & Hd & Hp & _ & ->)
               |(id' & _ & _ & _ & ->)]].
      * apply Hrec.
      * rewrite RegistryFacts.record_of_created_state.
        case_decide; [|apply Hrec]. intros _. by split.
      * rewrite RegistryFacts.record_of_toggled_state.
        case_decide; [subst; apply Hrec|apply Hrec].
    + intros p d.
      destruct (AccessInvariants.step_access_checked (env_at sender now st) c
                  (contracts st))
        as [->|[(d' & n & Hp & Hd & _ & _ & ->)|(d' & _ & _ & _ & ->)]].
      * apply Hgr.
      * rewrite AccessControlFacts.grant_of_granted_state.
        case_decide as Hc; [|apply Hgr]. injection Hc as <- <-.
        intros _. by split.
      * rewrite AccessControlFacts.grant_of_revoked_state.
        case_decide as Hc; [|apply Hgr]. injection Hc as <- <-. apply Hgr.
Qed.

Lemma reachable_parties st : reachable st → parties_registered st.
Proof.
  induction 1 as [deployer|sender now c st _ IH|o st _ IH].
  - apply init_parties.
  - by apply step_parties.
  - by apply set_owner_parties.
Qed.

(** X22. In every reachable state of a deployment the author of every record
    is a verified doctor and its patient a registered patient, not only when
    the record was created but still; likewise both parties of every grant,
    so every address in a doctor list is a verified doctor and every address
    in a patient list a patient. *)
Theorem parties_stay_registered (st : State) (id : uint256) (p d : address) :
  let ids := identity st in
  let reg := System.registry (contracts st) in
  let acc := System.access (contracts st) in
  reachable st →
  (id < MedicalRecordRegistry.getTotalRecords reg →
   HealthSecureIdentity.isVerifiedDoctor ids
     (MedicalRecordRegistry.doctor (MedicalRecordRegistry.record_of reg id))
   = true
   ∧ HealthSecureIdentity.isPatient ids
       (MedicalRecordRegistry.patient (MedicalRecordRegistry.record_of reg id))
     = true)
  ∧ (id ∈ MedicalRecordRegistry.getDoctorRecordIds reg d →
     HealthSecureIdentity.isVerifiedDoctor ids d = true)
  ∧ (id ∈ MedicalRecordRegistry.getPatientRecordIds reg p →
     HealthSecureIdentity.isPatient ids p = true)
  ∧ (d ∈ AccessControl.getPatientDoctors acc p →
     HealthSecureIdentity.isPatient ids p = true
     ∧ HealthSecureIdentity.isVerifiedDoctor ids d = true)
  ∧ (p ∈ AccessControl.getDoctorPatients acc d →
     HealthSecureIdentity.isPatient ids p = true
     ∧ HealthSecureIdentity.isVerifiedDoctor ids d = true).
Proof.
  cbn. intros Hr.
  pose proof (reachable_parties st Hr) as [Hrec Hgr].
  pose proof (RegistryInvariants.reachable_registry_consistent _
                (reachable_contracts st Hr)) as Hrc.
  pose proof (AccessControlFacts.reachable_consistent _
                (reachable_contracts st Hr)) as Hac.
  unfold MedicalRecordRegistry.getTotalRecords,
    MedicalRecordRegistry.getDoctorRecordIds,
    MedicalRecordRegistry.getPatientRecordIds,
    AccessControl.getPatientDoctors, AccessControl.getDoctorPatients.
  repeat apply conj.
  - intros Hlt%(allocated_below_count _ Hrc). by apply Hrec.
  - intros [Hex <-]%(doctor_indexed _ Hrc). by apply Hrec.
  - intros [Hex <-]%(patient_indexed _ Hrc). by apply Hrec.
  - intros Hex%(doctors_indexed _ Hac). by apply Hgr.
  - intros Hex%(patients_indexed _ Hac). by apply Hgr.
Qed.

Lemma parties_stay_registered_witness :
  let st := run [(2, 10, ContractCall
                           (System.CreateRecord 1 77 "Qm"
                              MedicalRecordRegistry.DIAGNOSIS));
                 (1, 20, ContractCall (System.GrantAccess 2 0));
                 (2, 30, IdentityCall
                           (HealthSecureIdentity.UpdateProfile "QmD2"))]
              demo_deployment in
  HealthSecureIdentity.isVerifiedDoctor (identity st)
    (MedicalRecordRegistry.doctor
       (MedicalRecordRegistry.record_of (System.registry (contracts st)) 0))
  = true
  ∧ HealthSecureIdentity.isPatient (identity st) 1 = true.
Proof.
  cbn zeta.
  destruct (parties_stay_registered
              (run [(2, 10, ContractCall
                              (System.CreateRecord 1 77 "Qm"
                                 MedicalRecordRegistry.DIAGNOSIS));
                    (1, 20, ContractCall (System.GrantAccess 2 0));
                    (2, 30, IdentityCall
                              (HealthSecureIdentity.UpdateProfile "QmD2"))]
                 demo_deployment) 0 1 2)
    as (Hrec & _ & _ & Hl & _).
  { apply deployment_run_reachable, demo_deployment_reachable. }
  split.
  - apply Hrec. vm_compute. reflexivity.
  - apply Hl. vm_compute. apply list_elem_of_here.
Defined.

(** *** Roles at the two clients *)

(** X23. A doctor who has registered but is not verified can neither create
    records nor be granted access: [createRecord] from that address fails
    with "Only verified doctors can create records" and a patient's
    [grantAccess] to it with "Target is not a verified doctor". Once the
    owner has verified the doctor, [createRecord] for a registered patient
    goes through, unless the counter is at [2^256 - 1]. *)
Theorem unverified_doctor_blocked (st : State) (c q p : address)
    (now now' now'' : uint256) (h : bytes32) (cid : string)
    (ty : MedicalRecordRegistry.RecordType) (n : uint256) :
  let i := HealthSecureIdentity.identity_of (identity st) c in
  let st' := step (HealthSecureIdentity.owner (identity st)) now'
               (IdentityCall (HealthSecureIdentity.VerifyDoctor c)) st in
  HealthSecureIdentity.exists_ i = true →
  HealthSecureIdentity.role i = HealthSecureIdentity.DOCTOR →
  HealthSecureIdentity.isVerified i = false →
  System.failure (env_at c now st) (System.CreateRecord p h cid ty)
    (contracts st)
  = Some (Revert "Only verified doctors can create records")
  ∧ (HealthSecureIdentity.isPatient (identity st) q = true →
     System.failure (env_at q now st) (System.GrantAccess c n) (contracts st)
     = Some (Revert "Target is not a verified doctor"))
  ∧ (HealthSecureIdentity.isPatient (identity st) p = true →
     MedicalRecordRegistry.recordCount (System.registry (contracts st))
     < MAX_UINT256 →
     System.failure (env_at c now'' st') (System.CreateRecord p h cid ty)
       (contracts st') = None).
Proof.
  cbn. intros Hex Hr Hv.
  assert (HealthSecureIdentity.isVerifiedDoctor (identity st) c = false) as Hno.
  { unfold HealthSecureIdentity.isVerifiedDoctor. rewrite Hv.
    by rewrite andb_false_r. }
  repeat apply conj.
  - rewrite failure_createRecord. cbn. by rewrite Hno.
  - intros Hq. rewrite failure_grantAccess. cbn. by rewrite Hq, Hno.
  - intros Hp Hlt. rewrite failure_createRecord. cbn.
    unfold HealthSecureIdentity.step, transact. cbn.
    rewrite IdentityFacts.verifyDoctor_run. cbn.
    rewrite N.eqb_refl, Hex, Hr, Hv.
    rewrite bool_decide_eq_true_2 by done. cbn.
    assert (HealthSecureIdentity.isVerifiedDoctor
              (IdentityEffects.doctor_verified c (identity st)) c = true) as ->.
    { apply IdentityFacts.isVerifiedDoctor_true.
      rewrite IdentityFacts.identity_of_doctor_verified, decide_True by done.
      cbn. by rewrite Hex, Hr. }
    assert (HealthSecureIdentity.isPatient
              (IdentityEffects.doctor_verified c (identity st)) p = true) as ->.
    { apply (IdentityFacts.written_isPatient
               (env_at (HealthSecureIdentity.owner (identity st)) now' st)
               (identity st)); [|done].
      by apply IdentityEffects.written_verified. }
    by destruct (N.leb_spec
                   (MedicalRecordRegistry.recordCount
                      (System.registry (contracts st)) + 1) MAX_UINT256);
      [|lia].
Qed.

Lemma unverified_doctor_blocked_witness :
  System.failure (env_at 3 40 demo_deployment)
    (System.CreateRecord 1 77 "Qm" MedicalRecordRegistry.DIAGNOSIS)
    (contracts demo_deployment)
  = Some (Revert "Only verified doctors can create records")
  ∧ System.failure
      (env_at 3 42
         (step 9 41 (IdentityCall (HealthSecureIdentity.VerifyDoctor 3))
            demo_deployment))
      (System.CreateRecord 1 77 "Qm" MedicalRecordRegistry.DIAGNOSIS)
      (contracts
         (step 9 41 (IdentityCall (HealthSecureIdentity.VerifyDoctor 3))
            demo_deployment))
    = None.
Proof.
  destruct (unverified_doctor_blocked demo_deployment 3 1 1 40 41 42 77 "Qm"
              MedicalRecordRegistry.DIAGNOSIS 0 eq_refl eq_refl eq_refl)
    as (Hno & _ & Hyes).
  split; [exact Hno|]. apply Hyes; [reflexivity|]. vm_compute. reflexivity.
Defined.

(** X24. The two roles never mix. A patient cannot create records and cannot
    be the target of a grant; a verified doctor cannot grant or revoke
    access and cannot be the patient of a record. No address is both. *)
Theorem roles_separate (st : State) (a b : address) (now : uint256)
    (h : bytes32) (cid : string) (ty : MedicalRecordRegistry.RecordType)
    (n : uint256) :
  let ids := identity st in
  (HealthSecureIdentity.isPatient ids a = true →
   HealthSecureIdentity.isVerifiedDoctor ids a = false
   ∧ System.failure (env_at a now st) (System.CreateRecord b h cid ty)
       (contracts st)
     = Some (Revert "Only verified doctors can create records")
   ∧ (HealthSecureIdentity.isPatient ids b = true →
      System.failure (env_at b now st) (System.GrantAccess a n) (contracts st)
      = Some (Revert "Target is not a verified doctor")))
  ∧ (HealthSecureIdentity.isVerifiedDoctor ids a = true →
     HealthSecureIdentity.isPatient ids a = false
     ∧ System.failure (env_at a now st) (System.GrantAccess b n) (contracts st)
       = Some (Revert "Only patients can grant access")
     ∧ System.failure (env_at a now st) (System.RevokeAccess b) (contracts st)
       = Some (Revert "Only patients can revoke access")
     ∧ (HealthSecureIdentity.isVerifiedDoctor ids b = true →
        System.failure (env_at b now st) (System.CreateRecord a h cid ty)
          (contracts st)
        = Some (Revert "Patient not registered"))).
Proof.
  cbn. split.
  - intros Hp.
    assert (HealthSecureIdentity.isVerifiedDoctor (identity st) a = false)
      as Hd.
    { apply IdentityFacts.isPatient_true in Hp as [_ Hr].
      unfold HealthSecureIdentity.isVerifiedDoctor. rewrite Hr.
      by rewrite andb_false_r. }
    split; [exact Hd|]. split.
    + rewrite failure_createRecord. cbn. by rewrite Hd.
    + intros Hb. rewrite failure_grantAccess. cbn. by rewrite Hb, Hd.
  - intros Hd.
    assert (HealthSecureIdentity.isPatient (identity st) a = false) as Hp.
    { apply IdentityFacts.isVerifiedDoctor_true in Hd as (_ & Hr & _).
      unfold HealthSecureIdentity.isPatient. rewrite Hr.
      by rewrite andb_false_r. }
    split; [exact Hp|]. split; [|split].
    + rewrite failure_grantAccess. cbn. by rewrite Hp.
    + rewrite failure_revokeAccess. cbn. by rewrite Hp.
    + intros Hb. rewrite failure_createRecord. cbn. by rewrite Hb, Hp.
Qed.

Lemma roles_separate_witness :
  System.failure (env_at 1 40 demo_deployment)
    (System.CreateRecord 1 77 "Qm" MedicalRecordRegistry.DIAGNOSIS)
    (contracts demo_deployment)
  = Some (Revert "Only verified doctors can create records")
  ∧ System.failure (env_at 2 40 demo_deployment) (System.GrantAccess 2 0)
      (contracts demo_deployment)
    = Some (Revert "Only patients can grant access").
Proof.
  destruct (roles_separate demo_deployment 1 1 40 77 "Qm"
              MedicalRecordRegistry.DIAGNOSIS 0) as (Hp & _).
  destruct (Hp eq_refl) as (_ & Hc & _).
  destruct (roles_separate demo_deployment 2 2 40 77 "Qm"
              MedicalRecordRegistry.DIAGNOSIS 0) as (_ & Hd).
  destruct (Hd eq_refl) as (_ & Hg & _).
  split; [exact Hc|exact Hg].
Defined.

End DeploymentFacts.
